(** * Availability engine: a shallow embedding of
      backend/availability/utils.py

    The development follows the layout of the Python module: the
    time-of-day primitives, the cache-key and dirty-set protocol, and the
    slot calculation pipeline (rule resolver, slot enumerator, block
    filter, booking conflict filter, multi-invitee sort, orchestrator).

    Conventions.
    - A Python [str] is a [string]; its characters are code points below
      256.
    - A Python [int] is a [Z].
    - A [date] is its proleptic Gregorian ordinal ([date.toordinal()]), a
      [Z]; the bounds of the Python type (years 1 to 9999) are not checked.
    - A [time] is the number of microseconds since midnight, and a
      [datetime] is a wall-clock reading in microseconds (ordinal of the
      day times the length of a day, plus the time) paired with its
      [tzinfo].
    - The clock of the cache backend is a [Z], in seconds; a call is made
      at one instant of it. *)

From Stdlib Require Import ZArith Lia Ascii String DecimalString DecimalZ.
From Stdlib Require Import QArith Qcanon.
From stdpp Require Import base tactics option list sorting numbers gmap strings.

Local Open Scope Z_scope.

(* ===================================================================== *)
(** * Time-of-day primitives *)
(* ===================================================================== *)

(** ** Python string helpers used by [_time_to_minutes] *)

(** [str.split(':')]: the fields between colons; never an empty list. *)
Fixpoint split_colon (s : string) : list string :=
  match s with
  | EmptyString => [EmptyString]
  | String c r =>
      if Ascii.eqb c ":"%char then EmptyString :: split_colon r
      else match split_colon r with
           | f :: fs => String c f :: fs
           | [] => [String c EmptyString]
           end
  end.

(** Characters that [int()] skips around the number: tab to carriage
    return and the space, and the two Latin-1 spaces 133 and 160, which
    are turned into spaces first. The separators 28 to 31, white space
    for [str.strip], are not skipped: [int] raises on them. *)
Definition is_space (c : ascii) : bool :=
  let n := nat_of_ascii c in
  ((9 <=? n) && (n <=? 13))%nat || (n =? 32)%nat
  || (n =? 133)%nat || (n =? 160)%nat.

Definition is_digit (c : ascii) : bool :=
  let n := nat_of_ascii c in ((48 <=? n) && (n <=? 57))%nat.

Definition digit_val (c : ascii) : Z := Z.of_nat (nat_of_ascii c) - 48.

Fixpoint lstrip (s : string) : string :=
  match s with
  | String c r => if is_space c then lstrip r else s
  | EmptyString => EmptyString
  end.

Fixpoint rstrip (s : string) : string :=
  match s with
  | EmptyString => EmptyString
  | String c r =>
      match rstrip r with
      | EmptyString => if is_space c then EmptyString else String c EmptyString
      | r' => String c r'
      end
  end.

(** The digits of a decimal literal: at least one digit, single
    underscores allowed between digits only. [prev] tells whether the
    previous character was a digit. *)
Fixpoint parse_digits (acc : Z) (prev : bool) (s : string) : option Z :=
  match s with
  | EmptyString => if prev then Some acc else None
  | String c r =>
      if is_digit c then parse_digits (acc * 10 + digit_val c) true r
      else if Ascii.eqb c "_"%char then
        if prev then parse_digits acc false r else None
      else None
  end.

(** The number of decimal digits in a string. *)
Fixpoint count_digits (s : string) : Z :=
  match s with
  | EmptyString => 0
  | String c r => (if is_digit c then 1 else 0) + count_digits r
  end.

(** A literal after its sign. The interpreter refuses a literal of more
    than 4300 digits, the default of [sys.set_int_max_str_digits]. *)
Definition parse_literal (s : string) : option Z :=
  if 4300 <? count_digits s then None else parse_digits 0 false s.

(** [int(s)] in base 10; [None] stands for [ValueError]. *)
Definition int_of_str (s : string) : option Z :=
  match rstrip (lstrip s) with
  | String c r =>
      if Ascii.eqb c "-"%char then Z.opp <$> parse_literal r
      else if Ascii.eqb c "+"%char then parse_literal r
      else parse_literal (String c r)
  | EmptyString => None
  end.

(** ** [_time_to_minutes] *)

(** The hour and minute fields when both are there and both parse; [None]
    is the [except (ValueError, IndexError)] branch. *)
Definition hm_fields (time_str : string) : option (Z * Z) :=
  match split_colon time_str with
  | p0 :: p1 :: _ =>
      match int_of_str p0, int_of_str p1 with
      | Some hours, Some minutes => Some (hours, minutes)
      | _, _ => None
      end
  | _ => None
  end.

Definition _time_to_minutes (time_str : string) : Z :=
  match hm_fields time_str with
  | Some (hours, minutes) => hours * 60 + minutes
  | None => 0
  end.

(** ** [are_time_intervals_overlapping] *)

(** Truth value of a [str]: only the empty string is false. *)
Definition truthy (s : string) : bool :=
  match s with EmptyString => false | _ => true end.

(** The comparison on the four minute counts, as the last [if] of the
    function writes it. *)
Definition overlap_minutes (allow_adjacency : bool) (s1 e1 s2 e2 : Z) : bool :=
  if allow_adjacency then (s1 <=? e2) && (e1 >=? s2)
  else (s1 <? e2) && (e1 >? s2).

(** No call inside the [try] can raise on [str] arguments
    ([_time_to_minutes] catches what [split] and [int] raise), so the
    outer [except] branch has no counterpart here. *)
Definition are_time_intervals_overlapping
    (start1 end1 start2 end2 : string) (allow_adjacency : bool) : bool :=
  if negb (truthy start1 && truthy end1 && truthy start2 && truthy end2)
  then false
  else
    let start1_minutes := _time_to_minutes start1 in
    let end1_minutes := _time_to_minutes end1 in
    let start2_minutes := _time_to_minutes start2 in
    let end2_minutes := _time_to_minutes end2 in
    let end1_minutes :=
      if end1_minutes <? start1_minutes then end1_minutes + 24 * 60
      else end1_minutes in
    let end2_minutes :=
      if end2_minutes <? start2_minutes then end2_minutes + 24 * 60
      else end2_minutes in
    overlap_minutes allow_adjacency
      start1_minutes end1_minutes start2_minutes end2_minutes.

(** ** What the specification asks of the inputs and of the
       normalisation *)

(** A well-formed HH:MM:SS time: three two-digit fields in range. *)
Definition two_digits (s : string) (bound : Z) : bool :=
  match s with
  | String a (String b EmptyString) =>
      is_digit a && is_digit b && (digit_val a * 10 + digit_val b <? bound)
  | _ => false
  end.

Definition well_formed_hms (s : string) : bool :=
  match split_colon s with
  | [h; m; sec] => two_digits h 24 && two_digits m 60 && two_digits sec 60
  | _ => false
  end.

(** The normalisation in the words of the specification: an interval
    whose end is at or before its start gets 1440 minutes added. *)
Definition normalize_end_spec (start_minutes end_minutes : Z) : Z :=
  if end_minutes <=? start_minutes then end_minutes + 1440 else end_minutes.

(** The normalisation the function applies: only an end strictly before
    the start is moved to the next day. *)
Definition normalize_end (start_minutes end_minutes : Z) : Z :=
  if end_minutes <? start_minutes then end_minutes + 1440 else end_minutes.

(** What a non-empty endpoint is read as: itself when its hour and minute
    fields parse, midnight otherwise. *)
Definition read_as (s : string) : string :=
  match hm_fields s with Some _ => s | None => "00:00" end.

(* ===================================================================== *)
(** * Cache keys *)
(* ===================================================================== *)

(** [str(n)] of an [int]: decimal digits, a minus sign when negative. *)
Definition str_of_int (n : Z) : string := NilEmpty.string_of_int (Z.to_int n).

(** The three fields [date.isoformat()] reads. The Python type keeps
    [1 <= year <= 9999], [1 <= month <= 12] and the day within the
    month. *)
Record pydate := { year : Z; month : Z; day : Z }.

Definition valid_pydate (d : pydate) : Prop :=
  1 <= year d <= 9999 /\ 1 <= month d <= 12 /\ 1 <= day d <= 31.

Definition digit_char (n : Z) : ascii := ascii_of_nat (48 + Z.to_nat n).

(** [%04d] and [%02d] on the ranges of a date's fields. *)
Definition pad4 (n : Z) : string :=
  String (digit_char (n / 1000)) (String (digit_char (n / 100 mod 10))
    (String (digit_char (n / 10 mod 10)) (String (digit_char (n mod 10))
      EmptyString))).

Definition pad2 (n : Z) : string :=
  String (digit_char (n / 10)) (String (digit_char (n mod 10)) EmptyString).

(** [date.isoformat()]: YYYY-MM-DD. *)
Definition isoformat (d : pydate) : string :=
  pad4 (year d) +:+ "-" +:+ pad2 (month d) +:+ "-" +:+ pad2 (day d).

(** [sep.join(parts)]. *)
Fixpoint join (sep : string) (parts : list string) : string :=
  match parts with
  | [] => ""
  | [p] => p
  | p :: rest => p +:+ sep +:+ join sep rest
  end.

(** The two identifiers are annotated [str]; [str()] of a [str] is the
    string itself. *)
Definition get_cache_key_for_availability
    (organizer_id event_type_id : string) (start_date end_date : pydate)
    (invitee_timezone : string) (attendee_count : Z) : string :=
  let key_parts :=
    [ "availability";
      organizer_id;
      event_type_id;
      isoformat start_date;
      isoformat end_date;
      invitee_timezone;
      str_of_int attendee_count ] in
  join ":" key_parts.

(** A string without the separator. *)
Fixpoint colon_free (s : string) : bool :=
  match s with
  | EmptyString => true
  | String c r => negb (Ascii.eqb c ":"%char) && colon_free r
  end.

(* ===================================================================== *)
(** * Dirty-set protocol *)
(* ===================================================================== *)

(** One change record: the dict built from [cache_type], the timestamp
    and the keyword arguments, later keys overriding earlier ones. *)
Definition change_data := gmap string string.

(** The dict stored under [dirty_cache:<organizer>]. *)
Record dirty_data := {
  dd_organizer_id : string;
  dd_requires_full_invalidation : bool;
  dd_changes : list change_data
}.

(** What this module keeps in the cache: a dirty record or the set of
    dirty organizers. *)
Inductive cache_value :=
  | VDirty (d : dirty_data)
  | VOrganizers (s : gset string).

(** A cache entry with the instant at which it expires: the instant it
    was stored at plus its timeout, on the clock of the backend, in
    seconds. *)
Record cache_entry := { ce_value : cache_value; ce_expires : Z }.

(** [cache.get(key, default)] at the instant [clock]: an entry is found
    until its timeout has run out. *)
Definition cache_get (cache : gmap string cache_entry) (clock : Z)
    (key : string) (default : cache_value) : cache_value :=
  match cache !! key with
  | Some e => if clock <? ce_expires e then ce_value e else default
  | None => default
  end.

(** [cache.set(key, v, timeout)] at the instant [clock]. *)
Definition cache_set (cache : gmap string cache_entry) (clock : Z)
    (key : string) (v : cache_value) (timeout : Z) : gmap string cache_entry :=
  <[key := {| ce_value := v; ce_expires := clock + timeout |}]> cache.

Definition cache_delete (cache : gmap string cache_entry) (key : string)
    : gmap string cache_entry :=
  delete key cache.

Definition dirty_key (organizer_id : string) : string :=
  "dirty_cache:" +:+ organizer_id.

Definition dirty_list_key : string := "dirty_cache_list".

(** [mark_cache_dirty], called at the instant [clock] of the cache;
    [now] is [timezone.now().isoformat()]. [None] is the [TypeError] or
    [AttributeError] of using a cached value of the other kind as a dict
    or as a set. *)
Definition mark_cache_dirty (cache : gmap string cache_entry) (clock : Z)
    (organizer_id cache_type : string) (requires_full_invalidation : bool)
    (now : string) (kwargs : gmap string string)
    : option (gmap string cache_entry) :=
  match cache_get cache clock (dirty_key organizer_id)
          (VDirty {| dd_organizer_id := organizer_id;
                     dd_requires_full_invalidation := false;
                     dd_changes := [] |}) with
  | VOrganizers _ => None
  | VDirty dirty =>
      let dirty :=
        if requires_full_invalidation
        then {| dd_organizer_id := dd_organizer_id dirty;
                dd_requires_full_invalidation := true;
                dd_changes := dd_changes dirty |}
        else dirty in
      let change : change_data :=
        kwargs ∪ <["timestamp" := now]> {["cache_type" := cache_type]} in
      let dirty :=
        {| dd_organizer_id := dd_organizer_id dirty;
           dd_requires_full_invalidation := dd_requires_full_invalidation dirty;
           dd_changes := dd_changes dirty ++ [change] |} in
      let cache :=
        cache_set cache clock (dirty_key organizer_id) (VDirty dirty) 3600 in
      match cache_get cache clock dirty_list_key (VOrganizers ∅) with
      | VDirty _ => None
      | VOrganizers dirty_organizers =>
          Some (cache_set cache clock dirty_list_key
                  (VOrganizers (dirty_organizers ∪ {[organizer_id]})) 3600)
      end
  end.

Definition get_dirty_organizers (cache : gmap string cache_entry) (clock : Z)
    : option (list string) :=
  match cache_get cache clock dirty_list_key (VOrganizers ∅) with
  | VOrganizers s => Some (elements s)
  | VDirty _ => None
  end.

Definition clear_dirty_flags (cache : gmap string cache_entry) (clock : Z)
    (organizer_id : string) : option (gmap string cache_entry) :=
  let cache := cache_delete cache (dirty_key organizer_id) in
  match cache_get cache clock dirty_list_key (VOrganizers ∅) with
  | VDirty _ => None
  | VOrganizers dirty_organizers =>
      Some (cache_set cache clock dirty_list_key
              (VOrganizers (dirty_organizers ∖ {[organizer_id]})) 3600)
  end.

(** A call of one of the two mutators. *)
Inductive dirty_call :=
  | MarkDirty (organizer_id cache_type : string)
      (requires_full_invalidation : bool) (now : string)
      (kwargs : gmap string string)
  | ClearDirty (organizer_id : string).

(** A call made at the instant [clock]. *)
Definition run_call (cache : gmap string cache_entry) (clock : Z)
    (c : dirty_call) : option (gmap string cache_entry) :=
  match c with
  | MarkDirty o ct full now kw => mark_cache_dirty cache clock o ct full now kw
  | ClearDirty o => clear_dirty_flags cache clock o
  end.

(** A sequence of calls, each with the instant it is made at. *)
Fixpoint run_calls (cache : gmap string cache_entry)
    (cs : list (Z * dirty_call)) : option (gmap string cache_entry) :=
  match cs with
  | [] => Some cache
  | (clock, c) :: rest =>
      match run_call cache clock c with
      | Some cache' => run_calls cache' rest
      | None => None
      end
  end.

(** The dirty record that a read at the instant [clock] finds for an
    organizer. *)
Definition stored_record (cache : gmap string cache_entry) (clock : Z)
    (organizer_id : string) : option dirty_data :=
  match cache !! dirty_key organizer_id with
  | Some e =>
      if clock <? ce_expires e then
        match ce_value e with
        | VDirty d => Some d
        | VOrganizers _ => None
        end
      else None
  | None => None
  end.

(** The flag of that record. *)
Definition stored_flag (cache : gmap string cache_entry) (clock : Z)
    (organizer_id : string) : option bool :=
  dd_requires_full_invalidation <$> stored_record cache clock organizer_id.

(** The cache holds values of the right kind under the keys of the
    protocol. *)
Definition cache_well_typed (cache : gmap string cache_entry) : Prop :=
  (forall o e, cache !! dirty_key o = Some e ->
     exists d, ce_value e = VDirty d) /\
  (forall e, cache !! dirty_list_key = Some e ->
     exists s, ce_value e = VOrganizers s).

(** The record of an organizer, written at the instant [written], is
    found by every later [mark_cache_dirty] of the organizer and by the
    read at [read_at]: each comes less than the timeout of 3600 seconds
    after the write before it. *)
Fixpoint record_kept (organizer_id : string) (written : Z)
    (cs : list (Z * dirty_call)) (read_at : Z) : Prop :=
  match cs with
  | [] => read_at < written + 3600
  | (clock, MarkDirty o _ _ _ _) :: rest =>
      if decide (o = organizer_id)
      then clock < written + 3600 /\ record_kept organizer_id clock rest read_at
      else record_kept organizer_id written rest read_at
  | (_, ClearDirty _) :: rest => record_kept organizer_id written rest read_at
  end.

(* ===================================================================== *)
(** * The slot calculation engine: data *)
(* ===================================================================== *)

Definition MINUTE : Z := 60000000.
Definition HOUR : Z := 3600000000.
Definition DAY : Z := 86400000000.

(** The [tzinfo] objects the engine meets: [timezone.utc] on values read
    from the database, and the cached [ZoneInfo(name)] objects. *)
Inductive tzinfo :=
  | DbUtc
  | Zone (name : string).

#[global] Instance tzinfo_eq_dec : EqDecision tzinfo.
Proof. solve_decision. Defined.

(** An aware [datetime]: the wall-clock reading and its zone. *)
Record datetime := { wall : Z; tz : tzinfo }.

(** The IANA database behind [ZoneInfo]: which keys resolve, the offset
    from UTC a zone gives to a wall-clock reading, the wall-clock reading
    it gives to an instant, the daylight-saving part of the offset, and
    [str(e)] of the exception that [ZoneInfo] raises for a key that does
    not resolve (for a key that is not found, the message in quotes, as
    a [KeyError] shows it; for a key that is no relative path, that of a
    [ValueError]). *)
Class ZoneDb := {
  zone_known : string -> bool;
  zone_utcoffset : string -> Z -> Z;
  zone_fromutc : string -> Z -> Z;
  zone_dst : string -> Z -> option Z;
  zone_error : string -> string
}.

(** What a call comes back with: a value, an exception, or nothing (a
    loop that is never left). *)
Inductive outcome (A : Type) :=
  | Done (a : A)
  | Raised (msg : string)
  | Stuck.
Arguments Done {A} a.
Arguments Raised {A} msg.
Arguments Stuck {A}.

#[global] Instance outcome_ret : MRet outcome := fun A a => Done a.
#[global] Instance outcome_bind : MBind outcome := fun A B k m =>
  match m with
  | Done a => k a
  | Raised msg => Raised msg
  | Stuck => Stuck
  end.

Record Profile := {
  timezone_name : string;
  reasonable_hours_start : Z;
  reasonable_hours_end : Z
}.

(** [profile] is [None] when the user has no profile row; reading
    [organizer.profile] then raises. *)
Record User := { user_id : Z; email : string; profile : option Profile }.

Record EventType := {
  et_id : Z;
  duration : Z;
  buffer_time_before : option Z;
  buffer_time_after : option Z;
  slot_interval_minutes : option Z;
  is_group_event : bool;
  max_attendees : Z
}.

Record AvailabilityRule := {
  ar_organizer : Z;
  ar_day_of_week : Z;
  ar_start_time : Z;
  ar_end_time : Z;
  ar_event_types : list Z;
  ar_is_active : bool
}.

Record DateOverrideRule := {
  do_organizer : Z;
  do_date : Z;
  do_is_available : bool;
  do_start_time : option Z;
  do_end_time : option Z;
  do_event_types : list Z;
  do_is_active : bool
}.

Record RecurringBlockedTime := {
  rb_organizer : Z;
  rb_day_of_week : Z;
  rb_start_time : Z;
  rb_end_time : Z;
  rb_start_date : option Z;
  rb_end_date : option Z;
  rb_is_active : bool
}.

Record BlockedTime := {
  bl_organizer : Z;
  bl_start_datetime : datetime;
  bl_end_datetime : datetime;
  bl_is_active : bool
}.

Record BufferTime := {
  bt_organizer : Z;
  default_buffer_before : Z;
  default_buffer_after : Z;
  minimum_gap : Z;
  bt_slot_interval_minutes : Z
}.

Record Booking := {
  bk_organizer : Z;
  bk_event_type_id : Z;
  bk_start_time : datetime;
  bk_end_time : datetime;
  bk_status : string;
  bk_attendee_count : Z
}.

(** The tables the engine reads. A queryset yields the rows of its table
    that pass the filter, in the order of the list.
    [buffer_field_defaults] are the field defaults [get_or_create] uses
    for an organizer without a row: before, after, gap, interval. *)
Record Database := {
  availability_rules : list AvailabilityRule;
  date_overrides : list DateOverrideRule;
  recurring_blocks : list RecurringBlockedTime;
  blocked_times : list BlockedTime;
  bookings : list Booking;
  buffer_times : list BufferTime;
  buffer_field_defaults : Z * Z * Z * Z
}.

(** Modelled from the spec: the model methods [applies_to_event_type],
    [spans_midnight] and [applies_to_date] live in models.py, which is
    not part of the sources. An empty scope matches every event type,
    otherwise the event type must be a member; a window spans midnight
    when its end is at or before its start; a recurring block applies
    from its start date to its end date, an absent bound being open. *)
Definition applies_to_event_type (scope : list Z) (event_type : EventType) : bool :=
  match scope with
  | [] => true
  | _ => bool_decide (et_id event_type ∈ scope)
  end.

Definition spans_midnight (start_time end_time : Z) : bool :=
  end_time <=? start_time.

Definition applies_to_date (block : RecurringBlockedTime) (d : Z) : bool :=
  match rb_start_date block with Some s => s <=? d | None => true end
  && match rb_end_date block with Some e => d <=? e | None => true end.

(** A slot dict as [_generate_slots_from_interval] builds it. *)
Record slot := {
  start_time : datetime;
  end_time : datetime;
  duration_minutes : Z
}.

(** One entry of [invitee_times]; the two ISO strings are kept as the
    datetimes they print. *)
Record invitee_time := {
  it_start_time : datetime;
  it_end_time : datetime;
  start_hour : Z;
  end_hour : Z;
  is_reasonable : bool
}.

(** A slot dict with the keys the two enrichment passes may add. *)
Record out_slot := {
  base : slot;
  invitee_times : option (gmap string invitee_time);
  fairness_score : option Qc;
  local_times : option (datetime * datetime * bool)
}.

(** [total_slots_calculated] and [date_range_days] are absent from the
    metrics of the [except] branch; [duration], a wall-clock measurement,
    is left out. *)
Record Metrics := {
  total_slots_calculated : option Z;
  date_range_days : option Z
}.

Record Response := {
  slots : list out_slot;
  warnings : list string;
  performance_metrics : Metrics
}.

(* ===================================================================== *)
(** * The slot calculation engine: operations *)
(* ===================================================================== *)

Section Engine.
Context {zones : ZoneDb}.

(** ** Dates and datetimes *)

(** [date.weekday()], Monday is 0; ordinal 1 is a Monday. *)
Definition weekday (d : Z) : Z := (d + 6) `mod` 7.

(** The reading of [datetime.combine(d, t)]. *)
Definition combine (d t : Z) : Z := d * DAY + t.

(** [dt + timedelta(minutes=m)]: wall-clock arithmetic, same zone. *)
Definition add_minutes (dt : datetime) (m : Z) : datetime :=
  {| wall := wall dt + m * MINUTE; tz := tz dt |}.

Definition utcoffset (dt : datetime) : Z :=
  match tz dt with
  | DbUtc => 0
  | Zone name => zone_utcoffset name (wall dt)
  end.

(** The instant of an aware datetime, as microseconds of UTC. *)
Definition instant (dt : datetime) : Z := wall dt - utcoffset dt.

(** Python's [a < b] and [a <= b] on aware datetimes: wall-clock readings
    when both carry the same [tzinfo], instants otherwise. *)
Definition dt_ltb (a b : datetime) : bool :=
  if decide (tz a = tz b) then wall a <? wall b else instant a <? instant b.

Definition dt_leb (a b : datetime) : bool :=
  if decide (tz a = tz b) then wall a <=? wall b else instant a <=? instant b.

(** [ZoneInfo(key)]. *)
Definition ZoneInfo (key : string) : outcome tzinfo :=
  if zone_known key then Done (Zone key) else Raised (zone_error key).

(** [dt.astimezone(ZoneInfo(name))] for a known zone. *)
Definition astimezone (dt : datetime) (name : string) : datetime :=
  if decide (tz dt = Zone name) then dt
  else {| wall := zone_fromutc name (instant dt); tz := Zone name |}.

Definition hour (dt : datetime) : Z := (wall dt / HOUR) `mod` 24.

Definition validate_timezone (tz_string : string) : bool :=
  if negb (truthy tz_string) then false else zone_known tz_string.

(** ** Sorting as [sorted] and [list.sort] do it: stable *)

(** [goes_before y x] says that [y] has to come strictly before [x]; an
    element is put in front of the first one that need not precede it. *)
Fixpoint insert_stable {A} (goes_before : A -> A -> bool) (x : A) (l : list A)
    : list A :=
  match l with
  | [] => [x]
  | y :: r =>
      if goes_before y x then y :: insert_stable goes_before x r
      else x :: y :: r
  end.

Definition py_sorted {A} (goes_before : A -> A -> bool) (l : list A) : list A :=
  foldr (insert_stable goes_before) [] l.

(** ** Rule resolver *)

(** The loop of [merge_overlapping_intervals]; [last] is [merged[-1]],
    the runs before it are emitted as they are closed. The intervals of
    one day are all in the organizer's zone, so they are compared by
    their readings. *)
Fixpoint merge_loop (last : Z * Z) (rest : list (Z * Z)) : list (Z * Z) :=
  match rest with
  | [] => [last]
  | (current_start, current_end) :: rest' =>
      let '(last_start, last_end) := last in
      if current_start <=? last_end
      then merge_loop (last_start, Z.max last_end current_end) rest'
      else last :: merge_loop (current_start, current_end) rest'
  end.

Definition merge_overlapping_intervals (intervals : list (Z * Z)) : list (Z * Z) :=
  match py_sorted (fun y x => y.1 <? x.1) intervals with
  | [] => []
  | first :: rest => merge_loop first rest
  end.

(** The readings of a window composed on [target_date]. *)
Definition compose_window (target_date start_t end_t : Z) : Z * Z :=
  let start_dt := combine target_date start_t in
  let end_dt := combine target_date end_t in
  let end_dt := if spans_midnight start_t end_t then end_dt + DAY else end_dt in
  (start_dt, end_dt).

Definition applicable_overrides (db : Database) (organizer : User)
    (event_type : EventType) (target_date : Z) : list DateOverrideRule :=
  filter (fun o => applies_to_event_type (do_event_types o) event_type = true)
    (filter (fun o => do_organizer o = user_id organizer
                      /\ do_date o = target_date
                      /\ do_is_active o = true)
       (date_overrides db)).

Definition applicable_rules (db : Database) (organizer : User)
    (event_type : EventType) (target_date : Z) : list AvailabilityRule :=
  filter (fun r => applies_to_event_type (ar_event_types r) event_type = true)
    (filter (fun r => ar_organizer r = user_id organizer
                      /\ ar_day_of_week r = weekday target_date
                      /\ ar_is_active r = true)
       (availability_rules db)).

(** The loop over the applicable overrides. *)
Fixpoint override_intervals (target_date : Z) (organizer_timezone : string)
    (overrides : list DateOverrideRule) : outcome (list (Z * Z)) :=
  match overrides with
  | [] => Done []
  | o :: rest =>
      match do_is_available o, do_start_time o, do_end_time o with
      | true, Some s, Some e =>
          _ ← ZoneInfo organizer_timezone;
          intervals ← override_intervals target_date organizer_timezone rest;
          Done (compose_window target_date s e :: intervals)
      | _, _, _ => override_intervals target_date organizer_timezone rest
      end
  end.

(** The loop over the applicable rules. *)
Fixpoint rule_intervals (target_date : Z) (organizer_timezone : string)
    (rules : list AvailabilityRule) : outcome (list (Z * Z)) :=
  match rules with
  | [] => Done []
  | r :: rest =>
      _ ← ZoneInfo organizer_timezone;
      intervals ← rule_intervals target_date organizer_timezone rest;
      Done (compose_window target_date (ar_start_time r) (ar_end_time r)
              :: intervals)
  end.

(** The readings of the day's intervals, all in the zone
    [organizer_timezone]. *)
Definition _get_daily_available_intervals (db : Database) (organizer : User)
    (event_type : EventType) (target_date : Z) (organizer_timezone : string)
    : outcome (list (Z * Z)) :=
  match applicable_overrides db organizer event_type target_date with
  | (_ :: _) as overrides =>
      override_intervals target_date organizer_timezone overrides
  | [] =>
      intervals ← rule_intervals target_date organizer_timezone
                    (applicable_rules db organizer event_type target_date);
      Done (merge_overlapping_intervals intervals)
  end.

(** ** Slot enumerator *)

Definition make_slot (zone : tzinfo) (current_time duration_minutes : Z) : slot :=
  {| start_time := {| wall := current_time; tz := zone |};
     end_time := {| wall := current_time + duration_minutes * MINUTE; tz := zone |};
     duration_minutes := duration_minutes |}.

(** The [while] loop, run for at most [fuel] rounds. *)
Fixpoint slots_loop (fuel : nat) (zone : tzinfo)
    (current_time interval_end duration_minutes slot_interval_minutes : Z)
    : list slot :=
  match fuel with
  | O => []
  | S fuel' =>
      if current_time + duration_minutes * MINUTE <=? interval_end
      then make_slot zone current_time duration_minutes
           :: slots_loop fuel' zone (current_time + slot_interval_minutes * MINUTE)
                interval_end duration_minutes slot_interval_minutes
      else []
  end.

(** The number of rounds after which the loop condition fails, for a
    positive stride and a first slot that fits. *)
Definition slot_rounds (interval_start interval_end duration_minutes
    slot_interval_minutes : Z) : nat :=
  Z.to_nat ((interval_end - interval_start - duration_minutes * MINUTE)
            / (slot_interval_minutes * MINUTE) + 1).

(** With a stride of zero the loop is never left once it is entered.
    With a negative stride it runs back to the first year, where the
    addition of the stride raises [OverflowError]. *)
Definition _generate_slots_from_interval (zone : tzinfo)
    (interval_start interval_end duration_minutes slot_interval_minutes : Z)
    : outcome (list slot) :=
  if interval_start + duration_minutes * MINUTE <=? interval_end then
    if 0 <? slot_interval_minutes then
      Done (slots_loop
              (slot_rounds interval_start interval_end duration_minutes
                 slot_interval_minutes)
              zone interval_start interval_end duration_minutes
              slot_interval_minutes)
    else if slot_interval_minutes <? 0 then Raised "date value out of range"
    else Stuck
  else Done [].

(** ** Block filter *)

Definition is_slot_blocked_by_one_time (db : Database) (organizer : User)
    (s : slot) : bool :=
  let slot_start := start_time s in
  let slot_end := end_time s in
  let blocked :=
    filter (fun b => bl_organizer b = user_id organizer
                     /\ bl_is_active b = true
                     /\ instant (bl_start_datetime b) < instant slot_end
                     /\ instant (bl_end_datetime b) > instant slot_start)
      (blocked_times db) in
  match blocked with [] => false | _ => true end.

(** The slots of the pipeline are aware, so the block's naive datetimes
    always take the zone of the slot's start. *)
Definition is_slot_blocked_by_recurring (db : Database) (organizer : User)
    (s : slot) (target_date : Z) : bool :=
  let slot_start := start_time s in
  let slot_end := end_time s in
  let day_of_week := weekday target_date in
  let blocks :=
    filter (fun b => rb_organizer b = user_id organizer
                     /\ rb_day_of_week b = day_of_week
                     /\ rb_is_active b = true)
      (recurring_blocks db) in
  existsb
    (fun block =>
       if negb (applies_to_date block target_date) then false
       else
         let '(block_start, block_end) :=
           compose_window target_date (rb_start_time block) (rb_end_time block) in
         let block_start := {| wall := block_start; tz := tz slot_start |} in
         let block_end := {| wall := block_end; tz := tz slot_start |} in
         dt_ltb block_start slot_end && dt_ltb slot_start block_end)
    blocks.

Definition is_slot_blocked (db : Database) (organizer : User) (s : slot)
    (target_date : Z) : bool :=
  is_slot_blocked_by_one_time db organizer s
  || is_slot_blocked_by_recurring db organizer s target_date.

(** Defined in the module and called from nowhere in it. *)
Definition is_slot_blocked_by_override (db : Database) (organizer : User)
    (event_type : EventType) (s : slot) (target_date : Z) : bool :=
  let slot_start := start_time s in
  let slot_end := end_time s in
  existsb
    (fun o =>
       if negb (do_is_available o) then true
       else match do_start_time o, do_end_time o with
            | Some st, Some en =>
                let '(override_start, override_end) :=
                  compose_window target_date st en in
                let override_start := {| wall := override_start; tz := tz slot_start |} in
                let override_end := {| wall := override_end; tz := tz slot_start |} in
                negb (dt_leb override_start slot_start && dt_leb slot_end override_end)
            | _, _ => false
            end)
    (applicable_overrides db organizer event_type target_date).

(** ** Booking conflict filter *)

(** The second query: confirmed bookings of the organizer and of the
    event type that overlap the slot itself. *)
Definition overlapping_bookings (db : Database) (organizer : User)
    (event_type : EventType) (s : slot) : list Booking :=
  filter (fun b => bk_organizer b = user_id organizer
                   /\ bk_event_type_id b = et_id event_type
                   /\ bk_status b = "confirmed"
                   /\ instant (bk_start_time b) < instant (end_time s)
                   /\ instant (bk_end_time b) > instant (start_time s))
    (bookings db).

Definition total_confirmed_attendees (db : Database) (organizer : User)
    (event_type : EventType) (s : slot) : Z :=
  foldr Z.add 0 (bk_attendee_count <$> overlapping_bookings db organizer event_type s).

(** The first query: confirmed bookings of the organizer that meet the
    protected zone of the slot. *)
Definition existing_bookings (db : Database) (organizer : User)
    (protected_start protected_end : datetime) : list Booking :=
  filter (fun b => bk_organizer b = user_id organizer
                   /\ bk_status b = "confirmed"
                   /\ instant (bk_start_time b) < instant protected_end
                   /\ instant (bk_end_time b) > instant protected_start)
    (bookings db).

(** The test that opens the body of the loop. *)
Definition zones_overlap (booking : Booking) (minimum_gap : Z)
    (protected_start protected_end : datetime) : bool :=
  let booking_protected_start := add_minutes (bk_start_time booking) (- minimum_gap) in
  let booking_protected_end := add_minutes (bk_end_time booking) minimum_gap in
  dt_ltb booking_protected_start protected_end
  && dt_ltb protected_start booking_protected_end.

(** The loop over [existing_bookings]: [true] at the first booking that
    makes the function return [True]. *)
Fixpoint conflict_loop (db : Database) (organizer : User)
    (event_type : EventType) (s : slot) (attendee_count minimum_gap : Z)
    (protected_start protected_end : datetime) (existing : list Booking) : bool :=
  match existing with
  | [] => false
  | booking :: rest =>
      let continue :=
        conflict_loop db organizer event_type s attendee_count minimum_gap
          protected_start protected_end rest in
      if zones_overlap booking minimum_gap protected_start protected_end then
        if is_group_event event_type
           && bool_decide (bk_event_type_id booking = et_id event_type)
        then
          if total_confirmed_attendees db organizer event_type s + attendee_count
             >? max_attendees event_type
          then true
          else continue
        else true
      else continue
  end.

Definition is_slot_conflicting_with_bookings (db : Database) (organizer : User)
    (event_type : EventType) (s : slot)
    (attendee_count buffer_before buffer_after minimum_gap : Z) : bool :=
  let slot_start := start_time s in
  let slot_end := end_time s in
  let protected_start := add_minutes slot_start (- buffer_before) in
  let protected_end := add_minutes slot_end buffer_after in
  conflict_loop db organizer event_type s attendee_count minimum_gap
    protected_start protected_end
    (existing_bookings db organizer protected_start protected_end).

(** ** One day *)

(** The loop that turns the day's intervals into candidate slots. *)
Fixpoint potential_slots (zone : tzinfo) (duration_minutes slot_interval : Z)
    (intervals : list (Z * Z)) : outcome (list slot) :=
  match intervals with
  | [] => Done []
  | (interval_start, interval_end) :: rest =>
      interval_slots ← _generate_slots_from_interval zone interval_start
                         interval_end duration_minutes slot_interval;
      more ← potential_slots zone duration_minutes slot_interval rest;
      Done (interval_slots ++ more)
  end.

(** A day with intervals has had [ZoneInfo(organizer_timezone)] resolved,
    and its slots carry that zone. *)
Definition _calculate_daily_slots (db : Database) (organizer : User)
    (event_type : EventType) (target_date : Z)
    (organizer_timezone invitee_timezone : string)
    (attendee_count buffer_before buffer_after minimum_gap slot_interval : Z)
    : outcome (list slot) :=
  available_intervals ← _get_daily_available_intervals db organizer event_type
                          target_date organizer_timezone;
  match available_intervals with
  | [] => Done []
  | _ =>
      potential ← potential_slots (Zone organizer_timezone) (duration event_type)
                    slot_interval available_intervals;
      Done (filter
              (fun s =>
                 is_slot_blocked db organizer s target_date = false
                 /\ is_slot_conflicting_with_bookings db organizer event_type s
                      attendee_count buffer_before buffer_after minimum_gap
                    = false)
              potential)
  end.

(** ** Enrichment *)

Definition plain (s : slot) : out_slot :=
  {| base := s; invitee_times := None; fairness_score := None;
     local_times := None |}.

(** The inner loop of [calculate_multi_invitee_intersection] over the
    zones: the dict built so far and the count of reasonable zones. A
    zone that does not resolve is skipped. *)
Fixpoint invitee_loop (reasonable_start reasonable_end : Z) (s : slot)
    (zones : list string) (acc : gmap string invitee_time * Z)
    : gmap string invitee_time * Z :=
  match zones with
  | [] => acc
  | name :: rest =>
      let '(times, reasonable_count) := acc in
      if zone_known name then
        let local_start := astimezone (start_time s) name in
        let local_end := astimezone (end_time s) name in
        let reasonable :=
          (reasonable_start <=? hour local_start)
          && (hour local_start <=? reasonable_end) in
        let entry :=
          {| it_start_time := local_start; it_end_time := local_end;
             start_hour := hour local_start; end_hour := hour local_end;
             is_reasonable := reasonable |} in
        invitee_loop reasonable_start reasonable_end s rest
          (<[name := entry]> times,
           if reasonable then reasonable_count + 1 else reasonable_count)
      else invitee_loop reasonable_start reasonable_end s rest acc
  end.

(** The key of the final sort: [x.get('fairness_score', 0)]. *)
Definition fairness_key (x : out_slot) : Qc :=
  match fairness_score x with Some q => q | None => 0%Qc end.

(** The body of the loop over the slots: the slot with its
    [invitee_times] and its [fairness_score]. The quotient is a float in
    the source; the counts are small integers, for which float division
    keeps the order and the equality of the exact quotients. *)
Definition with_invitee_times (reasonable_start reasonable_end : Z)
    (invitee_timezones : list string) (x : out_slot) : out_slot :=
  let '(times, reasonable_count) :=
    invitee_loop reasonable_start reasonable_end (base x)
      invitee_timezones (∅, 0) in
  let score :=
    match invitee_timezones with
    | [] => 1%Qc
    | _ => (Qc_of_Z reasonable_count
            / Qc_of_Z (Z.of_nat (length invitee_timezones)))%Qc
    end in
  {| base := base x; invitee_times := Some times;
     fairness_score := Some score; local_times := local_times x |}.

Definition calculate_multi_invitee_intersection (slots : list out_slot)
    (invitee_timezones : list string) (p : Profile) : list out_slot :=
  let reasonable_start := reasonable_hours_start p in
  let reasonable_end := reasonable_hours_end p in
  let enhanced_slots :=
    with_invitee_times reasonable_start reasonable_end invitee_timezones
    <$> slots in
  py_sorted (fun y x => bool_decide (fairness_key x < fairness_key y)%Qc)
    enhanced_slots.

Definition enhance_slots_with_dst_info (slots : list out_slot)
    (invitee_timezone : string) : list out_slot :=
  (fun x =>
     if zone_known invitee_timezone then
       let local_start := astimezone (start_time (base x)) invitee_timezone in
       let local_end := astimezone (end_time (base x)) invitee_timezone in
       let is_dst :=
         match zone_dst invitee_timezone (wall local_start) with
         | Some d => negb (d =? 0)
         | None => false
         end in
       {| base := base x; invitee_times := invitee_times x;
          fairness_score := fairness_score x;
          local_times := Some (local_start, local_end, is_dst) |}
     else x)
  <$> slots.

(** ** Query orchestrator *)

(** [a or b] on an optional integer: [b] when [a] is [None] or [0]. *)
Definition or_default (a : option Z) (b : Z) : Z :=
  match a with
  | Some v => if v =? 0 then b else v
  | None => b
  end.

(** [BufferTime.objects.get_or_create(organizer=organizer)]. *)
Definition get_or_create_buffer (db : Database) (organizer : User) : BufferTime :=
  match filter (fun b => bt_organizer b = user_id organizer) (buffer_times db) with
  | b :: _ => b
  | [] =>
      let '(before, after, gap, interval) := buffer_field_defaults db in
      {| bt_organizer := user_id organizer; default_buffer_before := before;
         default_buffer_after := after; minimum_gap := gap;
         bt_slot_interval_minutes := interval |}
  end.

(** The dates the [while] loop visits. *)
Definition dates_from (start_date end_date : Z) : list Z :=
  (fun i => start_date + Z.of_nat i) <$> seq 0 (Z.to_nat (end_date - start_date + 1)).

(** The loop over the dates: the slots of each day, appended. *)
Fixpoint all_slots_loop (daily : Z -> outcome (list slot)) (dates : list Z)
    : outcome (list slot) :=
  match dates with
  | [] => Done []
  | current_date :: rest =>
      daily_slots ← daily current_date;
      more ← all_slots_loop daily rest;
      Done (daily_slots ++ more)
  end.

(** The two validation passes before the [try]: the warnings, the
    invitee zone in force and the zones kept. *)
Definition validate_invitee_timezone (invitee_timezone : string)
    : list string * string :=
  if negb (validate_timezone invitee_timezone)
  then (["Invalid invitee timezone: " +:+ invitee_timezone], "UTC")
  else ([], invitee_timezone).

Definition validate_invitee_timezones (invitee_timezones : option (list string))
    : list string * option (list string) :=
  match invitee_timezones with
  | Some ((_ :: _) as zones) =>
      ((fun name => "Invalid timezone in list: " +:+ name)
         <$> filter (fun name => validate_timezone name = false) zones,
       Some (filter (fun name => validate_timezone name = true) zones))
  | other => ([], other)
  end.

(** The list [all_slots] when the loop over the dates is left. *)
Definition collect_all_slots (db : Database) (organizer : User)
    (event_type : EventType) (start_date end_date : Z)
    (organizer_timezone invitee_timezone : string) (attendee_count : Z)
    : outcome (list slot) :=
  let buffer_settings := get_or_create_buffer db organizer in
  let buffer_before :=
    or_default (buffer_time_before event_type) (default_buffer_before buffer_settings) in
  let buffer_after :=
    or_default (buffer_time_after event_type) (default_buffer_after buffer_settings) in
  let minimum_gap := minimum_gap buffer_settings in
  let slot_interval :=
    or_default (slot_interval_minutes event_type)
      (bt_slot_interval_minutes buffer_settings) in
  all_slots_loop
    (fun current_date =>
       _calculate_daily_slots db organizer event_type current_date
         organizer_timezone invitee_timezone attendee_count buffer_before
         buffer_after minimum_gap slot_interval)
    (dates_from start_date end_date).

(** The organizer's zone and the warning that may come with it. *)
Definition resolve_organizer_timezone (p : Profile) : list string * string :=
  if negb (validate_timezone (timezone_name p))
  then (["Invalid organizer timezone, using UTC"], "UTC")
  else ([], timezone_name p).

(** The body of the [try]; the warnings are returned with the outcome so
    that the handler sees those added before an exception. *)
Definition calculate_body (db : Database) (organizer : User)
    (event_type : EventType) (start_date end_date : Z)
    (invitee_timezone : string) (attendee_count : Z)
    (invitee_timezones : option (list string)) (warnings : list string)
    : list string * outcome Response :=
  match profile organizer with
  | None => (warnings, Raised "User has no profile.")
  | Some p =>
      let '(w, organizer_timezone) := resolve_organizer_timezone p in
      let warnings := warnings ++ w in
      (warnings,
       all_slots ← collect_all_slots db organizer event_type start_date end_date
                     organizer_timezone invitee_timezone attendee_count;
       let all_slots := plain <$> all_slots in
       let all_slots :=
         match invitee_timezones with
         | Some zones =>
             if bool_decide (1 < length zones)%nat
             then calculate_multi_invitee_intersection all_slots zones p
             else all_slots
         | None => all_slots
         end in
       let enhanced_slots := enhance_slots_with_dst_info all_slots invitee_timezone in
       Done {| slots := enhanced_slots;
               warnings := warnings;
               performance_metrics :=
                 {| total_slots_calculated := Some (Z.of_nat (length enhanced_slots));
                    date_range_days := Some (end_date - start_date + 1) |} |})
  end.

(** [None]: the call does not come back. *)
Definition calculate_available_slots (db : Database) (organizer : User)
    (event_type : EventType) (start_date end_date : Z)
    (invitee_timezone : string) (attendee_count : Z)
    (invitee_timezones : option (list string)) : option Response :=
  let '(w1, invitee_timezone) := validate_invitee_timezone invitee_timezone in
  let '(w2, invitee_timezones) := validate_invitee_timezones invitee_timezones in
  let warnings := w1 ++ w2 in
  match calculate_body db organizer event_type start_date end_date
          invitee_timezone attendee_count invitee_timezones warnings with
  | (_, Done r) => Some r
  | (warnings, Raised msg) =>
      Some {| slots := [];
              warnings := warnings ++ ["Calculation error: " +:+ msg];
              performance_metrics :=
                {| total_slots_calculated := None; date_range_days := None |} |}
  | (_, Stuck) => None
  end.

End Engine.

(* ===================================================================== *)
(** * Definitions for the statements *)
(* ===================================================================== *)

(** ** Orders and bounds *)

(** Sorted by the key of a sort, and by [R0] among equal keys;
    [goes_before y x] says that [y] has to come strictly before [x]. *)
Definition ordered_then {A} (goes_before : A -> A -> bool) (R0 : relation A)
    (a b : A) : Prop :=
  goes_before b a = false /\ (goes_before a b = true \/ R0 a b).

(** An interval that ends before another starts. *)
Definition separated (a b : Z * Z) : Prop := a.2 < b.1.

(** A slot of [dur] minutes in [zone] that lies within [lo, hi]. *)
Definition slot_within (zone : tzinfo) (lo hi dur : Z) (s : slot) : Prop :=
  tz (start_time s) = zone /\ tz (end_time s) = zone
  /\ lo <= wall (start_time s)
  /\ wall (end_time s) = wall (start_time s) + dur * MINUTE
  /\ wall (end_time s) <= hi.

(** The reading of the start goes up strictly. *)
Definition starts_before (a b : slot) : Prop :=
  wall (start_time a) < wall (start_time b).

(** The slot is in [zone] and starts on the date [d]. *)
Definition starts_on (zone : tzinfo) (d : Z) (s : slot) : Prop :=
  tz (start_time s) = zone
  /\ d * DAY <= wall (start_time s) < (d + 1) * DAY.

(** ** The windows of a date *)

(** The windows of the overrides that are available and carry both
    times. *)
Definition available_windows (target_date : Z)
    (overrides : list DateOverrideRule) : list (Z * Z) :=
  omap (fun o =>
          match do_is_available o, do_start_time o, do_end_time o with
          | true, Some s, Some e => Some (compose_window target_date s e)
          | _, _, _ => None
          end) overrides.

Definition rule_windows (target_date : Z) (rules : list AvailabilityRule)
    : list (Z * Z) :=
  (fun r => compose_window target_date (ar_start_time r) (ar_end_time r))
  <$> rules.

(** The windows composed for a date before any merging: those of the
    available overrides when an override applies, those of the rules
    otherwise. *)
Definition day_windows (db : Database) (organizer : User)
    (event_type : EventType) (d : Z) : list (Z * Z) :=
  match applicable_overrides db organizer event_type d with
  | [] => rule_windows d (applicable_rules db organizer event_type d)
  | overrides => available_windows d overrides
  end.

(** The windows of the date lie within the date, and a date resolved
    through overrides has at most one window. *)
Definition day_in_order (db : Database) (organizer : User)
    (event_type : EventType) (d : Z) : Prop :=
  Forall (fun w => d * DAY <= w.1 /\ w.2 < (d + 1) * DAY)
    (day_windows db organizer event_type d)
  /\ (applicable_overrides db organizer event_type d <> [] ->
      (length (day_windows db organizer event_type d) <= 1)%nat).

(** The readings of a zone keep their order as instants. *)
Definition offset_keeps_order {zones : ZoneDb} (name : string) : Prop :=
  forall w1 w2, w1 < w2 ->
    w1 - zone_utcoffset name w1 < w2 - zone_utcoffset name w2.

(** ** A table or a field replaced *)

Definition with_availability_rules (db : Database)
    (rules : list AvailabilityRule) : Database :=
  {| availability_rules := rules;
     date_overrides := date_overrides db;
     recurring_blocks := recurring_blocks db;
     blocked_times := blocked_times db;
     bookings := bookings db;
     buffer_times := buffer_times db;
     buffer_field_defaults := buffer_field_defaults db |}.

Definition with_date_overrides (db : Database)
    (overrides : list DateOverrideRule) : Database :=
  {| availability_rules := availability_rules db;
     date_overrides := overrides;
     recurring_blocks := recurring_blocks db;
     blocked_times := blocked_times db;
     bookings := bookings db;
     buffer_times := buffer_times db;
     buffer_field_defaults := buffer_field_defaults db |}.

Definition with_bookings (db : Database) (bs : list Booking) : Database :=
  {| availability_rules := availability_rules db;
     date_overrides := date_overrides db;
     recurring_blocks := recurring_blocks db;
     blocked_times := blocked_times db;
     bookings := bs;
     buffer_times := buffer_times db;
     buffer_field_defaults := buffer_field_defaults db |}.

(** An event type with another capacity. *)
Definition with_max_attendees (event_type : EventType) (m : Z) : EventType :=
  {| et_id := et_id event_type; duration := duration event_type;
     buffer_time_before := buffer_time_before event_type;
     buffer_time_after := buffer_time_after event_type;
     slot_interval_minutes := slot_interval_minutes event_type;
     is_group_event := is_group_event event_type;
     max_attendees := m |}.

Section StatementDefinitions.
Context {zones : ZoneDb}.

(** Python's [<=] on the starts of two enriched slots. *)
Definition start_le (a b : out_slot) : Prop :=
  dt_leb (start_time (base a)) (start_time (base b)) = true.

(** Fairness descending, then start ascending. *)
Definition fairness_then_start (a b : out_slot) : Prop :=
  (fairness_key b < fairness_key a)%Qc
  \/ (fairness_key a = fairness_key b /\ start_le a b).

(** The bookings at which the loop of the conflict filter returns
    [True]: the protected zones overlap, and either the capacity is
    exceeded at a booking of the group event's own type, or the booking
    takes the other branch. *)
Definition decisive (db : Database) (organizer : User) (event_type : EventType)
    (s : slot) (attendee_count minimum_gap : Z)
    (protected_start protected_end : datetime) (booking : Booking) : Prop :=
  zones_overlap booking minimum_gap protected_start protected_end = true
  /\ ((is_group_event event_type = true
       /\ bk_event_type_id booking = et_id event_type
       /\ total_confirmed_attendees db organizer event_type s + attendee_count
          > max_attendees event_type)
      \/ ~ (is_group_event event_type = true
            /\ bk_event_type_id booking = et_id event_type)).

End StatementDefinitions.

(* ===================================================================== *)
(** * Write-side validation: backend/availability/serializers.py *)
(* ===================================================================== *)

Definition SECOND : Z := 1000000.

(** A [time] value: microseconds since midnight, below a day. *)
Definition valid_time (t : Z) : Prop := 0 <= t < DAY.

(** [t.strftime('%H:%M:%S')] and [t.strftime('%H:%M')]. *)
Definition strftime_hms (t : Z) : string :=
  pad2 (t / HOUR) +:+ ":" +:+ pad2 ((t / MINUTE) `mod` 60) +:+ ":"
  +:+ pad2 ((t / SECOND) `mod` 60).

Definition strftime_hm (t : Z) : string :=
  pad2 (t / HOUR) +:+ ":" +:+ pad2 ((t / MINUTE) `mod` 60).

(** What [validate] comes back with: the attributes, or a
    [ValidationError] with its message. *)
Inductive validation (A : Type) :=
  | Valid (a : A)
  | Invalid (msg : string).
Arguments Valid {A} a.
Arguments Invalid {A} msg.

(** The keys of [attrs] that the validators of the rules and of the
    recurring blocks read; [None] is an absent key. *)
Record WindowAttrs := {
  wa_day_of_week : option Z;
  wa_start_time : option Z;
  wa_end_time : option Z;
  wa_start_date : option Z;
  wa_end_date : option Z
}.

Record OverrideAttrs := {
  oa_is_available : option bool;
  oa_start_time : option Z;
  oa_end_time : option Z
}.

Record BlockedAttrs := {
  ba_start_datetime : option datetime;
  ba_end_datetime : option datetime;
  ba_source : option string
}.

Record RequestAttrs := {
  ra_start_date : Z;
  ra_end_date : Z;
  ra_invitee_timezone : string;
  ra_invitee_timezones : option (list string)
}.

(** The test of the two overlap loops: the canonical check on the
    [%H:%M:%S] renderings, adjacency counting as overlap. *)
Definition windows_touch (start_time end_time other_start other_end : Z) : bool :=
  are_time_intervals_overlapping (strftime_hms start_time) (strftime_hms end_time)
    (strftime_hms other_start) (strftime_hms other_end) true.

Section Serializers.
Context {zones : ZoneDb}.

(** [get_day_of_week_display()], generated from the choices of the model,
    which are not part of the sources. *)
Variable day_of_week_display : Z -> string.

(** The loop over the existing rules; each row comes with its [id]. *)
Fixpoint rule_overlap_loop (start_time end_time : Z)
    (existing : list (Z * AvailabilityRule)) : option string :=
  match existing with
  | [] => None
  | (_, existing_rule) :: rest =>
      if windows_touch start_time end_time (ar_start_time existing_rule)
           (ar_end_time existing_rule)
      then Some ("This time range overlaps with existing availability rule on "
                 +:+ day_of_week_display (ar_day_of_week existing_rule)
                 +:+ " (" +:+ strftime_hm (ar_start_time existing_rule)
                 +:+ " - " +:+ strftime_hm (ar_end_time existing_rule) +:+ ")")
      else rule_overlap_loop start_time end_time rest
  end.

(** [AvailabilityRuleSerializer.validate]; [rows] is the table with the
    ids, [instance] the id of the row under update. *)
Definition AvailabilityRuleSerializer_validate
    (rows : list (Z * AvailabilityRule)) (organizer : User)
    (instance : option Z) (attrs : WindowAttrs) : validation WindowAttrs :=
  let start_time := wa_start_time attrs in
  let end_time := wa_end_time attrs in
  let same :=
    match start_time, end_time with
    | Some s, Some e => bool_decide (s = e)
    | _, _ => false
    end in
  if same then Invalid "Start time and end time cannot be the same"
  else
    match wa_day_of_week attrs, start_time, end_time with
    | Some day_of_week, Some s, Some e =>
        let existing_rules :=
          filter (fun r => ar_organizer r.2 = user_id organizer
                           /\ ar_day_of_week r.2 = day_of_week
                           /\ ar_is_active r.2 = true) rows in
        let existing_rules :=
          match instance with
          | Some id => filter (fun r => r.1 <> id) existing_rules
          | None => existing_rules
          end in
        match rule_overlap_loop s e existing_rules with
        | Some msg => Invalid msg
        | None => Valid attrs
        end
    | _, _, _ => Valid attrs
    end.

(** The loop over the existing recurring blocks; each row comes with its
    [id] and its [name]. *)
Fixpoint block_overlap_loop (start_time end_time : Z)
    (existing : list (Z * string * RecurringBlockedTime)) : option string :=
  match existing with
  | [] => None
  | (_, name, existing_block) :: rest =>
      if windows_touch start_time end_time (rb_start_time existing_block)
           (rb_end_time existing_block)
      then Some ("This time range overlaps with existing recurring block '"
                 +:+ name +:+ "' ("
                 +:+ strftime_hm (rb_start_time existing_block)
                 +:+ " - " +:+ strftime_hm (rb_end_time existing_block) +:+ ")")
      else block_overlap_loop start_time end_time rest
  end.

(** [RecurringBlockedTimeSerializer.validate]. *)
Definition RecurringBlockedTimeSerializer_validate
    (rows : list (Z * string * RecurringBlockedTime)) (organizer : User)
    (instance : option Z) (attrs : WindowAttrs) : validation WindowAttrs :=
  let start_time := wa_start_time attrs in
  let end_time := wa_end_time attrs in
  let same :=
    match start_time, end_time with
    | Some s, Some e => bool_decide (s = e)
    | _, _ => false
    end in
  let dates_reversed :=
    match wa_start_date attrs, wa_end_date attrs with
    | Some sd, Some ed => ed <? sd
    | _, _ => false
    end in
  if same then Invalid "Start time and end time cannot be the same"
  else if dates_reversed
  then Invalid "Start date must be before or equal to end date"
  else
    match wa_day_of_week attrs, start_time, end_time with
    | Some day_of_week, Some s, Some e =>
        let existing_blocks :=
          filter (fun r => rb_organizer r.2 = user_id organizer
                           /\ rb_day_of_week r.2 = day_of_week
                           /\ rb_is_active r.2 = true) rows in
        let existing_blocks :=
          match instance with
          | Some id => filter (fun r => r.1.1 <> id) existing_blocks
          | None => existing_blocks
          end in
        match block_overlap_loop s e existing_blocks with
        | Some msg => Invalid msg
        | None => Valid attrs
        end
    | _, _, _ => Valid attrs
    end.

(** [DateOverrideRuleSerializer.validate]. *)
Definition DateOverrideRuleSerializer_validate (attrs : OverrideAttrs)
    : validation OverrideAttrs :=
  match oa_is_available attrs with
  | Some true =>
      match oa_start_time attrs, oa_end_time attrs with
      | Some s, Some e =>
          if bool_decide (s = e)
          then Invalid "Start time and end time cannot be the same"
          else Valid attrs
      | _, _ =>
          Invalid "start_time and end_time are required when is_available is True"
      end
  | _ => Valid attrs
  end.

(** [BlockedTimeSerializer.validate]; [instance] is the [source] of the
    row under update. *)
Definition BlockedTimeSerializer_validate (instance : option string)
    (attrs : BlockedAttrs) : validation BlockedAttrs :=
  let not_after :=
    match ba_start_datetime attrs, ba_end_datetime attrs with
    | Some s, Some e => dt_leb e s
    | _, _ => false
    end in
  if not_after then Invalid "End datetime must be after start datetime"
  else
    let source := default "manual" (ba_source attrs) in
    match instance with
    | None =>
        if bool_decide (source <> "manual")
        then Invalid "Cannot manually create synced blocked times"
        else Valid attrs
    | Some instance_source =>
        if bool_decide (instance_source <> "manual")
           && bool_decide (source <> instance_source)
        then Invalid "Cannot change source of synced blocked times"
        else Valid attrs
    end.

(** The three validators of [CalculatedSlotsRequestSerializer]. *)
Definition CalculatedSlotsRequestSerializer_validate_invitee_timezone
    (value : string) : validation string :=
  if negb (validate_timezone value)
  then Invalid ("Invalid timezone: " +:+ value)
  else Valid value.

Fixpoint invalid_zone_loop (value : list string) : option string :=
  match value with
  | [] => None
  | name :: rest =>
      if negb (validate_timezone name)
      then Some ("Invalid timezone in list: " +:+ name)
      else invalid_zone_loop rest
  end.

Definition CalculatedSlotsRequestSerializer_validate_invitee_timezones
    (value : list string) : validation (list string) :=
  match invalid_zone_loop value with
  | Some msg => Invalid msg
  | None => Valid value
  end.

Definition CalculatedSlotsRequestSerializer_validate (attrs : RequestAttrs)
    : validation RequestAttrs :=
  if ra_end_date attrs <? ra_start_date attrs
  then Invalid "start_date must be before or equal to end_date"
  else if 90 <? ra_end_date attrs - ra_start_date attrs
  then Invalid "Date range cannot exceed 90 days"
  else Valid attrs.

(** The request passes the validators the framework runs: the field
    validators, then [validate]. *)
Definition request_accepted (attrs : RequestAttrs) : Prop :=
  CalculatedSlotsRequestSerializer_validate_invitee_timezone
    (ra_invitee_timezone attrs)
  = Valid (ra_invitee_timezone attrs)
  /\ match ra_invitee_timezones attrs with
     | Some zs =>
         CalculatedSlotsRequestSerializer_validate_invitee_timezones zs
         = Valid zs
     | None => True
     end
  /\ CalculatedSlotsRequestSerializer_validate attrs = Valid attrs.

End Serializers.

(* ===================================================================== *)
(** * Cache key planners *)
(* ===================================================================== *)

(** [if event_type_id]: an identifier that is given and not empty. *)
Definition given (event_type_id : option string) : option string :=
  match event_type_id with
  | Some e => if truthy e then Some e else None
  | None => None
  end.

(** [generate_cache_key_variations]; the two settings are [None] when
    the attribute is not set. *)
Definition generate_cache_key_variations
    (AVAILABILITY_COMMON_TIMEZONES : option (list string))
    (AVAILABILITY_COMMON_ATTENDEE_COUNTS : option (list Z))
    (base_key : string) : list string :=
  let common_timezones := default ["UTC"] AVAILABILITY_COMMON_TIMEZONES in
  let common_attendee_counts := default [1] AVAILABILITY_COMMON_ATTENDEE_COUNTS in
  base_key
  :: (common_timezones ≫= fun tz =>
        (fun count => base_key +:+ ":" +:+ tz +:+ ":" +:+ str_of_int count)
        <$> common_attendee_counts).

Section CachePlanners.

(** [date.fromordinal]: the dates of the planners are ordinals, as in
    the engine, and are rendered through their calendar fields. *)
Variable fromordinal : Z -> pydate.

(** [d.isoformat()], and [str(d)] in an f-string. *)
Definition date_str (d : Z) : string := isoformat (fromordinal d).

(** A [date_range] that is given is a pair, which is truthy. *)
Definition generate_cache_key_patterns_for_invalidation
    (organizer_id : string) (event_type_id : option string)
    (date_range : option (Z * Z)) : list string :=
  match given event_type_id, date_range with
  | Some event_type_id, Some (start_date, end_date) =>
      (fun current_date =>
         "availability:" +:+ organizer_id +:+ ":" +:+ event_type_id +:+ ":"
         +:+ date_str current_date +:+ "*")
      <$> dates_from start_date end_date
  | Some event_type_id, None =>
      ["availability:" +:+ organizer_id +:+ ":" +:+ event_type_id +:+ ":*"]
  | None, Some (start_date, end_date) =>
      (fun current_date =>
         "availability:" +:+ organizer_id +:+ ":*:" +:+ date_str current_date
         +:+ "*")
      <$> dates_from start_date end_date
  | None, None => ["availability:" +:+ organizer_id +:+ ":*"]
  end.

(** The key of the week that starts on [week_start]. *)
Definition week_key (organizer_id : string) (week_start : Z) : string :=
  let week_end := week_start + 6 in
  "availability:" +:+ organizer_id +:+ ":*:" +:+ date_str week_start +:+ ":"
  +:+ date_str week_end.

(** The [while] loop of [get_weekly_cache_keys_for_date_range], run for
    at most [fuel] rounds. *)
Fixpoint weekly_loop (fuel : nat) (organizer_id : string)
    (current_date end_date : Z) : list string :=
  match fuel with
  | O => []
  | S fuel' =>
      if current_date <=? end_date then
        let week_start := current_date - weekday current_date in
        let week_end := week_start + 6 in
        week_key organizer_id week_start
        :: weekly_loop fuel' organizer_id (week_end + 1) end_date
      else []
  end.

(** Every round moves [current_date] on by a day at least, so the days of
    the range bound the rounds. [list(set(cache_keys))] comes in no
    particular order: the result is the set. *)
Definition get_weekly_cache_keys_for_date_range (organizer_id : string)
    (start_date end_date : Z) : gset string :=
  list_to_set
    (weekly_loop (Z.to_nat (end_date - start_date + 1)) organizer_id
       start_date end_date).

End CachePlanners.

(** ** What is pending for an organizer *)

(** The changes of the record that a read at [clock] finds. *)
Definition stored_changes (cache : gmap string cache_entry) (clock : Z)
    (organizer_id : string) : list change_data :=
  match stored_record cache clock organizer_id with
  | Some d => dd_changes d
  | None => []
  end.

(** The calls that mark an organizer since the last one that cleared
    them, [n] being the count before the calls. *)
Fixpoint pending_marks (organizer_id : string) (n : nat) (cs : list dirty_call)
    : nat :=
  match cs with
  | [] => n
  | MarkDirty o _ _ _ _ :: rest =>
      pending_marks organizer_id
        (if decide (o = organizer_id) then S n else n) rest
  | ClearDirty o :: rest =>
      pending_marks organizer_id
        (if decide (o = organizer_id) then O else n) rest
  end.

(* ===================================================================== *)
(** * Definitions for the further statements *)
(* ===================================================================== *)

(** Two windows, in minutes of the day and with an end before its start
    moved to the next day, that neither overlap nor touch. *)
Definition minutes_apart (s e s' e' : Z) : Prop :=
  normalize_end (s / MINUTE) (e / MINUTE) < s' / MINUTE
  \/ normalize_end (s' / MINUTE) (e' / MINUTE) < s / MINUTE.

(** A time on a whole minute. *)
Definition whole_minute (t : Z) : Prop := t `mod` MINUTE = 0.

(** Two windows with a minute at least between them. *)
Definition windows_apart (w w' : Z * Z) : Prop :=
  w.2 + MINUTE <= w'.1 \/ w'.2 + MINUTE <= w.1.

(** The bookings as the database hands them out: in UTC. *)
Definition stored_in_utc (db : Database) : Prop :=
  forall b, b ∈ bookings db ->
    tz (bk_start_time b) = DbUtc /\ tz (bk_end_time b) = DbUtc.

(** The instant [t] lies in one of the intervals, ends included. *)
Definition covered (t : Z) (intervals : list (Z * Z)) : Prop :=
  exists iv, iv ∈ intervals /\ iv.1 <= t <= iv.2.

(** All the calls and reads of a run fall into one span shorter than the
    timeout, so that no entry expires. *)
Definition within_timeout (start : Z) (clock : Z) : Prop :=
  start <= clock < start + 3600.

(** What holds for an organizer with [n] marks pending, at the instants
    of the span that starts at [start]: so many changes are stored, and
    the organizer is listed, and has a record, exactly when there are
    any. *)
Definition pending_invariant (cache : gmap string cache_entry) (start : Z)
    (organizer_id : string) (n : nat) : Prop :=
  cache_well_typed cache
  /\ (forall k e, cache !! k = Some e -> start + 3600 <= ce_expires e)
  /\ forall clock, within_timeout start clock ->
       length (stored_changes cache clock organizer_id) = n
       /\ (is_Some (stored_record cache clock organizer_id) <-> (0 < n)%nat)
       /\ exists l, get_dirty_organizers cache clock = Some l
                    /\ (organizer_id ∈ l <-> (0 < n)%nat).

(* ===================================================================== *)
(** * Data of the examples *)
(* ===================================================================== *)

(** [str(e)] of [ZoneInfoNotFoundError] for a key of plain letters. *)
Definition not_found (key : string) : string :=
  "'No time zone found with key " +:+ key +:+ "'".

(** A database of zones that knows UTC alone. *)
Definition utc_only : ZoneDb :=
  {| zone_known := fun name => String.eqb name "UTC";
     zone_utcoffset := fun _ _ => 0;
     zone_fromutc := fun _ w => w;
     zone_dst := fun _ _ => Some 0;
     zone_error := not_found |}.

(** Three zones with fixed offsets. *)
Definition fixed_offset (name : string) : option Z :=
  if String.eqb name "UTC" then Some 0
  else if String.eqb name "America/New_York" then Some (-5 * HOUR)
  else if String.eqb name "Asia/Tokyo" then Some (9 * HOUR)
  else None.

Definition fixed_zones : ZoneDb :=
  {| zone_known := fun name => bool_decide (is_Some (fixed_offset name));
     zone_utcoffset := fun name _ => default 0 (fixed_offset name);
     zone_fromutc := fun name w => w + default 0 (fixed_offset name);
     zone_dst := fun _ _ => Some 0;
     zone_error := not_found |}.

(** The time [h:m] and its reading on the day of ordinal [d]. *)
Definition time_of (h m : Z) : Z := h * HOUR + m * MINUTE.

Definition at_time (d h m : Z) : Z := d * DAY + h * HOUR + m * MINUTE.

Definition utc_time (d h m : Z) : datetime :=
  {| wall := at_time d h m; tz := DbUtc |}.

(** Monday 2025-01-06. *)
Definition monday : Z := 739257.

Definition organizer1 : User :=
  {| user_id := 1; email := "organizer@example.org";
     profile := Some {| timezone_name := "UTC"; reasonable_hours_start := 9;
                        reasonable_hours_end := 18 |} |}.

Definition organizer_ny : User :=
  {| user_id := 1; email := "organizer@example.org";
     profile := Some {| timezone_name := "America/New_York";
                        reasonable_hours_start := 9;
                        reasonable_hours_end := 18 |} |}.

Definition meeting : EventType :=
  {| et_id := 7; duration := 30; buffer_time_before := None;
     buffer_time_after := None; slot_interval_minutes := None;
     is_group_event := false; max_attendees := 1 |}.

Definition group_class (capacity : Z) : EventType :=
  {| et_id := 1; duration := 30; buffer_time_before := None;
     buffer_time_after := None; slot_interval_minutes := None;
     is_group_event := true; max_attendees := capacity |}.

Definition confirmed_booking (event_type_id : Z) (h1 m1 h2 m2 count : Z)
    : Booking :=
  {| bk_organizer := 1; bk_event_type_id := event_type_id;
     bk_start_time := utc_time monday h1 m1;
     bk_end_time := utc_time monday h2 m2;
     bk_status := "confirmed"; bk_attendee_count := count |}.

(** No rows; an organizer without a buffer row gets no buffers, no gap
    and a stride of 30 minutes. *)
Definition empty_db : Database :=
  {| availability_rules := []; date_overrides := []; recurring_blocks := [];
     blocked_times := []; bookings := []; buffer_times := [];
     buffer_field_defaults := (0, 0, 0, 30) |}.

Definition monday_rule (h1 m1 h2 m2 : Z) : AvailabilityRule :=
  {| ar_organizer := 1; ar_day_of_week := 0; ar_start_time := time_of h1 m1;
     ar_end_time := time_of h2 m2; ar_event_types := [];
     ar_is_active := true |}.

Definition monday_override (available : bool) (times : option (Z * Z * Z * Z))
    : DateOverrideRule :=
  {| do_organizer := 1; do_date := monday; do_is_available := available;
     do_start_time := (fun '(h1, m1, _, _) => time_of h1 m1) <$> times;
     do_end_time := (fun '(_, _, h2, m2) => time_of h2 m2) <$> times;
     do_event_types := []; do_is_active := true |}.

(** The slot of [minutes] minutes from [h:m] on that Monday, in the zone
    UTC of the organizer. *)
Definition monday_slot (h m minutes : Z) : slot :=
  make_slot (Zone "UTC") (at_time monday h m) minutes.

(** The readings of the starts of a response, and with them the
    fairness scores. *)
Definition starts_of (r : option Response) : option (list Z) :=
  (fun r => (fun x => wall (start_time (base x))) <$> slots r) <$> r.

Definition starts_and_scores (r : option Response)
    : option (list (Z * option Q)) :=
  (fun r => (fun x => (wall (start_time (base x)), this <$> fairness_score x))
            <$> slots r)
  <$> r.

(** The calendar date of an ordinal, as [datetime] computes it. *)
Definition ord2ymd (n : Z) : pydate :=
  let n := n - 1 in
  let n400 := n / 146097 in let n := n mod 146097 in
  let n100 := n / 36524 in let n := n mod 36524 in
  let n4 := n / 1461 in let n := n mod 1461 in
  let n1 := n / 365 in let n := n mod 365 in
  let y := n400 * 400 + 1 + n100 * 100 + n4 * 4 + n1 in
  if (n1 =? 4) || (n100 =? 4) then {| year := y - 1; month := 12; day := 31 |}
  else
    let leapyear := (n1 =? 3) && (negb (n4 =? 24) || (n100 =? 3)) in
    let before (m : Z) : Z :=
      nth (Z.to_nat m) [0; 0; 31; 59; 90; 120; 151; 181; 212; 243; 273; 304; 334] 0
      + (if (2 <? m) && leapyear then 1 else 0) in
    let m := (n + 50) / 32 in
    let m := if n <? before m then m - 1 else m in
    {| year := y; month := m; day := n - before m + 1 |}.

(* ===================================================================== *)
(** * Properties of the time-of-day primitives *)
(* ===================================================================== *)

Example split_colon_hms : split_colon "09:30:00" = ["09"; "30"; "00"].
Proof. reflexivity. Qed.
Example split_colon_none : split_colon "abc" = ["abc"].
Proof. reflexivity. Qed.
Example split_colon_trailing : split_colon "9:" = ["9"; ""].
Proof. reflexivity. Qed.
Example int_of_str_plain : int_of_str "09" = Some 9.
Proof. reflexivity. Qed.
Example int_of_str_spaces : int_of_str " -1_0 " = Some (-10).
Proof. reflexivity. Qed.
Example int_of_str_bad : int_of_str "1__0" = None /\ int_of_str "" = None
  /\ int_of_str "+ 1" = None /\ int_of_str "ab" = None.
Proof. repeat split; reflexivity. Qed.
Example int_of_str_separator :
  int_of_str (String (ascii_of_nat 28) "1") = None
  /\ int_of_str (String (ascii_of_nat 160) "1") = Some 1.
Proof. split; reflexivity. Qed.
Example time_to_minutes_ok : _time_to_minutes "09:30:00" = 570.
Proof. reflexivity. Qed.
Example time_to_minutes_bad : _time_to_minutes "abc" = 0.
Proof. reflexivity. Qed.
Example time_to_minutes_no_range_check : _time_to_minutes "25:99" = 1599.
Proof. reflexivity. Qed.
Example midnight_span_overlap :
  are_time_intervals_overlapping "22:00:00" "02:00:00" "23:30:00" "00:30:00" false
  = true.
Proof. reflexivity. Qed.

Lemma truthy_false (s : string) : truthy s = false <-> s = "".
Proof. destruct s; simpl; split; congruence. Qed.

Lemma truthy_true (s : string) : truthy s = true <-> s <> "".
Proof. destruct s; simpl; split; congruence. Qed.

(** An endpoint whose fields do not parse counts as minute 0. *)
Lemma time_to_minutes_unparsed (s : string) :
  hm_fields s = None -> _time_to_minutes s = 0.
Proof. unfold _time_to_minutes. intros ->. reflexivity. Qed.

Lemma time_to_minutes_read_as (s : string) :
  _time_to_minutes (read_as s) = _time_to_minutes s.
Proof.
  unfold read_as. destruct (hm_fields s) eqn:E; [reflexivity|].
  rewrite (time_to_minutes_unparsed s E). reflexivity.
Qed.

Lemma read_as_nonempty (s : string) : truthy s = true -> truthy (read_as s) = true.
Proof. unfold read_as. destruct (hm_fields s); [tauto|reflexivity]. Qed.

(** The function on non-empty endpoints, in terms of the minute counts. *)
Lemma overlapping_unfold (s1 e1 s2 e2 : string) (adj : bool) :
  truthy s1 && truthy e1 && truthy s2 && truthy e2 = true ->
  are_time_intervals_overlapping s1 e1 s2 e2 adj
  = overlap_minutes adj
      (_time_to_minutes s1)
      (normalize_end (_time_to_minutes s1) (_time_to_minutes e1))
      (_time_to_minutes s2)
      (normalize_end (_time_to_minutes s2) (_time_to_minutes e2)).
Proof.
  intros Hne. unfold are_time_intervals_overlapping, normalize_end.
  rewrite Hne. simpl negb. cbv zeta.
  change (24 * 60) with 1440. reflexivity.
Qed.

Lemma is_digit_bounds (c : ascii) :
  is_digit c = true -> (48 <= nat_of_ascii c <= 57)%nat.
Proof.
  unfold is_digit. intros Hd. apply andb_prop in Hd as [H1 H2].
  apply Nat.leb_le in H1, H2. lia.
Qed.

Lemma digit_not_space (c : ascii) : is_digit c = true -> is_space c = false.
Proof.
  intros Hd. apply is_digit_bounds in Hd. unfold is_space.
  repeat match goal with
         | |- context [(?a <=? ?b)%nat] => destruct (Nat.leb_spec a b)
         | |- context [(?a =? ?b)%nat] => destruct (Nat.eqb_spec a b)
         end; simpl; try reflexivity; lia.
Qed.

Lemma digit_not_char (c d : ascii) :
  is_digit c = true -> (nat_of_ascii d < 48 \/ 57 < nat_of_ascii d)%nat ->
  Ascii.eqb c d = false.
Proof.
  intros Hd Hout. apply is_digit_bounds in Hd.
  apply Ascii.eqb_neq. intros ->. lia.
Qed.

(** A field of two digits is read as the number it writes. *)
Lemma int_of_str_two_digits (a b : ascii) :
  is_digit a = true -> is_digit b = true ->
  int_of_str (String a (String b "")) = Some (digit_val a * 10 + digit_val b).
Proof.
  intros Ha Hb. unfold int_of_str.
  cbn [lstrip]. rewrite (digit_not_space a Ha).
  cbn [rstrip]. rewrite (digit_not_space b Hb).
  rewrite (digit_not_char a "-" Ha), (digit_not_char a "+" Ha)
    by (left; vm_compute; lia).
  unfold parse_literal. cbn [count_digits parse_digits]. rewrite Ha, Hb.
  reflexivity.
Qed.

Lemma two_digits_parse (s : string) (bound : Z) :
  two_digits s bound = true -> exists n, int_of_str s = Some n.
Proof.
  destruct s as [|a [|b [|c s]]]; simpl; try discriminate.
  intros Hd. apply andb_prop in Hd as [Hd _]. apply andb_prop in Hd as [Ha Hb].
  rewrite (int_of_str_two_digits a b Ha Hb). eauto.
Qed.

(** A well-formed time is read as itself. *)
Lemma well_formed_read_as (s : string) :
  well_formed_hms s = true -> read_as s = s.
Proof.
  unfold well_formed_hms, read_as, hm_fields.
  destruct (split_colon s) as [|h [|m [|sec [|x rest]]]]; try discriminate.
  intros Hwf. apply andb_prop in Hwf as [Hwf _].
  apply andb_prop in Hwf as [Hh Hm].
  destruct (two_digits_parse h 24 Hh) as [nh ->].
  destruct (two_digits_parse m 60 Hm) as [nm ->]. reflexivity.
Qed.

(** C3, as the claim states it, fails: a malformed first endpoint, three
    well-formed ones, and the check answers true. *)
Lemma malformed_endpoint_overlaps :
  well_formed_hms "abc" = false
  /\ are_time_intervals_overlapping "abc" "10:00:00" "09:00:00" "11:00:00" false
     = true.
Proof. split; reflexivity. Qed.

(** C3 (amended): the check answers false when an endpoint is the empty
    string; a non-empty endpoint whose hour or minute field is missing or
    is not an integer literal is read as minute 0, that is, the check
    answers what it answers with 00:00 in its place; a well-formed
    HH:MM:SS endpoint is read as it stands. *)
Theorem overlapping_malformed_endpoints (s1 e1 s2 e2 : string) (adj : bool) :
  (s1 = "" \/ e1 = "" \/ s2 = "" \/ e2 = "" ->
   are_time_intervals_overlapping s1 e1 s2 e2 adj = false)
  /\ (s1 <> "" /\ e1 <> "" /\ s2 <> "" /\ e2 <> "" ->
      are_time_intervals_overlapping s1 e1 s2 e2 adj
      = are_time_intervals_overlapping (read_as s1) (read_as e1) (read_as s2)
          (read_as e2) adj)
  /\ (forall s, hm_fields s = None ->
      read_as s = "00:00" /\ _time_to_minutes s = 0)
  /\ (forall s, well_formed_hms s = true -> read_as s = s).
Proof.
  split; [|split; [|split]]; [| | |exact well_formed_read_as].
  - intros Hempty. unfold are_time_intervals_overlapping.
    destruct Hempty as [-> | [-> | [-> | ->]]]; simpl;
      rewrite ?andb_false_r; reflexivity.
  - intros (H1 & H2 & H3 & H4).
    apply truthy_true in H1, H2, H3, H4.
    rewrite !overlapping_unfold.
    + rewrite !time_to_minutes_read_as. reflexivity.
    + rewrite !read_as_nonempty by assumption. reflexivity.
    + rewrite H1, H2, H3, H4. reflexivity.
  - intros s Hs. split.
    + unfold read_as. rewrite Hs. reflexivity.
    + apply time_to_minutes_unparsed, Hs.
Qed.

(** C6, as the claim states it, fails: 09:00 to 09:00 against 10:00 to
    11:00. The function leaves the first interval empty and answers
    false; with 1440 minutes added to an end equal to its start the
    comparison answers true. *)
Lemma equal_endpoints_not_normalized :
  _time_to_minutes "09:00:00" = 540
  /\ _time_to_minutes "10:00:00" = 600
  /\ _time_to_minutes "11:00:00" = 660
  /\ are_time_intervals_overlapping "09:00:00" "09:00:00" "10:00:00" "11:00:00" false
     = false
  /\ overlap_minutes false 540 (normalize_end_spec 540 540)
       600 (normalize_end_spec 600 660) = true.
Proof. repeat split; reflexivity. Qed.

(** C6 (amended): on non-empty endpoints the check compares the minute
    counts after adding 1440 to an end that is strictly before its start;
    an end equal to its start is left where it is; and the answer is that
    of the normalisation of the specification whenever no interval has
    equal endpoints. *)
Theorem overlapping_normalizes_strictly (s1 e1 s2 e2 : string) (adj : bool) :
  s1 <> "" -> e1 <> "" -> s2 <> "" -> e2 <> "" ->
  let m := _time_to_minutes in
  are_time_intervals_overlapping s1 e1 s2 e2 adj
  = overlap_minutes adj (m s1) (normalize_end (m s1) (m e1))
      (m s2) (normalize_end (m s2) (m e2))
  /\ (m e1 < m s1 -> normalize_end (m s1) (m e1) = m e1 + 1440)
  /\ (m e1 = m s1 -> normalize_end (m s1) (m e1) = m e1)
  /\ (m e1 <> m s1 -> m e2 <> m s2 ->
      are_time_intervals_overlapping s1 e1 s2 e2 adj
      = overlap_minutes adj (m s1) (normalize_end_spec (m s1) (m e1))
          (m s2) (normalize_end_spec (m s2) (m e2))).
Proof.
  intros H1 H2 H3 H4 m.
  apply truthy_true in H1, H2, H3, H4.
  assert (Hne : truthy s1 && truthy e1 && truthy s2 && truthy e2 = true)
    by (rewrite H1, H2, H3, H4; reflexivity).
  rewrite (overlapping_unfold _ _ _ _ adj Hne). fold m.
  unfold normalize_end, normalize_end_spec.
  repeat split.
  - intros Hlt. destruct (Z.ltb_spec (m e1) (m s1)); [reflexivity|lia].
  - intros Heq. destruct (Z.ltb_spec (m e1) (m s1)); [lia|reflexivity].
  - intros Hd1 Hd2.
    destruct (Z.ltb_spec (m e1) (m s1)), (Z.leb_spec (m e1) (m s1)),
      (Z.ltb_spec (m e2) (m s2)), (Z.leb_spec (m e2) (m s2));
      try lia; reflexivity.
Qed.

Lemma overlapping_normalizes_strictly_witness :
  are_time_intervals_overlapping "22:00:00" "02:00:00" "23:30:00" "00:30:00" true
  = overlap_minutes true 1320 (normalize_end 1320 120) 1410 (normalize_end 1410 30).
Proof.
  refine (proj1 (overlapping_normalizes_strictly
                   "22:00:00" "02:00:00" "23:30:00" "00:30:00" true _ _ _ _));
    discriminate.
Defined.

(* ===================================================================== *)
(** * Properties of the cache keys *)
(* ===================================================================== *)

Example cache_key_example :
  get_cache_key_for_availability "org-1" "et-7"
    {| year := 2025; month := 1; day := 6 |}
    {| year := 2025; month := 1; day := 12 |} "America/New_York" 2
  = "availability:org-1:et-7:2025-01-06:2025-01-12:America/New_York:2".
Proof. reflexivity. Qed.

Example str_of_int_examples :
  str_of_int 0 = "0" /\ str_of_int 42 = "42" /\ str_of_int (-7) = "-7".
Proof. repeat split; reflexivity. Qed.

Lemma append_nil (b : string) : "" +:+ b = b.
Proof. reflexivity. Qed.

Lemma append_cons (c : ascii) (a b : string) :
  String c a +:+ b = String c (a +:+ b).
Proof. reflexivity. Qed.

Lemma colon_free_cons (c : ascii) (r : string) :
  colon_free (String c r) = negb (Ascii.eqb c ":") && colon_free r.
Proof. reflexivity. Qed.

Lemma colon_free_app (a b : string) :
  colon_free (a +:+ b) = colon_free a && colon_free b.
Proof.
  induction a as [|c a IH]; [reflexivity|].
  rewrite append_cons. simpl. rewrite IH, andb_assoc. reflexivity.
Qed.

(** A field without a colon is cut off at the first colon. *)
Lemma cut_at_first_colon (a a' r r' : string) :
  colon_free a = true -> colon_free a' = true ->
  a +:+ ":" +:+ r = a' +:+ ":" +:+ r' -> a = a' /\ r = r'.
Proof.
  revert a'. induction a as [|c a IH]; intros [|c' a'] Ha Ha' Heq;
    rewrite ?append_cons, ?append_nil in Heq; simpl in Ha, Ha'.
  - injection Heq as ->. done.
  - injection Heq as <- _. discriminate.
  - injection Heq as -> _. discriminate.
  - injection Heq as -> Heq.
    apply andb_prop in Ha as [_ Ha], Ha' as [_ Ha'].
    destruct (IH a' Ha Ha' Heq) as [-> ->]. done.
Qed.

(** A last field without a colon is cut off at the last colon. *)
Lemma cut_at_last_colon (t t' c c' : string) :
  colon_free c = true -> colon_free c' = true ->
  t +:+ ":" +:+ c = t' +:+ ":" +:+ c' -> t = t' /\ c = c'.
Proof.
  intros Hc Hc'. revert t'.
  induction t as [|x t IH]; intros [|x' t'] Heq;
    rewrite ?append_cons, ?append_nil in Heq.
  - injection Heq as ->. done.
  - injection Heq as <- Heq. subst c.
    rewrite colon_free_app in Hc. simpl in Hc.
    rewrite andb_false_r in Hc. discriminate.
  - injection Heq as -> Heq. subst c'.
    rewrite colon_free_app in Hc'. simpl in Hc'.
    rewrite andb_false_r in Hc'. discriminate.
  - injection Heq as -> Heq. destruct (IH t' Heq) as [-> ->]. done.
Qed.

Lemma digit_char_inj (a b : Z) :
  0 <= a <= 9 -> 0 <= b <= 9 -> digit_char a = digit_char b -> a = b.
Proof.
  intros Ha Hb Heq. unfold digit_char in Heq.
  apply (f_equal nat_of_ascii) in Heq.
  rewrite !nat_ascii_embedding in Heq by lia. lia.
Qed.

Lemma digit_char_colon_free (a : Z) :
  0 <= a <= 9 -> Ascii.eqb (digit_char a) ":" = false.
Proof.
  intros Ha. apply Ascii.eqb_neq. intros Heq.
  apply (f_equal nat_of_ascii) in Heq. unfold digit_char in Heq.
  rewrite nat_ascii_embedding in Heq by lia.
  change (nat_of_ascii ":") with 58%nat in Heq. lia.
Qed.

Lemma digits4 (n : Z) :
  0 <= n <= 9999 ->
  0 <= n / 1000 <= 9 /\ 0 <= n / 100 mod 10 <= 9 /\ 0 <= n / 10 mod 10 <= 9
  /\ 0 <= n mod 10 <= 9
  /\ n = (n / 1000) * 1000 + (n / 100 mod 10) * 100 + (n / 10 mod 10) * 10
         + n mod 10.
Proof.
  intros Hn.
  assert (E2 : n / 100 = n / 10 / 10) by (rewrite Z.div_div by lia; reflexivity).
  assert (E3 : n / 1000 = n / 10 / 10 / 10)
    by (rewrite !Z.div_div by lia; reflexivity).
  rewrite E2, E3.
  pose proof (Z.div_mod n 10 ltac:(lia)).
  pose proof (Z.div_mod (n / 10) 10 ltac:(lia)).
  pose proof (Z.div_mod (n / 10 / 10) 10 ltac:(lia)).
  pose proof (Z.mod_pos_bound n 10 ltac:(lia)).
  pose proof (Z.mod_pos_bound (n / 10) 10 ltac:(lia)).
  pose proof (Z.mod_pos_bound (n / 10 / 10) 10 ltac:(lia)).
  lia.
Qed.

Lemma digits2 (n : Z) :
  0 <= n <= 99 ->
  0 <= n / 10 <= 9 /\ 0 <= n mod 10 <= 9 /\ n = (n / 10) * 10 + n mod 10.
Proof.
  intros Hn.
  pose proof (Z.div_mod n 10 ltac:(lia)).
  pose proof (Z.mod_pos_bound n 10 ltac:(lia)).
  lia.
Qed.

Lemma pad4_inj (n m : Z) :
  0 <= n <= 9999 -> 0 <= m <= 9999 -> pad4 n = pad4 m -> n = m.
Proof.
  intros Hn Hm Heq. unfold pad4 in Heq.
  destruct (digits4 n Hn) as (N3 & N2 & N1 & N0 & ->).
  destruct (digits4 m Hm) as (M3 & M2 & M1 & M0 & ->).
  injection Heq as H3 H2 H1 H0.
  apply digit_char_inj in H3, H2, H1, H0; try assumption.
  rewrite H3, H2, H1, H0. reflexivity.
Qed.

Lemma pad2_inj (n m : Z) :
  0 <= n <= 99 -> 0 <= m <= 99 -> pad2 n = pad2 m -> n = m.
Proof.
  intros Hn Hm Heq. unfold pad2 in Heq.
  destruct (digits2 n Hn) as (N1 & N0 & ->).
  destruct (digits2 m Hm) as (M1 & M0 & ->).
  injection Heq as H1 H0.
  apply digit_char_inj in H1, H0; try assumption.
  rewrite H1, H0. reflexivity.
Qed.

Lemma isoformat_inj (d d' : pydate) :
  valid_pydate d -> valid_pydate d' -> isoformat d = isoformat d' -> d = d'.
Proof.
  intros (Hy & Hm & Hd) (Hy' & Hm' & Hd') Heq.
  destruct d as [y m dd], d' as [y' m' dd']. simpl in *.
  unfold isoformat, pad4, pad2 in Heq.
  rewrite ?append_cons, ?append_nil in Heq.
  injection Heq as Y3 Y2 Y1 Y0 M1 M0 D1 D0.
  assert (y = y') as ->.
  { apply pad4_inj; [lia..|]. unfold pad4. congruence. }
  assert (m = m') as ->.
  { apply pad2_inj; [lia..|]. unfold pad2. congruence. }
  assert (dd = dd') as ->.
  { apply pad2_inj; [lia..|]. unfold pad2. congruence. }
  reflexivity.
Qed.

Lemma isoformat_colon_free (d : pydate) :
  valid_pydate d -> colon_free (isoformat d) = true.
Proof.
  intros (Hy & Hm & Hd). unfold isoformat, pad4, pad2.
  destruct (digits4 (year d) ltac:(lia)) as (Y3 & Y2 & Y1 & Y0 & _).
  destruct (digits2 (month d) ltac:(lia)) as (M1 & M0 & _).
  destruct (digits2 (day d) ltac:(lia)) as (D1 & D0 & _).
  rewrite ?append_cons, ?append_nil, !colon_free_cons.
  rewrite !digit_char_colon_free by assumption. reflexivity.
Qed.

Lemma string_of_uint_colon_free (u : Decimal.uint) :
  colon_free (NilEmpty.string_of_uint u) = true.
Proof. induction u; simpl; auto. Qed.

Lemma str_of_int_colon_free (n : Z) : colon_free (str_of_int n) = true.
Proof.
  unfold str_of_int, NilEmpty.string_of_int.
  destruct (Z.to_int n); simpl; apply string_of_uint_colon_free.
Qed.

Lemma str_of_int_inj (n m : Z) : str_of_int n = str_of_int m -> n = m.
Proof.
  unfold str_of_int. intros Heq.
  apply (f_equal NilEmpty.int_of_string) in Heq.
  rewrite !NilEmpty.isi in Heq. injection Heq as Heq.
  apply (f_equal Z.of_int) in Heq. rewrite !DecimalZ.of_to in Heq. exact Heq.
Qed.

(** C7, as the claim states it, fails: two tuples that differ in the
    organizer and in the event type and get the same key. *)
Lemma cache_key_collision :
  ("a:b", "c") <> ("a", "b:c")
  /\ get_cache_key_for_availability "a:b" "c"
       {| year := 2025; month := 1; day := 6 |}
       {| year := 2025; month := 1; day := 7 |} "UTC" 1
     = get_cache_key_for_availability "a" "b:c"
       {| year := 2025; month := 1; day := 6 |}
       {| year := 2025; month := 1; day := 7 |} "UTC" 1.
Proof. split; [discriminate|reflexivity]. Qed.

(** C7 (amended): equal tuples get the same key, and two tuples whose
    organizer and event-type identifiers contain no colon get the same
    key only when they agree in every field. *)
Theorem cache_key_injective (o1 e1 : string) (s1 d1 : pydate) (t1 : string)
    (c1 : Z) (o2 e2 : string) (s2 d2 : pydate) (t2 : string) (c2 : Z) :
  valid_pydate s1 -> valid_pydate d1 -> valid_pydate s2 -> valid_pydate d2 ->
  colon_free o1 = true -> colon_free e1 = true ->
  colon_free o2 = true -> colon_free e2 = true ->
  ((o1, e1, s1, d1, t1, c1) = (o2, e2, s2, d2, t2, c2) ->
   get_cache_key_for_availability o1 e1 s1 d1 t1 c1
   = get_cache_key_for_availability o2 e2 s2 d2 t2 c2)
  /\ (get_cache_key_for_availability o1 e1 s1 d1 t1 c1
      = get_cache_key_for_availability o2 e2 s2 d2 t2 c2 ->
      (o1, e1, s1, d1, t1, c1) = (o2, e2, s2, d2, t2, c2)).
Proof.
  intros Vs1 Vd1 Vs2 Vd2 Ho1 He1 Ho2 He2. split.
  - intros [= -> -> -> -> -> ->]. reflexivity.
  - unfold get_cache_key_for_availability, join. intros Heq.
    apply (cut_at_first_colon "availability" "availability") in Heq
      as [_ Heq]; [|reflexivity..].
    apply cut_at_first_colon in Heq as [-> Heq]; [|assumption..].
    apply cut_at_first_colon in Heq as [-> Heq]; [|assumption..].
    apply cut_at_first_colon in Heq as [Hs Heq];
      [|apply isoformat_colon_free; assumption..].
    apply cut_at_first_colon in Heq as [Hd Heq];
      [|apply isoformat_colon_free; assumption..].
    apply cut_at_last_colon in Heq as [-> Hc];
      [|apply str_of_int_colon_free..].
    apply isoformat_inj in Hs, Hd; try assumption.
    apply str_of_int_inj in Hc. subst. reflexivity.
Qed.

Lemma cache_key_injective_witness :
  (("org-1", "et-7", {| year := 2025; month := 1; day := 6 |},
    {| year := 2025; month := 1; day := 12 |}, "UTC", 2)
   = ("org-1", "et-7", {| year := 2025; month := 1; day := 6 |},
      {| year := 2025; month := 1; day := 12 |}, "UTC", 2) ->
   get_cache_key_for_availability "org-1" "et-7"
     {| year := 2025; month := 1; day := 6 |}
     {| year := 2025; month := 1; day := 12 |} "UTC" 2
   = get_cache_key_for_availability "org-1" "et-7"
     {| year := 2025; month := 1; day := 6 |}
     {| year := 2025; month := 1; day := 12 |} "UTC" 2)
  /\ (get_cache_key_for_availability "org-1" "et-7"
        {| year := 2025; month := 1; day := 6 |}
        {| year := 2025; month := 1; day := 12 |} "UTC" 2
      = get_cache_key_for_availability "org-1" "et-7"
        {| year := 2025; month := 1; day := 6 |}
        {| year := 2025; month := 1; day := 12 |} "UTC" 2 ->
      ("org-1", "et-7", {| year := 2025; month := 1; day := 6 |},
       {| year := 2025; month := 1; day := 12 |}, "UTC", 2)
      = ("org-1", "et-7", {| year := 2025; month := 1; day := 6 |},
         {| year := 2025; month := 1; day := 12 |}, "UTC", 2)).
Proof.
  refine ((cache_key_injective "org-1" "et-7"
    {| year := 2025; month := 1; day := 6 |}
    {| year := 2025; month := 1; day := 12 |} "UTC" 2 "org-1" "et-7"
    {| year := 2025; month := 1; day := 6 |}
    {| year := 2025; month := 1; day := 12 |} "UTC" 2 _ _ _ _ _ _ _ _));
    first [reflexivity | unfold valid_pydate; simpl; lia].
Defined.

(* ===================================================================== *)
(** * Properties of the dirty-set protocol *)
(* ===================================================================== *)

Lemma dirty_key_inj (o1 o2 : string) : dirty_key o1 = dirty_key o2 -> o1 = o2.
Proof.
  unfold dirty_key. rewrite !append_cons, !append_nil.
  intros Heq. injection Heq as Heq. exact Heq.
Qed.

Lemma dirty_key_not_list_key (o : string) : dirty_key o <> dirty_list_key.
Proof.
  unfold dirty_key, dirty_list_key. rewrite !append_cons, !append_nil.
  intros Heq. discriminate Heq.
Qed.

Lemma list_key_not_dirty_key (o : string) : dirty_list_key <> dirty_key o.
Proof. intros Hk. symmetry in Hk. exact (dirty_key_not_list_key _ Hk). Qed.

Lemma empty_cache_well_typed : cache_well_typed ∅.
Proof. split; intros *; rewrite lookup_empty; discriminate. Qed.

(** On a well-typed cache the two reads of the protocol find values of
    their kind. *)
Lemma well_typed_record (cache : gmap string cache_entry) (clock : Z)
    (o : string) :
  cache_well_typed cache ->
  let initial :=
    {| dd_organizer_id := o; dd_requires_full_invalidation := false;
       dd_changes := [] |} in
  cache_get cache clock (dirty_key o) (VDirty initial)
  = VDirty (default initial (stored_record cache clock o)).
Proof.
  intros [Hd _] initial. unfold cache_get, stored_record.
  destruct (cache !! dirty_key o) as [e|] eqn:E; [|reflexivity].
  destruct (Hd o e E) as [d Hv]. rewrite Hv.
  destruct (clock <? ce_expires e); reflexivity.
Qed.

Lemma well_typed_list (cache : gmap string cache_entry) (clock : Z) :
  cache_well_typed cache ->
  exists s, cache_get cache clock dirty_list_key (VOrganizers ∅) = VOrganizers s.
Proof.
  intros [_ Hl]. unfold cache_get.
  destruct (cache !! dirty_list_key) as [e|] eqn:E; [|eauto].
  destruct (Hl e eq_refl) as [s Hs]. rewrite Hs.
  destruct (clock <? ce_expires e); eauto.
Qed.

(** What [mark_cache_dirty] does to a well-typed cache: the record that
    the read finds, or the initial one, with the flag raised when asked
    and one change more, is stored for an hour, and so is the list with
    the organizer in it. *)
Lemma mark_cache_dirty_spec (cache : gmap string cache_entry) (clock : Z)
    (o ct : string) (full : bool) (now : string) (kw : gmap string string) :
  cache_well_typed cache ->
  let found :=
    default {| dd_organizer_id := o; dd_requires_full_invalidation := false;
               dd_changes := [] |} (stored_record cache clock o) in
  let record :=
    {| dd_organizer_id := dd_organizer_id found;
       dd_requires_full_invalidation :=
         full || dd_requires_full_invalidation found;
       dd_changes :=
         dd_changes found
         ++ [kw ∪ <["timestamp" := now]> {["cache_type" := ct]}] |} in
  exists s,
    cache_get cache clock dirty_list_key (VOrganizers ∅) = VOrganizers s
    /\ mark_cache_dirty cache clock o ct full now kw
       = Some (<[dirty_list_key :=
                   {| ce_value := VOrganizers (s ∪ {[o]});
                      ce_expires := clock + 3600 |}]>
                 (<[dirty_key o :=
                      {| ce_value := VDirty record;
                         ce_expires := clock + 3600 |}]> cache)).
Proof.
  intros Hwt found record.
  destruct (well_typed_list cache clock Hwt) as [s Hs]. exists s.
  split; [exact Hs|]. unfold mark_cache_dirty.
  rewrite (well_typed_record cache clock o Hwt). fold found. cbv zeta.
  unfold cache_get in Hs |- *. unfold cache_set.
  rewrite lookup_insert_ne by apply dirty_key_not_list_key. rewrite Hs.
  do 3 f_equal. subst record. destruct full; reflexivity.
Qed.

(** What [clear_dirty_flags] does to a well-typed cache. *)
Lemma clear_dirty_flags_spec (cache : gmap string cache_entry) (clock : Z)
    (o : string) :
  cache_well_typed cache ->
  exists s,
    cache_get cache clock dirty_list_key (VOrganizers ∅) = VOrganizers s
    /\ clear_dirty_flags cache clock o
       = Some (<[dirty_list_key :=
                   {| ce_value := VOrganizers (s ∖ {[o]});
                      ce_expires := clock + 3600 |}]>
                 (delete (dirty_key o) cache)).
Proof.
  intros Hwt. destruct (well_typed_list cache clock Hwt) as [s Hs]. exists s.
  split; [exact Hs|]. unfold clear_dirty_flags, cache_delete, cache_set.
  unfold cache_get in Hs |- *.
  rewrite lookup_delete_ne by apply dirty_key_not_list_key. rewrite Hs.
  reflexivity.
Qed.

(** The record of an organizer after a store of the list and of the
    record of [o]. *)
Lemma stored_record_after_mark (cache : gmap string cache_entry)
    (clock written : Z) (o o' : string) (record : dirty_data)
    (listed : cache_entry) :
  stored_record
    (<[dirty_list_key := listed]>
       (<[dirty_key o := {| ce_value := VDirty record; ce_expires := written |}]>
          cache)) clock o'
  = if decide (o' = o)
    then (if clock <? written then Some record else None)
    else stored_record cache clock o'.
Proof.
  unfold stored_record.
  rewrite lookup_insert_ne by apply list_key_not_dirty_key.
  destruct (decide (o' = o)) as [->|Hne].
  - rewrite lookup_insert_eq. reflexivity.
  - rewrite lookup_insert_ne; [reflexivity|].
    intros Hk. apply dirty_key_inj in Hk. congruence.
Qed.

Lemma stored_record_after_clear (cache : gmap string cache_entry)
    (clock : Z) (o o' : string) (listed : cache_entry) :
  stored_record (<[dirty_list_key := listed]> (delete (dirty_key o) cache))
    clock o'
  = if decide (o' = o) then None else stored_record cache clock o'.
Proof.
  unfold stored_record.
  rewrite lookup_insert_ne by apply list_key_not_dirty_key.
  destruct (decide (o' = o)) as [->|Hne].
  - rewrite lookup_delete_eq. reflexivity.
  - rewrite lookup_delete_ne; [reflexivity|].
    intros Hk. apply dirty_key_inj in Hk. congruence.
Qed.

Lemma well_typed_after_mark (cache : gmap string cache_entry) (o : string)
    (record : dirty_data) (s : gset string) (t1 t2 : Z) :
  cache_well_typed cache ->
  cache_well_typed
    (<[dirty_list_key := {| ce_value := VOrganizers s; ce_expires := t1 |}]>
       (<[dirty_key o := {| ce_value := VDirty record; ce_expires := t2 |}]>
          cache)).
Proof.
  intros [Hd Hl]. split.
  - intros o' e. rewrite lookup_insert_ne by apply list_key_not_dirty_key.
    rewrite lookup_insert. case_decide as Hk.
    + intros [= <-]. eexists. reflexivity.
    + apply Hd.
  - intros e. rewrite lookup_insert_eq. intros [= <-]. eexists. reflexivity.
Qed.

Lemma well_typed_after_clear (cache : gmap string cache_entry) (o : string)
    (s : gset string) (t1 : Z) :
  cache_well_typed cache ->
  cache_well_typed
    (<[dirty_list_key := {| ce_value := VOrganizers s; ce_expires := t1 |}]>
       (delete (dirty_key o) cache)).
Proof.
  intros [Hd Hl]. split.
  - intros o' e. rewrite lookup_insert_ne by apply list_key_not_dirty_key.
    rewrite lookup_delete. case_decide as Hk; [discriminate|apply Hd].
  - intros e. rewrite lookup_insert_eq. intros [= <-]. eexists. reflexivity.
Qed.

(** Every call goes through on a well-typed cache and leaves one. *)
Lemma run_call_total (cache : gmap string cache_entry) (clock : Z)
    (c : dirty_call) :
  cache_well_typed cache ->
  exists cache', run_call cache clock c = Some cache' /\ cache_well_typed cache'.
Proof.
  intros Hwt. destruct c as [o ct full now kw|o]; simpl.
  - destruct (mark_cache_dirty_spec cache clock o ct full now kw Hwt)
      as (s & _ & ->).
    eexists. split; [reflexivity|]. apply well_typed_after_mark, Hwt.
  - destruct (clear_dirty_flags_spec cache clock o Hwt) as (s & _ & ->).
    eexists. split; [reflexivity|]. apply well_typed_after_clear, Hwt.
Qed.

Lemma run_calls_total (cs : list (Z * dirty_call))
    (cache : gmap string cache_entry) :
  cache_well_typed cache ->
  exists cache', run_calls cache cs = Some cache' /\ cache_well_typed cache'.
Proof.
  revert cache. induction cs as [|[clock c] cs IH]; intros cache Hwt; simpl.
  - eauto.
  - destruct (run_call_total cache clock c Hwt) as (cache1 & -> & Hwt1). eauto.
Qed.

Lemma run_calls_app (cs1 cs2 : list (Z * dirty_call))
    (cache : gmap string cache_entry) :
  run_calls cache (cs1 ++ cs2)
  = match run_calls cache cs1 with
    | Some cache' => run_calls cache' cs2
    | None => None
    end.
Proof.
  revert cache. induction cs1 as [|[clock c] cs1 IH]; intros cache; simpl.
  - reflexivity.
  - destruct (run_call cache clock c); [apply IH|reflexivity].
Qed.

(** A call other than the organizer's [clear_dirty_flags] keeps a flag
    that the reads before [written + 3600] find set, as long as a mark of
    the organizer is among these reads; after such a mark the flag is
    found for an hour from it. *)
Lemma run_call_keeps_flag (cache cache' : gmap string cache_entry)
    (clock written : Z) (c : dirty_call) (o : string) :
  cache_well_typed cache ->
  (forall t, t < written + 3600 -> stored_flag cache t o = Some true) ->
  run_call cache clock c = Some cache' ->
  c <> ClearDirty o ->
  match c with
  | MarkDirty o' _ _ _ _ =>
      if decide (o' = o)
      then clock < written + 3600 ->
           forall t, t < clock + 3600 -> stored_flag cache' t o = Some true
      else forall t, t < written + 3600 -> stored_flag cache' t o = Some true
  | ClearDirty _ =>
      forall t, t < written + 3600 -> stored_flag cache' t o = Some true
  end.
Proof.
  intros Hwt Hflag Hrun Hc. destruct c as [o' ct full now kw|o']; simpl in Hrun.
  - destruct (mark_cache_dirty_spec cache clock o' ct full now kw Hwt)
      as (s & _ & Hrun1).
    rewrite Hrun1 in Hrun. injection Hrun as <-.
    destruct (decide (o' = o)) as [->|Hne].
    + intros Hclock t Ht. unfold stored_flag.
      rewrite stored_record_after_mark, decide_True by reflexivity.
      rewrite (proj2 (Z.ltb_lt _ _) Ht). cbn [fmap option_fmap option_map].
      specialize (Hflag clock Hclock). unfold stored_flag in Hflag.
      destruct (stored_record cache clock o) as [d|]; [|discriminate].
      injection Hflag as Hflag. cbn [from_option id dd_requires_full_invalidation].
      rewrite Hflag, orb_true_r. reflexivity.
    + intros t Ht. unfold stored_flag.
      rewrite stored_record_after_mark, decide_False by congruence.
      apply Hflag, Ht.
  - destruct (clear_dirty_flags_spec cache clock o' Hwt) as (s & _ & Hrun1).
    rewrite Hrun1 in Hrun. injection Hrun as <-.
    intros t Ht. unfold stored_flag.
    rewrite stored_record_after_clear, decide_False by congruence.
    apply Hflag, Ht.
Qed.

Lemma run_calls_keep_flag (cs : list (Z * dirty_call))
    (cache : gmap string cache_entry) (o : string) (written read_at : Z) :
  cache_well_typed cache ->
  (forall t, t < written + 3600 -> stored_flag cache t o = Some true) ->
  (forall tc, tc ∈ cs -> tc.2 <> ClearDirty o) ->
  record_kept o written cs read_at ->
  exists cache', run_calls cache cs = Some cache'
                 /\ stored_flag cache' read_at o = Some true.
Proof.
  revert cache written.
  induction cs as [|[clock c] cs IH]; intros cache written Hwt Hflag Hcs Hkept.
  - exists cache. split; [reflexivity|]. apply Hflag. exact Hkept.
  - cbn [run_calls].
    destruct (run_call_total cache clock c Hwt) as (cache1 & Hrun & Hwt1).
    rewrite Hrun.
    pose proof (run_call_keeps_flag cache cache1 clock written c o Hwt Hflag
                  Hrun (Hcs (clock, c) ltac:(left))) as Hstep.
    assert (Hrest : forall tc, tc ∈ cs -> tc.2 <> ClearDirty o)
      by (intros tc Htc; apply Hcs; right; exact Htc).
    destruct c as [o' ct full now kw|o']; cbn [record_kept] in Hkept.
    + destruct (decide (o' = o)) as [->|Hne].
      * destruct Hkept as [Hclock Hkept].
        apply (IH cache1 clock); auto.
      * apply (IH cache1 written); auto.
    + apply (IH cache1 written); auto.
Qed.

(** C8 (amended): on a well-typed cache every sequence of the two calls
    goes through. After a [mark_cache_dirty] with the flag set, followed
    by calls none of which is the organizer's [clear_dirty_flags], a read
    finds the flag of the organizer set, provided the record has been
    kept: every later [mark_cache_dirty] of the organizer, and the read,
    comes less than the 3600 seconds of the timeout after the write
    before it. And a single call that finds the flag set, after which a
    read at the same instant does not, is the organizer's
    [clear_dirty_flags], which removes the record for every later
    read. *)
Theorem dirty_flag_sticky (cache : gmap string cache_entry)
    (before after : list (Z * dirty_call)) (clock read_at : Z)
    (o ct now : string) (kw : gmap string string) :
  cache_well_typed cache ->
  (forall tc, tc ∈ after -> tc.2 <> ClearDirty o) ->
  record_kept o clock after read_at ->
  (exists cache',
     run_calls cache (before ++ (clock, MarkDirty o ct true now kw) :: after)
     = Some cache'
     /\ stored_flag cache' read_at o = Some true)
  /\ (forall t c cache1 cache2,
        run_calls cache before = Some cache1 ->
        stored_flag cache1 t o = Some true ->
        run_call cache1 t c = Some cache2 ->
        stored_flag cache2 t o <> Some true ->
        c = ClearDirty o /\ forall t', stored_flag cache2 t' o = None).
Proof.
  intros Hwt Hafter Hkept. split.
  - rewrite run_calls_app.
    destruct (run_calls_total before cache Hwt) as (cache1 & -> & Hwt1).
    cbn [run_calls run_call].
    destruct (mark_cache_dirty_spec cache1 clock o ct true now kw Hwt1)
      as (s & _ & ->).
    apply (run_calls_keep_flag after _ o clock read_at); auto.
    + apply well_typed_after_mark, Hwt1.
    + intros t Ht. unfold stored_flag.
      rewrite stored_record_after_mark, decide_True by reflexivity.
      rewrite (proj2 (Z.ltb_lt _ _) Ht). reflexivity.
  - intros t c cache1 cache2 Hrun1 Hflag Hrun2 Hlost.
    destruct (run_calls_total before cache Hwt) as (cache1' & Hrun1' & Hwt1).
    rewrite Hrun1 in Hrun1'. injection Hrun1' as <-.
    destruct c as [o' ct' full' now' kw'|o']; cbn [run_call] in Hrun2.
    + exfalso. apply Hlost.
      destruct (mark_cache_dirty_spec cache1 t o' ct' full' now' kw' Hwt1)
        as (s & _ & Hrun3).
      rewrite Hrun3 in Hrun2. injection Hrun2 as <-. unfold stored_flag.
      rewrite stored_record_after_mark.
      destruct (decide (o = o')) as [->|Hne]; [|exact Hflag].
      rewrite (proj2 (Z.ltb_lt t (t + 3600)) ltac:(lia)).
      cbn [fmap option_fmap option_map]. unfold stored_flag in Hflag.
      destruct (stored_record cache1 t o') as [d|]; [|discriminate].
      injection Hflag as Hflag. cbn [from_option id dd_requires_full_invalidation].
      rewrite Hflag, orb_true_r. reflexivity.
    + destruct (clear_dirty_flags_spec cache1 t o' Hwt1) as (s & _ & Hrun3).
      rewrite Hrun3 in Hrun2. injection Hrun2 as <-.
      destruct (decide (o = o')) as [->|Hne].
      * split; [reflexivity|]. intros t'. unfold stored_flag.
        rewrite stored_record_after_clear, decide_True by reflexivity.
        reflexivity.
      * exfalso. apply Hlost. unfold stored_flag.
        rewrite stored_record_after_clear, decide_False by exact Hne.
        exact Hflag.
Qed.

(** C8, as the claim states it, fails: the record is stored with a
    timeout of an hour. A mark with the flag set, and an hour and a bit
    later a mark without it: the second call finds no record and starts
    from the initial one, so the flag is found unset although no
    [clear_dirty_flags] was called; and without a second call the flag is
    found by no read from the end of the hour on. *)
Lemma dirty_flag_expires :
  (run_calls ∅ [(0, MarkDirty "u1" "availability" true "t0" ∅);
                (4000, MarkDirty "u1" "booking" false "t1" ∅)]
     ≫= fun c => stored_flag c 4000 "u1") = Some false
  /\ (run_calls ∅ [(0, MarkDirty "u1" "availability" true "t0" ∅)]
        ≫= fun c => stored_flag c 3599 "u1") = Some true
  /\ (run_calls ∅ [(0, MarkDirty "u1" "availability" true "t0" ∅)]
        ≫= fun c => stored_flag c 3600 "u1") = None.
Proof. repeat split; vm_compute; reflexivity. Qed.

Lemma dirty_flag_sticky_witness :
  exists cache',
    run_calls ∅
      ([(0, MarkDirty "u2" "availability" false "t0" ∅)]
       ++ (10, MarkDirty "u1" "availability" true "t1" ∅)
          :: [(3000, MarkDirty "u1" "booking" false "t2" ∅);
              (9000, ClearDirty "u2")])
    = Some cache'
    /\ stored_flag cache' 6500 "u1" = Some true.
Proof.
  refine (proj1 (dirty_flag_sticky ∅
    [(0, MarkDirty "u2" "availability" false "t0" ∅)]
    [(3000, MarkDirty "u1" "booking" false "t2" ∅); (9000, ClearDirty "u2")]
    10 6500 "u1" "availability" "t1" ∅ empty_cache_well_typed _ _)).
  - intros tc Hc.
    apply elem_of_cons in Hc as [->|Hc]; [discriminate|].
    apply elem_of_cons in Hc as [->|Hc]; [discriminate|].
    apply elem_of_nil in Hc. destruct Hc.
  - cbn [record_kept]. rewrite decide_True by reflexivity. lia.
Defined.

Example dirty_flag_run :
  (run_calls ∅ [(0, MarkDirty "u1" "availability" true "t1" ∅);
                (60, MarkDirty "u1" "booking" false "t2" ∅)]
     ≫= fun c => stored_flag c 120 "u1") = Some true
  /\ (run_calls ∅ [(0, MarkDirty "u1" "availability" true "t1" ∅);
                   (60, ClearDirty "u1")]
        ≫= fun c => stored_flag c 120 "u1") = None
  /\ (run_calls ∅ [(0, MarkDirty "u1" "availability" true "t1" ∅);
                   (60, ClearDirty "u1");
                   (90, MarkDirty "u1" "booking" false "t2" ∅)]
        ≫= fun c => stored_flag c 120 "u1") = Some false.
Proof. repeat split; vm_compute; reflexivity. Qed.

(* ===================================================================== *)
(** * Properties of the engine *)
(* ===================================================================== *)

(** ** Stable sorting *)

Section StableSort.
Context {A : Type} (goes_before : A -> A -> bool) (R0 : relation A).

Hypothesis goes_before_asym :
  forall a b, goes_before a b = true -> goes_before b a = false.
Hypothesis goes_before_neg_trans :
  forall a b c,
    goes_before b a = false -> goes_before c b = false -> goes_before c a = false.

Lemma insert_stable_elem_of (x y : A) (l : list A) :
  y ∈ insert_stable goes_before x l <-> y = x \/ y ∈ l.
Proof.
  induction l as [|z l IH]; simpl.
  - rewrite list_elem_of_singleton, elem_of_nil. tauto.
  - destruct (goes_before z x); rewrite !elem_of_cons; [rewrite IH|]; tauto.
Qed.

Lemma py_sorted_elem_of (y : A) (l : list A) :
  y ∈ py_sorted goes_before l <-> y ∈ l.
Proof.
  induction l as [|x l IH]; simpl; [reflexivity|].
  rewrite insert_stable_elem_of, elem_of_cons, IH. reflexivity.
Qed.

Lemma insert_stable_sorted (x : A) (l : list A) :
  Forall (R0 x) l ->
  StronglySorted (ordered_then goes_before R0) l ->
  StronglySorted (ordered_then goes_before R0) (insert_stable goes_before x l).
Proof.
  induction l as [|y l IH]; intros HR Hs; simpl.
  - repeat constructor.
  - apply StronglySorted_cons in Hs as [Hy Hs].
    apply Forall_cons in HR as [HRy HR].
    destruct (goes_before y x) eqn:Hyx.
    + apply StronglySorted_cons. split; [|apply IH; assumption].
      apply Forall_forall. intros z Hz.
      apply insert_stable_elem_of in Hz as [->|Hz].
      * split; [apply goes_before_asym, Hyx|left; exact Hyx].
      * rewrite Forall_forall in Hy. apply Hy, Hz.
    + assert (Hxy : ordered_then goes_before R0 x y).
      { split; [exact Hyx|right; exact HRy]. }
      apply StronglySorted_cons. split.
      * constructor; [exact Hxy|].
        rewrite Forall_forall in Hy. rewrite Forall_forall in HR.
        rewrite Forall_forall. intros z Hz.
        destruct (Hy z Hz) as [Hzy _].
        split; [|right; apply HR, Hz].
        apply (goes_before_neg_trans x y z); assumption.
      * apply StronglySorted_cons. split; assumption.
Qed.

(** The result of the sort is ordered by the key; elements with equal
    keys keep the order they had, so an order [R0] that held on the input
    still holds among them. *)
Lemma py_sorted_sorted (l : list A) :
  StronglySorted R0 l -> StronglySorted (ordered_then goes_before R0) (py_sorted goes_before l).
Proof.
  induction l as [|x l IH]; intros Hs; simpl.
  - constructor.
  - apply StronglySorted_cons in Hs as [Hx Hs].
    apply insert_stable_sorted; [|apply IH, Hs].
    rewrite Forall_forall in Hx |- *. intros y Hy.
    apply Hx. apply (proj1 (py_sorted_elem_of y l)), Hy.
Qed.

End StableSort.

Lemma StronglySorted_True {A} (l : list A) : StronglySorted (fun _ _ => True) l.
Proof. induction l; constructor; auto. apply Forall_forall. auto. Qed.

Lemma StronglySorted_impl {A} (R1 R2 : relation A) (l : list A) :
  (forall a b, R1 a b -> R2 a b) -> StronglySorted R1 l -> StronglySorted R2 l.
Proof.
  intros Himp. induction 1 as [|x l Hs IH Hx]; constructor; auto.
  eapply Forall_impl; [exact Hx|]. auto.
Qed.

Lemma StronglySorted_filter {A} (R : relation A) (P : A -> Prop)
    `{!forall x, Decision (P x)} (l : list A) :
  StronglySorted R l -> StronglySorted R (filter P l).
Proof.
  induction 1 as [|x l Hs IH Hx]; [constructor|].
  rewrite filter_cons. destruct (decide (P x)); [|exact IH].
  constructor; [exact IH|]. apply Forall_forall. intros y Hy.
  apply list_elem_of_filter in Hy as [_ Hy].
  rewrite Forall_forall in Hx. auto.
Qed.

(** ** Merging the intervals of a day *)

Lemma merge_loop_separated (rest : list (Z * Z)) (last : Z * Z) :
  Forall (fun x => last.1 <= x.1) rest ->
  StronglySorted (fun a b => a.1 <= b.1) rest ->
  StronglySorted separated (merge_loop last rest)
  /\ Forall (fun x => last.1 <= x.1) (merge_loop last rest).
Proof.
  revert last. induction rest as [|[cs ce] rest IH]; intros [ls le] Hge Hs; simpl.
  - split; repeat constructor. simpl. lia.
  - apply Forall_cons in Hge as [Hc Hge]. simpl in Hc.
    apply StronglySorted_cons in Hs as [Hcr Hs].
    destruct (Z.leb_spec cs le) as [Hle|Hgt].
    + apply IH; assumption.
    + destruct (IH (cs, ce) Hcr Hs) as [Hsep Hall]. split.
      * constructor; [exact Hsep|].
        eapply Forall_impl; [exact Hall|]. unfold separated. simpl. lia.
      * constructor; [simpl; lia|].
        eapply Forall_impl; [exact Hall|]. simpl. lia.
Qed.

Lemma merge_loop_within (lo hi : Z) (rest : list (Z * Z)) (last : Z * Z) :
  lo <= last.1 /\ last.2 <= hi ->
  Forall (fun x => lo <= x.1 /\ x.2 <= hi) rest ->
  Forall (fun x => lo <= x.1 /\ x.2 <= hi) (merge_loop last rest).
Proof.
  revert last. induction rest as [|[cs ce] rest IH]; intros [ls le] Hl Hr; simpl.
  - repeat constructor; apply Hl.
  - apply Forall_cons in Hr as [Hc Hr]. simpl in Hl, Hc.
    destruct (Z.leb_spec cs le).
    + apply IH; [simpl; lia|exact Hr].
    + constructor; [exact Hl|]. apply IH; [exact Hc|exact Hr].
Qed.

Lemma merge_overlapping_intervals_separated (intervals : list (Z * Z)) :
  StronglySorted separated (merge_overlapping_intervals intervals).
Proof.
  unfold merge_overlapping_intervals.
  pose proof (py_sorted_sorted (fun y x : Z * Z => y.1 <? x.1) (fun _ _ => True)
                ltac:(intros a b; rewrite !Z.ltb_lt, !Z.ltb_ge; lia)
                ltac:(intros a b c; rewrite !Z.ltb_ge; lia)
                intervals (StronglySorted_True _)) as Hs.
  apply (StronglySorted_impl _ (fun a b => a.1 <= b.1)) in Hs.
  2:{ intros a b [Hba _]. apply Z.ltb_ge in Hba. exact Hba. }
  destruct (py_sorted _ intervals) as [|first rest]; [constructor|].
  apply StronglySorted_cons in Hs as [Hf Hs].
  apply merge_loop_separated; assumption.
Qed.

Lemma merge_overlapping_intervals_within (lo hi : Z) (intervals : list (Z * Z)) :
  Forall (fun x => lo <= x.1 /\ x.2 <= hi) intervals ->
  Forall (fun x => lo <= x.1 /\ x.2 <= hi) (merge_overlapping_intervals intervals).
Proof.
  intros Hall. unfold merge_overlapping_intervals.
  assert (Hsorted : Forall (fun x => lo <= x.1 /\ x.2 <= hi)
                      (py_sorted (fun y x : Z * Z => y.1 <? x.1) intervals)).
  { rewrite Forall_forall in Hall |- *. intros x Hx.
    apply Hall. eapply py_sorted_elem_of, Hx. }
  destruct (py_sorted _ intervals) as [|first rest]; [constructor|].
  apply Forall_cons in Hsorted as [Hf Hr].
  apply merge_loop_within; assumption.
Qed.

Example merge_example :
  merge_overlapping_intervals [(600, 700); (100, 200); (150, 300); (300, 400)]
  = [(100, 400); (600, 700)].
Proof. reflexivity. Qed.

(** ** Slot enumerator *)

Section SlotEnumerator.
Context {zones : ZoneDb}.

Lemma slots_loop_within (fuel : nat) (zone : tzinfo) (cur e dur step : Z) :
  0 < step ->
  Forall (slot_within zone cur e dur) (slots_loop fuel zone cur e dur step).
Proof.
  intros Hstep. revert cur. induction fuel as [|fuel IH]; intros cur; simpl.
  - constructor.
  - destruct (Z.leb_spec (cur + dur * MINUTE) e) as [Hfit|]; [|constructor].
    constructor.
    + unfold slot_within, make_slot. simpl. repeat split; try reflexivity; lia.
    + eapply Forall_impl; [apply IH|].
      unfold slot_within, MINUTE. intros s (? & ? & ? & ? & ?).
      repeat split; auto; lia.
Qed.

Lemma slots_loop_increasing (fuel : nat) (zone : tzinfo) (cur e dur step : Z) :
  0 < step ->
  StronglySorted starts_before (slots_loop fuel zone cur e dur step).
Proof.
  intros Hstep. revert cur. induction fuel as [|fuel IH]; intros cur; simpl.
  - constructor.
  - destruct (Z.leb_spec (cur + dur * MINUTE) e) as [Hfit|]; [|constructor].
    constructor; [apply IH|].
    eapply Forall_impl; [apply (slots_loop_within fuel zone _ e dur step Hstep)|].
    unfold slot_within, starts_before, make_slot, MINUTE. simpl.
    intros s (_ & _ & ? & _). lia.
Qed.

(** Once the rounds are enough for the condition to fail, more rounds add
    nothing: the loop has been left. *)
Lemma slots_loop_enough (fuel extra : nat) (zone : tzinfo) (cur e dur step : Z) :
  0 < step ->
  e - cur - dur * MINUTE < Z.of_nat fuel * (step * MINUTE) ->
  slots_loop (fuel + extra) zone cur e dur step
  = slots_loop fuel zone cur e dur step.
Proof.
  intros Hstep. revert cur. induction fuel as [|fuel IH]; intros cur Hlt.
  - simpl in *. destruct extra as [|extra]; [reflexivity|]. simpl.
    destruct (Z.leb_spec (cur + dur * MINUTE) e); [lia|reflexivity].
  - simpl. destruct (Z.leb_spec (cur + dur * MINUTE) e); [|reflexivity].
    f_equal. apply IH. unfold MINUTE in *. lia.
Qed.

Lemma slot_rounds_enough (s e dur step : Z) :
  0 < step -> s + dur * MINUTE <= e ->
  e - s - dur * MINUTE < Z.of_nat (slot_rounds s e dur step) * (step * MINUTE).
Proof.
  intros Hstep Hfit. unfold slot_rounds.
  assert (Hk : 0 < step * MINUTE) by (unfold MINUTE; lia).
  pose proof (Z.div_pos (e - s - dur * MINUTE) (step * MINUTE) ltac:(lia) Hk).
  rewrite Z2Nat.id by lia.
  pose proof (Z.div_mod (e - s - dur * MINUTE) (step * MINUTE) ltac:(lia)).
  pose proof (Z.mod_pos_bound (e - s - dur * MINUTE) (step * MINUTE) Hk).
  nia.
Qed.

(** The rounds counted by [slot_rounds] are those of the [while] loop:
    with any number of further rounds allowed the list is the same. *)
Lemma generate_slots_loop_left (zone : tzinfo) (s e dur step : Z) (extra : nat) :
  0 < step -> s + dur * MINUTE <= e ->
  slots_loop (slot_rounds s e dur step + extra) zone s e dur step
  = slots_loop (slot_rounds s e dur step) zone s e dur step.
Proof.
  intros Hstep Hfit. apply slots_loop_enough; [exact Hstep|].
  apply slot_rounds_enough; assumption.
Qed.

(** With a positive stride the enumerator returns, whatever the
    interval; its slots lie within the interval and go up. *)
Lemma generate_slots_done (zone : tzinfo) (s e dur step : Z) :
  0 < step ->
  exists l,
    _generate_slots_from_interval zone s e dur step = Done l
    /\ Forall (slot_within zone s e dur) l
    /\ StronglySorted starts_before l.
Proof.
  intros Hstep. unfold _generate_slots_from_interval.
  destruct (Z.leb_spec (s + dur * MINUTE) e).
  - destruct (Z.ltb_spec 0 step); [|lia]. eexists. split; [reflexivity|].
    split; [apply slots_loop_within|apply slots_loop_increasing]; assumption.
  - exists []. repeat split; constructor.
Qed.

(** Whatever the stride, a list that the enumerator returns lies within
    the interval. *)
Lemma generate_slots_within (zone : tzinfo) (s e dur step : Z) (l : list slot) :
  _generate_slots_from_interval zone s e dur step = Done l ->
  Forall (slot_within zone s e dur) l.
Proof.
  unfold _generate_slots_from_interval.
  destruct (Z.leb_spec (s + dur * MINUTE) e).
  - destruct (Z.ltb_spec 0 step); [|destruct (step <? 0); discriminate].
    intros [= <-]. apply slots_loop_within. assumption.
  - intros [= <-]. constructor.
Qed.

Lemma potential_slots_within (zone : tzinfo) (dur step : Z)
    (intervals : list (Z * Z)) (l : list slot) :
  potential_slots zone dur step intervals = Done l ->
  Forall (fun s => exists iv, iv ∈ intervals /\ slot_within zone iv.1 iv.2 dur s) l.
Proof.
  revert l. induction intervals as [|[s e] rest IH]; intros l; simpl.
  - intros [= <-]. constructor.
  - destruct (_generate_slots_from_interval zone s e dur step) as [l1| |] eqn:E1;
      simpl; try discriminate.
    destruct (potential_slots zone dur step rest) as [l2| |]; simpl;
      try discriminate.
    intros [= <-]. apply Forall_app. split.
    + eapply Forall_impl; [apply (generate_slots_within _ _ _ _ _ _ E1)|].
      intros x Hx. exists (s, e). split; [left|exact Hx].
    + eapply Forall_impl; [apply IH; reflexivity|].
      intros x (iv & Hiv & Hx). exists iv. split; [right; exact Hiv|exact Hx].
Qed.

(** Separated intervals, a positive stride and a duration that is not
    negative: the candidates of the day come back, in increasing order. *)
Lemma potential_slots_increasing (zone : tzinfo) (dur step : Z)
    (intervals : list (Z * Z)) :
  0 < step -> 0 <= dur ->
  StronglySorted separated intervals ->
  exists l, potential_slots zone dur step intervals = Done l
            /\ StronglySorted starts_before l.
Proof.
  intros Hstep Hdur. induction intervals as [|[s e] rest IH]; intros Hsep; simpl.
  - exists []. split; [reflexivity|constructor].
  - apply StronglySorted_cons in Hsep as [Hse Hsep].
    destruct (generate_slots_done zone s e dur step Hstep) as (l1 & E1 & W1 & S1).
    destruct (IH Hsep) as (l2 & E2 & S2).
    rewrite E1, E2. simpl. eexists. split; [reflexivity|].
    apply StronglySorted_app_2; [|assumption..].
    intros x1 x2 Hx1 Hx2.
    rewrite Forall_forall in W1. specialize (W1 x1 Hx1).
    pose proof (potential_slots_within zone dur step rest l2 E2) as W2.
    rewrite Forall_forall in W2. destruct (W2 x2 Hx2) as (iv & Hiv & Hw2).
    rewrite Forall_forall in Hse. specialize (Hse iv Hiv).
    destruct W1 as (_ & _ & _ & ? & ?), Hw2 as (_ & _ & ? & _).
    unfold separated, starts_before, MINUTE in *. simpl in *. lia.
Qed.

End SlotEnumerator.

Example slots_example :
  _generate_slots_from_interval (Zone "UTC") (at_time 1 9 0) (at_time 1 10 0) 30 30
  = Done [make_slot (Zone "UTC") (at_time 1 9 0) 30;
          make_slot (Zone "UTC") (at_time 1 9 30) 30].
Proof. vm_compute. reflexivity. Qed.

Example slots_stuck :
  _generate_slots_from_interval (Zone "UTC") (at_time 1 9 0) (at_time 1 10 0) 30 0
  = Stuck.
Proof. vm_compute. reflexivity. Qed.

Example slots_negative_stride :
  _generate_slots_from_interval (Zone "UTC") (at_time 1 9 0) (at_time 1 10 0) 30
    (-15)
  = Raised "date value out of range".
Proof. vm_compute. reflexivity. Qed.

(** ** Rule resolver *)

Section Resolver.
Context {zones : ZoneDb}.

Lemma override_intervals_done (d : Z) (tzname : string)
    (overrides : list DateOverrideRule) (l : list (Z * Z)) :
  override_intervals d tzname overrides = Done l ->
  l = available_windows d overrides.
Proof.
  revert l. induction overrides as [|o rest IH]; intros l; simpl.
  - intros [= <-]. reflexivity.
  - unfold available_windows. simpl. fold (available_windows d rest).
    destruct (do_is_available o), (do_start_time o), (do_end_time o);
      simpl; try apply IH.
    unfold ZoneInfo. destruct (zone_known tzname); simpl; [|discriminate].
    destruct (override_intervals d tzname rest) as [l'| |]; simpl;
      try discriminate.
    intros [= <-]. f_equal. apply IH. reflexivity.
Qed.

Lemma override_intervals_known (d : Z) (tzname : string)
    (overrides : list DateOverrideRule) :
  zone_known tzname = true ->
  override_intervals d tzname overrides = Done (available_windows d overrides).
Proof.
  intros Hz. induction overrides as [|o rest IH]; simpl; [reflexivity|].
  unfold available_windows. simpl. fold (available_windows d rest).
  destruct (do_is_available o), (do_start_time o), (do_end_time o);
    simpl; try apply IH.
  unfold ZoneInfo. rewrite Hz. simpl. rewrite IH. reflexivity.
Qed.

Lemma override_intervals_none (d : Z) (tzname : string)
    (overrides : list DateOverrideRule) :
  available_windows d overrides = [] ->
  override_intervals d tzname overrides = Done [].
Proof.
  induction overrides as [|o rest IH]; simpl; [reflexivity|].
  unfold available_windows. simpl. fold (available_windows d rest).
  destruct (do_is_available o), (do_start_time o), (do_end_time o);
    simpl; try apply IH. discriminate.
Qed.

Lemma rule_intervals_known (d : Z) (tzname : string)
    (rules : list AvailabilityRule) :
  zone_known tzname = true ->
  rule_intervals d tzname rules = Done (rule_windows d rules).
Proof.
  intros Hz. induction rules as [|r rest IH]; simpl; [reflexivity|].
  unfold ZoneInfo. rewrite Hz. simpl. rewrite IH. reflexivity.
Qed.

Lemma available_windows_elem_of (d : Z) (overrides : list DateOverrideRule)
    (w : Z * Z) :
  w ∈ available_windows d overrides ->
  exists o st en,
    o ∈ overrides /\ do_is_available o = true
    /\ do_start_time o = Some st /\ do_end_time o = Some en
    /\ w = compose_window d st en.
Proof.
  unfold available_windows. rewrite list_elem_of_omap.
  intros (o & Ho & Hw). exists o.
  destruct (do_is_available o), (do_start_time o) as [st|],
    (do_end_time o) as [en|]; try discriminate.
  injection Hw as <-. exists st, en. auto.
Qed.

(** C2: on a date with an applicable active override the resolver
    returns what the loop over the overrides returns, whatever the table
    of availability rules holds. *)
Theorem overrides_take_precedence (db : Database) (organizer : User)
    (event_type : EventType) (target_date : Z) (organizer_timezone : string)
    (o : DateOverrideRule) :
  o ∈ date_overrides db ->
  do_organizer o = user_id organizer ->
  do_date o = target_date ->
  do_is_active o = true ->
  applies_to_event_type (do_event_types o) event_type = true ->
  _get_daily_available_intervals db organizer event_type target_date
    organizer_timezone
  = override_intervals target_date organizer_timezone
      (applicable_overrides db organizer event_type target_date)
  /\ forall rules,
       _get_daily_available_intervals (with_availability_rules db rules)
         organizer event_type target_date organizer_timezone
       = _get_daily_available_intervals db organizer event_type target_date
           organizer_timezone.
Proof.
  intros Hin Horg Hdate Hact Happ.
  assert (Ho : o ∈ applicable_overrides db organizer event_type target_date).
  { unfold applicable_overrides. rewrite !list_elem_of_filter. auto. }
  assert (Hsame : forall rules,
             applicable_overrides (with_availability_rules db rules) organizer
               event_type target_date
             = applicable_overrides db organizer event_type target_date)
    by reflexivity.
  unfold _get_daily_available_intervals. split.
  - destruct (applicable_overrides db organizer event_type target_date);
      [inversion Ho|reflexivity].
  - intros rules. rewrite Hsame.
    destruct (applicable_overrides db organizer event_type target_date);
      [inversion Ho|reflexivity].
Qed.

End Resolver.

(** ** Query orchestrator *)

Section Orchestrator.
Context {zones : ZoneDb}.

Lemma dates_from_reversed (start_date end_date : Z) :
  end_date < start_date -> dates_from start_date end_date = [].
Proof.
  intros Hlt. unfold dates_from.
  replace (Z.to_nat (end_date - start_date + 1)) with O by lia. reflexivity.
Qed.

Lemma collect_all_slots_reversed (db : Database) (organizer : User)
    (event_type : EventType) (start_date end_date : Z)
    (organizer_timezone invitee_timezone : string) (attendee_count : Z) :
  end_date < start_date ->
  collect_all_slots db organizer event_type start_date end_date
    organizer_timezone invitee_timezone attendee_count = Done [].
Proof.
  intros Hlt. unfold collect_all_slots.
  rewrite dates_from_reversed by exact Hlt. reflexivity.
Qed.

(** C10 (amended): with [start_date] after [end_date] the call returns
    and the slots are empty, the difference of the dates plus one not
    being positive. For an organizer with a profile the warnings are
    those of the time zones alone, no slot is counted and
    [date_range_days] is that difference plus one. For an organizer
    without a profile the handler of the [try] answers: the warnings of
    the invitee zones and the error, and metrics without
    [date_range_days]. *)
Theorem reversed_range_returns_empty (db : Database) (organizer : User)
    (event_type : EventType) (start_date end_date : Z)
    (invitee_timezone : string) (attendee_count : Z)
    (invitee_timezones : option (list string)) :
  end_date < start_date ->
  exists r,
    calculate_available_slots db organizer event_type start_date end_date
      invitee_timezone attendee_count invitee_timezones = Some r
    /\ slots r = []
    /\ end_date - start_date + 1 <= 0
    /\ match profile organizer with
       | Some p =>
           warnings r
           = (validate_invitee_timezone invitee_timezone).1
             ++ (validate_invitee_timezones invitee_timezones).1
             ++ (resolve_organizer_timezone p).1
           /\ performance_metrics r
              = {| total_slots_calculated := Some 0;
                   date_range_days := Some (end_date - start_date + 1) |}
       | None =>
           warnings r
           = (validate_invitee_timezone invitee_timezone).1
             ++ (validate_invitee_timezones invitee_timezones).1
             ++ ["Calculation error: User has no profile."]
           /\ performance_metrics r
              = {| total_slots_calculated := None; date_range_days := None |}
       end.
Proof.
  intros Hlt. unfold calculate_available_slots, calculate_body.
  destruct (validate_invitee_timezone invitee_timezone) as [w1 itz].
  destruct (validate_invitee_timezones invitee_timezones) as [w2 itzs].
  destruct (profile organizer) as [p|].
  - destruct (resolve_organizer_timezone p) as [w3 otz].
    rewrite collect_all_slots_reversed by exact Hlt. simpl.
    assert (Hmulti :
      match itzs with
      | Some zs =>
          if bool_decide (1 < length zs)%nat
          then calculate_multi_invitee_intersection [] zs p
          else []
      | None => []
      end = []).
    { destruct itzs as [zs|]; [|reflexivity].
      destruct (bool_decide (1 < length zs)%nat); reflexivity. }
    rewrite Hmulti. simpl. eexists. split; [reflexivity|]. simpl.
    rewrite <- app_assoc. repeat split. lia.
  - eexists. split; [reflexivity|]. simpl.
    rewrite <- app_assoc. repeat split. lia.
Qed.

(** Without a profile the handler of the [try] answers: no slots, and
    metrics without [date_range_days]. *)
Lemma no_profile_is_caught (db : Database) (organizer : User)
    (event_type : EventType) (start_date end_date : Z)
    (invitee_timezone : string) (attendee_count : Z)
    (invitee_timezones : option (list string)) :
  profile organizer = None ->
  exists r,
    calculate_available_slots db organizer event_type start_date end_date
      invitee_timezone attendee_count invitee_timezones = Some r
    /\ slots r = []
    /\ date_range_days (performance_metrics r) = None.
Proof.
  intros Hp. unfold calculate_available_slots, calculate_body.
  destruct (validate_invitee_timezone invitee_timezone) as [w1 itz].
  destruct (validate_invitee_timezones invitee_timezones) as [w2 itzs].
  rewrite Hp. eexists. split; [reflexivity|]. split; reflexivity.
Qed.

End Orchestrator.

(** ** One day and the whole range *)

Section Days.
Context {zones : ZoneDb}.

Lemma StronglySorted_Forall_impl {A} (R R' : relation A) (P : A -> Prop)
    (l : list A) :
  (forall a b, P a -> P b -> R a b -> R' a b) ->
  Forall P l -> StronglySorted R l -> StronglySorted R' l.
Proof.
  intros Himp HP Hs. induction Hs as [|x l Hs IH Hx]; [constructor|].
  apply Forall_cons in HP as [Px HP]. constructor; [auto|].
  rewrite Forall_forall in Hx. rewrite Forall_forall in HP.
  rewrite Forall_forall. intros y Hy. auto.
Qed.

Lemma daily_intervals_in_order (db : Database) (organizer : User)
    (event_type : EventType) (d : Z) (tzname : string) :
  zone_known tzname = true ->
  day_in_order db organizer event_type d ->
  exists ivs,
    _get_daily_available_intervals db organizer event_type d tzname = Done ivs
    /\ StronglySorted separated ivs
    /\ Forall (fun w => d * DAY <= w.1 /\ w.2 < (d + 1) * DAY) ivs.
Proof.
  intros Hz [Hwithin Hone].
  unfold _get_daily_available_intervals, day_windows in *.
  destruct (applicable_overrides db organizer event_type d) as [|o ovs] eqn:E.
  - rewrite rule_intervals_known by exact Hz. simpl.
    eexists. split; [reflexivity|].
    split; [apply merge_overlapping_intervals_separated|].
    eapply Forall_impl.
    + apply (merge_overlapping_intervals_within (d * DAY) ((d + 1) * DAY - 1)).
      eapply Forall_impl; [exact Hwithin|]. simpl. intros w. lia.
    + simpl. intros w. lia.
  - rewrite override_intervals_known by exact Hz.
    eexists. split; [reflexivity|]. split; [|exact Hwithin].
    specialize (Hone ltac:(discriminate)).
    destruct (available_windows d (o :: ovs)) as [|w [|w' ws]];
      [constructor| |simpl in Hone; lia].
    repeat constructor.
Qed.

(** A day in order: its slots come back, increasing, all starting on the
    date and in the organizer's zone. *)
Lemma daily_slots_in_order (db : Database) (organizer : User)
    (event_type : EventType) (d : Z) (tzname itz : string)
    (count bb ba gap step : Z) :
  zone_known tzname = true -> 0 < step -> 0 <= duration event_type ->
  day_in_order db organizer event_type d ->
  exists l,
    _calculate_daily_slots db organizer event_type d tzname itz count bb ba gap
      step = Done l
    /\ StronglySorted starts_before l
    /\ Forall (starts_on (Zone tzname) d) l.
Proof.
  intros Hz Hstep Hdur Hday. unfold _calculate_daily_slots.
  destruct (daily_intervals_in_order db organizer event_type d tzname Hz Hday)
    as (ivs & -> & Hsep & Hwithin). simpl.
  destruct ivs as [|iv ivs]; [exists []; repeat split; constructor|].
  destruct (potential_slots_increasing (Zone tzname) (duration event_type) step
              (iv :: ivs) Hstep Hdur Hsep) as (pl & Epl & Hinc).
  rewrite Epl. simpl. eexists. split; [reflexivity|]. split.
  - apply StronglySorted_filter, Hinc.
  - apply Forall_forall. intros s Hs.
    apply list_elem_of_filter in Hs as [_ Hs].
    pose proof (potential_slots_within _ _ _ _ _ Epl) as Hw.
    rewrite Forall_forall in Hw. destruct (Hw s Hs) as (w & Hin & Hsw).
    rewrite Forall_forall in Hwithin. specialize (Hwithin w Hin).
    destruct Hsw as (Htz & _ & Hlo & Hend & Hhi).
    split; [exact Htz|]. unfold MINUTE in *. lia.
Qed.

Lemma all_slots_loop_in_order (daily : Z -> outcome (list slot))
    (zone : tzinfo) (dates : list Z) :
  StronglySorted Z.lt dates ->
  (forall d, d ∈ dates ->
     exists l, daily d = Done l /\ StronglySorted starts_before l
               /\ Forall (starts_on zone d) l) ->
  exists l,
    all_slots_loop daily dates = Done l
    /\ StronglySorted starts_before l
    /\ Forall (fun s => exists d, d ∈ dates /\ starts_on zone d s) l.
Proof.
  induction dates as [|d dates IH]; intros Hsorted Hdaily; simpl.
  - exists []. repeat split; constructor.
  - apply StronglySorted_cons in Hsorted as [Hd Hsorted].
    destruct (Hdaily d ltac:(left)) as (l1 & -> & S1 & O1).
    destruct (IH Hsorted) as (l2 & -> & S2 & O2).
    { intros d' Hd'. apply Hdaily. right. exact Hd'. }
    simpl. eexists. split; [reflexivity|]. split.
    + apply StronglySorted_app_2; [|assumption..].
      intros x1 x2 Hx1 Hx2.
      rewrite Forall_forall in O1. rewrite Forall_forall in O2.
      rewrite Forall_forall in Hd.
      destruct (O1 x1 Hx1) as [_ H1].
      destruct (O2 x2 Hx2) as (d' & Hd' & _ & H2).
      specialize (Hd d' Hd'). unfold starts_before, DAY in *. nia.
    + apply Forall_app. split.
      * eapply Forall_impl; [exact O1|]. intros s Hs. exists d. split; [left|auto].
      * eapply Forall_impl; [exact O2|].
        intros s (d' & Hd' & Hs). exists d'. split; [right|]; auto.
Qed.

Lemma dates_from_sorted (start_date end_date : Z) :
  StronglySorted Z.lt (dates_from start_date end_date)
  /\ forall d, d ∈ dates_from start_date end_date -> start_date <= d <= end_date.
Proof.
  unfold dates_from.
  remember (Z.to_nat (end_date - start_date + 1)) as n eqn:Hn.
  assert (Hb : forall i, i ∈ seq 0 n -> start_date + Z.of_nat i <= end_date).
  { intros i Hi. apply elem_of_seq in Hi. lia. }
  clear Hn. split.
  - generalize 0%nat. clear Hb.
    induction n as [|n IH]; intros k; simpl; [constructor|].
    constructor; [apply IH|].
    apply Forall_fmap, Forall_forall. intros i Hi.
    apply elem_of_seq in Hi. simpl. lia.
  - intros d Hd. apply list_elem_of_fmap in Hd as (i & -> & Hi).
    specialize (Hb i Hi). lia.
Qed.

End Days.

(** ** Multi-invitee sort *)

Section Fairness.
Context {zones : ZoneDb}.

Lemma multi_invitee_sorted (l : list out_slot) (zs : list string) (p : Profile) :
  StronglySorted (fun a b => (fairness_key b <= fairness_key a)%Qc)
    (calculate_multi_invitee_intersection l zs p)
  /\ (StronglySorted start_le l ->
      StronglySorted fairness_then_start
        (calculate_multi_invitee_intersection l zs p)).
Proof.
  unfold calculate_multi_invitee_intersection.
  set (enhance := with_invitee_times _ _ _).
  set (gb := fun y x : out_slot => bool_decide (fairness_key x < fairness_key y)%Qc).
  assert (Hbase : forall x, base (enhance x) = base x).
  { intros x. unfold enhance, with_invitee_times.
    destruct (invitee_loop _ _ _ _ _). reflexivity. }
  assert (Hasym : forall a b, gb a b = true -> gb b a = false).
  { intros a b. unfold gb. rewrite bool_decide_eq_true, bool_decide_eq_false.
    intros Hlt Hgt. exact (Qclt_not_le _ _ Hlt (Qclt_le_weak _ _ Hgt)). }
  assert (Hneg : forall a b c, gb b a = false -> gb c b = false -> gb c a = false).
  { intros a b c. unfold gb. rewrite !bool_decide_eq_false.
    intros H1 H2 H3. apply Qcnot_lt_le in H1, H2.
    exact (Qclt_not_le _ _ H3 (Qcle_trans _ _ _ H2 H1)). }
  split.
  - eapply StronglySorted_impl;
      [|apply (py_sorted_sorted gb (fun _ _ => True) Hasym Hneg),
         StronglySorted_True].
    intros a b [Hba _]. unfold gb in Hba.
    apply bool_decide_eq_false in Hba. apply Qcnot_lt_le in Hba. exact Hba.
  - intros Hs.
    eapply StronglySorted_impl;
      [|apply (py_sorted_sorted gb start_le Hasym Hneg)].
    + intros a b [Hba [Hab|Hab]]; unfold gb in *.
      * left. apply bool_decide_eq_true in Hab. exact Hab.
      * apply bool_decide_eq_false in Hba. apply Qcnot_lt_le in Hba.
        destruct (Qcle_lt_or_eq _ _ Hba) as [Hlt|Heq]; [left; exact Hlt|].
        right. split; [symmetry; exact Heq|exact Hab].
    + eapply StronglySorted_fmap; [|exact Hs].
      intros x y. unfold start_le. rewrite !Hbase. auto.
Qed.

End Fairness.

(** ** The order of the slots and the place of the overrides *)

Section Claims.
Context {zones : ZoneDb}.

Lemma dt_ltb_same_zone (a b : datetime) :
  tz a = tz b -> dt_ltb a b = (wall a <? wall b).
Proof. intros Htz. unfold dt_ltb. destruct (decide (tz a = tz b)); done. Qed.

(** C5 (amended): when the organizer's zone resolves, the stride is
    positive, the duration is not negative, and on every date of the
    range the windows lie within the date, with at most one window on a
    date resolved through overrides, the loop over the dates returns the
    accepted slots in strictly increasing order of their starts, as
    Python compares them, and of their instants when the offsets of the
    zone keep the order of its readings. The multi-invitee pass returns
    its slots by fairness descending, slots of equal fairness in the
    order they came in: ascending by start when the input was. *)
Theorem accepted_slots_order (db : Database) (organizer : User)
    (event_type : EventType) (start_date end_date : Z)
    (organizer_timezone invitee_timezone : string) (attendee_count : Z) :
  zone_known organizer_timezone = true ->
  0 <= duration event_type ->
  0 < or_default (slot_interval_minutes event_type)
        (bt_slot_interval_minutes (get_or_create_buffer db organizer)) ->
  (forall d, start_date <= d <= end_date ->
     day_in_order db organizer event_type d) ->
  (exists l,
     collect_all_slots db organizer event_type start_date end_date
       organizer_timezone invitee_timezone attendee_count = Done l
     /\ StronglySorted
          (fun a b => dt_ltb (start_time a) (start_time b) = true) l
     /\ (offset_keeps_order organizer_timezone ->
         StronglySorted
           (fun a b => instant (start_time a) < instant (start_time b)) l))
  /\ forall (l : list out_slot) (zs : list string) (p : Profile),
       StronglySorted (fun a b => (fairness_key b <= fairness_key a)%Qc)
         (calculate_multi_invitee_intersection l zs p)
       /\ (StronglySorted start_le l ->
           StronglySorted fairness_then_start
             (calculate_multi_invitee_intersection l zs p)).
Proof.
  intros Hz Hdur Hstep Hdays. split; [|apply multi_invitee_sorted].
  unfold collect_all_slots.
  destruct (dates_from_sorted start_date end_date) as [Hsorted Hrange].
  destruct (all_slots_loop_in_order
              (fun current_date =>
                 _calculate_daily_slots db organizer event_type current_date
                   organizer_timezone invitee_timezone attendee_count
                   (or_default (buffer_time_before event_type)
                      (default_buffer_before (get_or_create_buffer db organizer)))
                   (or_default (buffer_time_after event_type)
                      (default_buffer_after (get_or_create_buffer db organizer)))
                   (minimum_gap (get_or_create_buffer db organizer))
                   (or_default (slot_interval_minutes event_type)
                      (bt_slot_interval_minutes
                         (get_or_create_buffer db organizer))))
              (Zone organizer_timezone) (dates_from start_date end_date) Hsorted)
    as (l & El & Hinc & Hon).
  { intros d Hd. apply daily_slots_in_order; auto. }
  assert (Hzone : Forall (fun s => tz (start_time s) = Zone organizer_timezone) l).
  { eapply Forall_impl; [exact Hon|]. intros s (d & _ & Htz & _). exact Htz. }
  exists l. split; [exact El|]. split.
  - eapply (StronglySorted_Forall_impl starts_before); [|exact Hzone|exact Hinc].
    intros a b Ha Hb Hab. rewrite dt_ltb_same_zone by congruence.
    apply Z.ltb_lt. exact Hab.
  - intros Hkeep.
    eapply (StronglySorted_Forall_impl starts_before); [|exact Hzone|exact Hinc].
    intros a b Ha Hb Hab. unfold instant, utcoffset. rewrite Ha, Hb.
    apply Hkeep. exact Hab.
Qed.

(** C1 (amended): [is_slot_blocked] is the disjunction of the one-time
    and the recurring check and does not read the overrides. The
    date-override exclusion is the resolver's: on a date with an
    applicable active override every slot of the day lies within the
    window of an applicable override that is available, and there is no
    slot when none is available. *)
Theorem slot_blocked_ignores_overrides (db : Database) (organizer : User)
    (event_type : EventType) (s : slot) (d : Z) (tzname itz : string)
    (count bb ba gap step : Z) :
  (is_slot_blocked db organizer s d = true
   <-> is_slot_blocked_by_one_time db organizer s = true
       \/ is_slot_blocked_by_recurring db organizer s d = true)
  /\ (forall overrides,
        is_slot_blocked (with_date_overrides db overrides) organizer s d
        = is_slot_blocked db organizer s d)
  /\ (applicable_overrides db organizer event_type d <> [] ->
      forall l,
        _calculate_daily_slots db organizer event_type d tzname itz count bb ba
          gap step = Done l ->
        forall x, x ∈ l ->
          exists o st en,
            o ∈ applicable_overrides db organizer event_type d
            /\ do_is_available o = true
            /\ do_start_time o = Some st /\ do_end_time o = Some en
            /\ slot_within (Zone tzname) (compose_window d st en).1
                 (compose_window d st en).2 (duration event_type) x)
  /\ (applicable_overrides db organizer event_type d <> [] ->
      (forall o, o ∈ applicable_overrides db organizer event_type d ->
         do_is_available o = false) ->
      _calculate_daily_slots db organizer event_type d tzname itz count bb ba
        gap step = Done []).
Proof.
  split; [|split; [|split]].
  - unfold is_slot_blocked. apply orb_true_iff.
  - intros overrides. reflexivity.
  - intros Hne l Hl x Hx.
    unfold _calculate_daily_slots, _get_daily_available_intervals in Hl.
    destruct (applicable_overrides db organizer event_type d) as [|o ovs] eqn:E;
      [congruence|].
    destruct (override_intervals d tzname (o :: ovs)) as [ivs| |] eqn:Eiv;
      simpl in Hl; try discriminate.
    apply override_intervals_done in Eiv. subst ivs.
    destruct (available_windows d (o :: ovs)) as [|w ws] eqn:Ew.
    { injection Hl as <-. inversion Hx. }
    destruct (potential_slots (Zone tzname) (duration event_type) step (w :: ws))
      as [pl| |] eqn:Epl; simpl in Hl; try discriminate.
    injection Hl as <-. apply list_elem_of_filter in Hx as [_ Hx].
    pose proof (potential_slots_within _ _ _ _ _ Epl) as Hw.
    rewrite Forall_forall in Hw. destruct (Hw x Hx) as (iv & Hiv & Hsw).
    rewrite <- Ew in Hiv.
    apply available_windows_elem_of in Hiv
      as (o' & st & en & Ho' & Hav & Hst & Hen & ->).
    exists o', st, en. auto 10.
  - intros Hne Hclosed.
    unfold _calculate_daily_slots, _get_daily_available_intervals.
    destruct (applicable_overrides db organizer event_type d) as [|o ovs] eqn:E;
      [congruence|].
    rewrite override_intervals_none; [reflexivity|].
    destruct (available_windows d (o :: ovs)) as [|w ws] eqn:Ew; [reflexivity|].
    assert (Hw : w ∈ available_windows d (o :: ovs)) by (rewrite Ew; left).
    apply available_windows_elem_of in Hw as (o' & st & en & Ho' & Hav & _).
    rewrite (Hclosed o' Ho') in Hav. discriminate.
Qed.

End Claims.

(** ** Booking conflict filter *)

Section BookingConflicts.
Context {zones : ZoneDb}.

Lemma conflict_loop_true (db : Database) (organizer : User)
    (event_type : EventType) (s : slot) (attendee_count minimum_gap : Z)
    (protected_start protected_end : datetime) (existing : list Booking) :
  conflict_loop db organizer event_type s attendee_count minimum_gap
    protected_start protected_end existing = true
  <-> exists booking, booking ∈ existing
        /\ decisive db organizer event_type s attendee_count minimum_gap
             protected_start protected_end booking.
Proof.
  unfold decisive. induction existing as [|b rest IH]; simpl.
  - split; [discriminate|]. intros (b & Hb & _). inversion Hb.
  - destruct (zones_overlap b minimum_gap protected_start protected_end) eqn:Hz.
    + destruct (is_group_event event_type) eqn:Hg; simpl.
      * case_bool_decide as Hty.
        -- destruct (Z.gtb_spec
                       (total_confirmed_attendees db organizer event_type s
                        + attendee_count) (max_attendees event_type)) as [Hgt|Hle].
           ++ split; [|reflexivity]. intros _. exists b.
              split; [left|]. split; [exact Hz|]. left. repeat split; auto. lia.
           ++ rewrite IH. split.
              ** intros (b' & Hb' & Hd). exists b'. split; [right; exact Hb'|exact Hd].
              ** intros (b' & Hb' & Hz' & Hd).
                 apply elem_of_cons in Hb' as [->|Hb'].
                 --- destruct Hd as [(_ & _ & Hgt)|Hno]; [lia|].
                     exfalso. apply Hno. split; auto.
                 --- exists b'. repeat split; auto.
        -- split; [|reflexivity]. intros _. exists b.
           split; [left|]. split; [exact Hz|]. right. intros [_ Hty']. auto.
      * split; [|reflexivity]. intros _. exists b.
        split; [left|]. split; [exact Hz|]. right. intros [Hg' _]. discriminate.
    + rewrite IH. split.
      * intros (b' & Hb' & Hd). exists b'. split; [right; exact Hb'|exact Hd].
      * intros (b' & Hb' & Hz' & Hd).
        apply elem_of_cons in Hb' as [->|Hb'].
        -- congruence.
        -- exists b'. repeat split; auto.
Qed.

(** The filter answers true exactly when some booking of the first query
    is decisive. *)
Lemma is_slot_conflicting_true (db : Database) (organizer : User)
    (event_type : EventType) (s : slot)
    (attendee_count buffer_before buffer_after minimum_gap : Z) :
  let protected_start := add_minutes (start_time s) (- buffer_before) in
  let protected_end := add_minutes (end_time s) buffer_after in
  is_slot_conflicting_with_bookings db organizer event_type s attendee_count
    buffer_before buffer_after minimum_gap = true
  <-> exists booking,
        booking ∈ existing_bookings db organizer protected_start protected_end
        /\ decisive db organizer event_type s attendee_count minimum_gap
             protected_start protected_end booking.
Proof. apply conflict_loop_true. Qed.

Lemma total_confirmed_attendees_max (db : Database) (organizer : User)
    (event_type : EventType) (s : slot) (m : Z) :
  total_confirmed_attendees db organizer (with_max_attendees event_type m) s
  = total_confirmed_attendees db organizer event_type s.
Proof. reflexivity. Qed.

(** C4 (amended): for a group event and a confirmed booking of the same
    event type that the first query returns and whose protected zone
    overlaps that of the candidate, the filter reports a conflict exactly
    when the attendees of the confirmed bookings of that event type
    overlapping the raw slot plus the requested count exceed
    [max_attendees], or some other booking of the first query with an
    overlapping protected zone belongs to another event type. With only
    bookings of this event type around, a sum that reaches [max_attendees]
    exactly is no conflict. *)
Theorem group_capacity_conflict (db : Database) (organizer : User)
    (event_type : EventType) (s : slot)
    (attendee_count buffer_before buffer_after minimum_gap : Z)
    (booking : Booking) :
  let protected_start := add_minutes (start_time s) (- buffer_before) in
  let protected_end := add_minutes (end_time s) buffer_after in
  let existing := existing_bookings db organizer protected_start protected_end in
  let other_type b :=
    b ∈ existing
    /\ zones_overlap b minimum_gap protected_start protected_end = true
    /\ bk_event_type_id b <> et_id event_type in
  is_group_event event_type = true ->
  booking ∈ existing ->
  bk_event_type_id booking = et_id event_type ->
  zones_overlap booking minimum_gap protected_start protected_end = true ->
  (is_slot_conflicting_with_bookings db organizer event_type s attendee_count
     buffer_before buffer_after minimum_gap = true
   <-> total_confirmed_attendees db organizer event_type s + attendee_count
       > max_attendees event_type
       \/ exists b, other_type b)
  /\ (total_confirmed_attendees db organizer event_type s + attendee_count
      = max_attendees event_type ->
      (forall b, ~ other_type b) ->
      is_slot_conflicting_with_bookings db organizer event_type s attendee_count
        buffer_before buffer_after minimum_gap = false).
Proof.
  intros ps pe existing other_type Hg Hin Hty Hz.
  assert (Hiff :
    is_slot_conflicting_with_bookings db organizer event_type s attendee_count
      buffer_before buffer_after minimum_gap = true
    <-> total_confirmed_attendees db organizer event_type s + attendee_count
        > max_attendees event_type
        \/ exists b, other_type b).
  { rewrite is_slot_conflicting_true. fold ps pe existing. unfold decisive. split.
    - intros (b & Hb & Hzb & [(_ & _ & Hgt)|Hno]).
      + left. exact Hgt.
      + right. exists b. repeat split; auto.
    - intros [Hgt|(b & Hb & Hzb & Hne)].
      + exists booking. repeat split; auto.
      + exists b. repeat split; auto. right. intros [_ Hty']. auto. }
  split; [exact Hiff|].
  intros Heq Hnone. apply not_true_is_false. rewrite Hiff.
  intros [Hgt|(b & Hb)]; [lia|]. exact (Hnone b Hb).
Qed.

(** C9: with the organizer, the bookings, the slot and the buffers fixed,
    a slot that is not conflicting stays so when [max_attendees] is
    raised, and a slot that is conflicting stays so when the requested
    [attendee_count] is raised. *)
Theorem conflict_monotone_in_capacity (db : Database) (organizer : User)
    (event_type : EventType) (s : slot)
    (attendee_count attendee_count' max_attendees' : Z)
    (buffer_before buffer_after minimum_gap : Z) :
  max_attendees event_type <= max_attendees' ->
  attendee_count <= attendee_count' ->
  (is_slot_conflicting_with_bookings db organizer event_type s attendee_count
     buffer_before buffer_after minimum_gap = false ->
   is_slot_conflicting_with_bookings db organizer
     (with_max_attendees event_type max_attendees') s attendee_count
     buffer_before buffer_after minimum_gap = false)
  /\ (is_slot_conflicting_with_bookings db organizer event_type s attendee_count
        buffer_before buffer_after minimum_gap = true ->
      is_slot_conflicting_with_bookings db organizer event_type s attendee_count'
        buffer_before buffer_after minimum_gap = true).
Proof.
  intros Hmax Hcount. split.
  - intros Hfree. apply not_true_is_false. intros Hconf.
    apply not_true_iff_false in Hfree. apply Hfree.
    apply is_slot_conflicting_true. apply is_slot_conflicting_true in Hconf.
    destruct Hconf as (b & Hb & Hz & Hd). exists b.
    split; [exact Hb|]. split; [exact Hz|].
    destruct Hd as [(Hg & Hty & Hgt)|Hno].
    + left. repeat split; auto.
      rewrite total_confirmed_attendees_max in Hgt. simpl in Hgt. lia.
    + right. exact Hno.
  - intros Hconf.
    apply is_slot_conflicting_true. apply is_slot_conflicting_true in Hconf.
    destruct Hconf as (b & Hb & Hz & Hd). exists b.
    split; [exact Hb|]. split; [exact Hz|].
    destruct Hd as [(Hg & Hty & Hgt)|Hno].
    + left. repeat split; auto. lia.
    + right. exact Hno.
Qed.

End BookingConflicts.

(** Scenario 5 of the specification: capacity 3, one booking of two
    attendees from 09:00 to 09:30, a request for two. *)
Example group_capacity_scenario :
  let db := with_bookings empty_db [confirmed_booking 1 9 0 9 30 2] in
  is_slot_conflicting_with_bookings (zones := utc_only) db organizer1 (group_class 3)
    (monday_slot 9 0 30) 2 0 0 0 = true
  /\ is_slot_conflicting_with_bookings (zones := utc_only) db organizer1 (group_class 3)
       (monday_slot 9 30 30) 2 0 0 0 = false.
Proof. split; vm_compute; reflexivity. Qed.

(** C4, as the claim states it, fails: a group event of capacity 10, a
    confirmed booking of its type with two attendees and a confirmed
    booking of another type, both from 09:00 to 09:30. For the slot at
    09:00 and a request of one the sum is 2 + 1 = 3, not above 10, and
    the filter reports a conflict. *)
Lemma other_type_booking_conflicts :
  let db := with_bookings empty_db
              [confirmed_booking 1 9 0 9 30 2; confirmed_booking 2 9 0 9 30 1] in
  let s := monday_slot 9 0 30 in
  existing_bookings (zones := utc_only) db organizer1 (add_minutes (start_time s) (- 0))
    (add_minutes (end_time s) 0)
  = [confirmed_booking 1 9 0 9 30 2; confirmed_booking 2 9 0 9 30 1]
  /\ zones_overlap (zones := utc_only) (confirmed_booking 1 9 0 9 30 2) 0
       (add_minutes (start_time s) (- 0)) (add_minutes (end_time s) 0) = true
  /\ total_confirmed_attendees (zones := utc_only) db organizer1 (group_class 10) s + 1 = 3
  /\ (3 >? max_attendees (group_class 10)) = false
  /\ is_slot_conflicting_with_bookings (zones := utc_only) db organizer1 (group_class 10)
       s 1 0 0 0 = true.
Proof. repeat split; vm_compute; reflexivity. Qed.

Lemma group_capacity_conflict_witness :
  let db := with_bookings empty_db [confirmed_booking 1 9 0 9 30 2] in
  let s := monday_slot 9 0 30 in
  is_slot_conflicting_with_bookings (zones := utc_only) db organizer1 (group_class 4)
    s 2 0 0 0 = false.
Proof.
  intros db s.
  refine (proj2 (group_capacity_conflict (zones := utc_only) db organizer1
                   (group_class 4) s 2 0 0 0 (confirmed_booking 1 9 0 9 30 2)
                   eq_refl _ eq_refl _) _ _).
  - vm_compute. left.
  - vm_compute. reflexivity.
  - vm_compute. reflexivity.
  - intros b (Hb & _ & Hne). vm_compute in Hb.
    apply list_elem_of_singleton in Hb. subst b. apply Hne. reflexivity.
Defined.

Lemma conflict_monotone_in_capacity_witness :
  let db := with_bookings empty_db [confirmed_booking 1 9 0 9 30 2] in
  let s := monday_slot 9 0 30 in
  (is_slot_conflicting_with_bookings (zones := utc_only) db organizer1 (group_class 4)
     s 2 0 0 0 = false ->
   is_slot_conflicting_with_bookings (zones := utc_only) db organizer1
     (with_max_attendees (group_class 4) 6) s 2 0 0 0 = false)
  /\ (is_slot_conflicting_with_bookings (zones := utc_only) db organizer1 (group_class 4)
        s 2 0 0 0 = true ->
      is_slot_conflicting_with_bookings (zones := utc_only) db organizer1 (group_class 4)
        s 3 0 0 0 = true).
Proof.
  intros db s.
  apply (conflict_monotone_in_capacity (zones := utc_only) db organizer1
           (group_class 4) s 2 3 6 0 0 0); simpl; lia.
Defined.

(** ** The scenarios of the specification, counterexamples and witnesses *)

Example scenario_basic_weekday :
  starts_of (calculate_available_slots (zones := utc_only)
    (with_availability_rules empty_db [monday_rule 9 0 11 0])
    organizer1 meeting monday monday "UTC" 1 None)
  = Some [at_time monday 9 0; at_time monday 9 30; at_time monday 10 0;
          at_time monday 10 30].
Proof. vm_compute. reflexivity. Qed.

Example scenario_override_replaces_rule :
  starts_of (calculate_available_slots (zones := utc_only)
    (with_date_overrides (with_availability_rules empty_db [monday_rule 9 0 11 0])
       [monday_override true (Some (13, 0, 14, 0))])
    organizer1 meeting monday monday "UTC" 1 None)
  = Some [at_time monday 13 0; at_time monday 13 30].
Proof. vm_compute. reflexivity. Qed.

Example scenario_override_closes_day :
  starts_of (calculate_available_slots (zones := utc_only)
    (with_date_overrides (with_availability_rules empty_db [monday_rule 9 0 11 0])
       [monday_override false None])
    organizer1 meeting monday monday "UTC" 1 None)
  = Some [].
Proof. vm_compute. reflexivity. Qed.

Example scenario_two_overrides :
  starts_of (calculate_available_slots (zones := utc_only)
    (with_date_overrides (with_availability_rules empty_db [monday_rule 9 0 11 0])
       [monday_override true (Some (13, 0, 14, 0));
        monday_override true (Some (9, 0, 10, 0))])
    organizer1 meeting monday monday "UTC" 1 None)
  = Some [at_time monday 13 0; at_time monday 13 30; at_time monday 9 0;
          at_time monday 9 30].
Proof. vm_compute. reflexivity. Qed.

Example scenario_reversed_range :
  calculate_available_slots (zones := utc_only)
    (with_availability_rules empty_db [monday_rule 9 0 11 0])
    organizer1 meeting (monday + 3) monday "Mars/Olympus" 1 None
  = Some {| slots := []; warnings := ["Invalid invitee timezone: Mars/Olympus"];
            performance_metrics := {| total_slots_calculated := Some 0;
                                      date_range_days := Some (-2) |} |}.
Proof. vm_compute. reflexivity. Qed.

(** Scenario 4 of the specification: buffers of 15 minutes around the
    candidate and a booking from 10:00 to 10:30 leave the slot at 09:00. *)
Example scenario_buffer_conflict :
  let buffered :=
    {| et_id := 7; duration := 30; buffer_time_before := Some 15;
       buffer_time_after := Some 15; slot_interval_minutes := None;
       is_group_event := false; max_attendees := 1 |} in
  starts_of (calculate_available_slots (zones := utc_only)
    (with_bookings (with_availability_rules empty_db [monday_rule 9 0 11 0])
       [confirmed_booking 7 10 0 10 30 1])
    organizer1 buffered monday monday "UTC" 1 None)
  = Some [at_time monday 9 0].
Proof. vm_compute. reflexivity. Qed.

(** A one-time block from 09:15 to 09:45 and a recurring block on Mondays
    from 10:30 to 11:00 leave the slot at 10:00. *)
Example scenario_blocks :
  let db :=
    {| availability_rules := [monday_rule 9 0 11 0]; date_overrides := [];
       recurring_blocks :=
         [{| rb_organizer := 1; rb_day_of_week := 0;
             rb_start_time := time_of 10 30; rb_end_time := time_of 11 0;
             rb_start_date := None; rb_end_date := None;
             rb_is_active := true |}];
       blocked_times :=
         [{| bl_organizer := 1; bl_start_datetime := utc_time monday 9 15;
             bl_end_datetime := utc_time monday 9 45; bl_is_active := true |}];
       bookings := []; buffer_times := [];
       buffer_field_defaults := (0, 0, 0, 30) |} in
  starts_of (calculate_available_slots (zones := utc_only) db organizer1
               meeting monday monday "UTC" 1 None)
  = Some [at_time monday 10 0].
Proof. vm_compute. reflexivity. Qed.

(** A stride of zero: the loop of the enumerator is never left. *)
Example scenario_zero_stride :
  let db :=
    {| availability_rules := [monday_rule 9 0 11 0]; date_overrides := [];
       recurring_blocks := []; blocked_times := []; bookings := [];
       buffer_times := []; buffer_field_defaults := (0, 0, 0, 0) |} in
  calculate_available_slots (zones := utc_only) db organizer1 meeting monday
    monday "UTC" 1 None = None.
Proof. vm_compute. reflexivity. Qed.

(** An organizer whose zone does not resolve is served in UTC, with a
    warning. *)
Example scenario_unknown_organizer_zone :
  let organizer :=
    {| user_id := 1; email := "organizer@example.org";
       profile := Some {| timezone_name := "Mars/Olympus";
                          reasonable_hours_start := 9;
                          reasonable_hours_end := 18 |} |} in
  (fun r => (warnings r, length (slots r)))
  <$> calculate_available_slots (zones := utc_only)
        (with_availability_rules empty_db [monday_rule 9 0 11 0]) organizer
        meeting monday monday "UTC" 1 None
  = Some (["Invalid organizer timezone, using UTC"], 4%nat).
Proof. vm_compute. reflexivity. Qed.

(** The week after: the rule of the Monday applies again, the Tuesday has
    none. *)
Example scenario_two_days :
  starts_of (calculate_available_slots (zones := utc_only)
    (with_availability_rules empty_db [monday_rule 9 0 10 0])
    organizer1 meeting (monday + 6) (monday + 8) "UTC" 1 None)
  = Some [at_time (monday + 7) 9 0; at_time (monday + 7) 9 30].
Proof. vm_compute. reflexivity. Qed.

(** Fairness: a rule from 08:00 to 09:30 in New York, invitees in New
    York and Tokyo. 09:00 is reasonable in New York alone, the two
    earlier slots nowhere; the slot of fairness 1/2 comes first and the
    two of fairness 0 keep their order. *)
Example scenario_fairness :
  starts_and_scores (calculate_available_slots (zones := fixed_zones)
    (with_availability_rules empty_db [monday_rule 8 0 9 30])
    organizer_ny meeting monday monday "UTC" 1
    (Some ["America/New_York"; "Asia/Tokyo"]))
  = Some [(at_time monday 9 0, Some (1 # 2)%Q);
          (at_time monday 8 0, Some 0%Q);
          (at_time monday 8 30, Some 0%Q)].
Proof. vm_compute. reflexivity. Qed.

(** C1, as the claim states it, fails. An override that closes the
    Monday: the override test of the module answers true for the slot at
    09:00 and [is_slot_blocked] answers false. And with a closing
    override next to one that opens 13:00 to 14:00 the day still has the
    slots at 13:00 and 13:30, which the override test excludes. *)
Lemma override_is_no_disjunct :
  let closed := with_date_overrides empty_db [monday_override false None] in
  let mixed :=
    with_date_overrides empty_db
      [monday_override false None; monday_override true (Some (13, 0, 14, 0))] in
  applicable_overrides closed organizer1 meeting monday
  = [monday_override false None]
  /\ is_slot_blocked_by_override (zones := utc_only) closed organizer1 meeting
       (monday_slot 9 0 30) monday = true
  /\ is_slot_blocked (zones := utc_only) closed organizer1 (monday_slot 9 0 30)
       monday = false
  /\ _calculate_daily_slots (zones := utc_only) mixed organizer1 meeting monday
       "UTC" "UTC" 1 0 0 0 30
     = Done [monday_slot 13 0 30; monday_slot 13 30 30]
  /\ is_slot_blocked_by_override (zones := utc_only) mixed organizer1 meeting
       (monday_slot 13 0 30) monday = true.
Proof. repeat split; vm_compute; reflexivity. Qed.

Lemma overrides_take_precedence_witness :
  let db :=
    with_date_overrides (with_availability_rules empty_db [monday_rule 9 0 11 0])
      [monday_override true (Some (13, 0, 14, 0))] in
  _get_daily_available_intervals (zones := utc_only) db organizer1 meeting
    monday "UTC"
  = override_intervals (zones := utc_only) monday "UTC"
      (applicable_overrides db organizer1 meeting monday)
  /\ forall rules,
       _get_daily_available_intervals (zones := utc_only)
         (with_availability_rules db rules) organizer1 meeting monday "UTC"
       = _get_daily_available_intervals (zones := utc_only) db organizer1
           meeting monday "UTC".
Proof.
  intros db.
  apply (overrides_take_precedence (zones := utc_only) db organizer1 meeting
           monday "UTC" (monday_override true (Some (13, 0, 14, 0))));
    [left|reflexivity..].
Defined.

(** C5, as the claim states it, fails: two overrides on the Monday, the
    later window stored first. The accepted slots come out as 13:00,
    13:30, 09:00, 09:30, also from the whole call, and with two invitee
    zones, where all four slots have fairness 1, the ties stay in that
    order. *)
Lemma two_overrides_out_of_order :
  let db :=
    with_date_overrides empty_db
      [monday_override true (Some (13, 0, 14, 0));
       monday_override true (Some (9, 0, 10, 0))] in
  collect_all_slots (zones := utc_only) db organizer1 meeting monday monday
    "UTC" "UTC" 1
  = Done [monday_slot 13 0 30; monday_slot 13 30 30; monday_slot 9 0 30;
          monday_slot 9 30 30]
  /\ dt_leb (zones := utc_only) (start_time (monday_slot 13 30 30))
       (start_time (monday_slot 9 0 30)) = false
  /\ starts_and_scores (calculate_available_slots (zones := utc_only) db
       organizer1 meeting monday monday "UTC" 1 None)
     = Some [(at_time monday 13 0, None); (at_time monday 13 30, None);
             (at_time monday 9 0, None); (at_time monday 9 30, None)]
  /\ starts_and_scores (calculate_available_slots (zones := utc_only) db
       organizer1 meeting monday monday "UTC" 1 (Some ["UTC"; "UTC"]))
     = Some [(at_time monday 13 0, Some 1%Q); (at_time monday 13 30, Some 1%Q);
             (at_time monday 9 0, Some 1%Q); (at_time monday 9 30, Some 1%Q)].
Proof. repeat split; vm_compute; reflexivity. Qed.

(** A rule that spans midnight also breaks the order, across two days. *)
Example midnight_rule_out_of_order :
  let tuesday_rule :=
    {| ar_organizer := 1; ar_day_of_week := 1; ar_start_time := time_of 0 0;
       ar_end_time := time_of 0 30; ar_event_types := []; ar_is_active := true |} in
  starts_of (calculate_available_slots (zones := utc_only)
    (with_availability_rules empty_db [monday_rule 23 0 1 0; tuesday_rule])
    organizer1 meeting monday (monday + 1) "UTC" 1 None)
  = Some [at_time monday 23 0; at_time monday 23 30; at_time (monday + 1) 0 0;
          at_time (monday + 1) 0 30; at_time (monday + 1) 0 0].
Proof. vm_compute. reflexivity. Qed.

Lemma accepted_slots_order_witness :
  exists l,
    collect_all_slots (zones := utc_only)
      (with_availability_rules empty_db
         [monday_rule 10 0 11 0; monday_rule 9 0 10 0])
      organizer1 meeting monday monday "UTC" "UTC" 1 = Done l
    /\ StronglySorted
         (fun a b =>
            dt_ltb (zones := utc_only) (start_time a) (start_time b) = true) l
    /\ (offset_keeps_order (zones := utc_only) "UTC" ->
        StronglySorted
          (fun a b =>
             instant (zones := utc_only) (start_time a)
             < instant (zones := utc_only) (start_time b)) l).
Proof.
  refine (proj1 (accepted_slots_order (zones := utc_only)
    (with_availability_rules empty_db
       [monday_rule 10 0 11 0; monday_rule 9 0 10 0])
    organizer1 meeting monday monday "UTC" "UTC" 1 eq_refl _ _ _)).
  - simpl. lia.
  - vm_compute. reflexivity.
  - intros d Hd. assert (d = monday) as -> by lia.
    unfold day_in_order.
    assert (Hw : day_windows
                   (with_availability_rules empty_db
                      [monday_rule 10 0 11 0; monday_rule 9 0 10 0])
                   organizer1 meeting monday
                 = [(at_time monday 10 0, at_time monday 11 0);
                    (at_time monday 9 0, at_time monday 10 0)])
      by (vm_compute; reflexivity).
    rewrite Hw. split.
    + repeat constructor; vm_compute; congruence.
    + intros Hne. exfalso. apply Hne. vm_compute. reflexivity.
Defined.

(** C10, as the claim states it, fails for an organizer without a
    profile: reading the profile raises inside the [try], the handler
    answers, and the metrics carry no [date_range_days]. *)
Lemma reversed_range_without_profile :
  let organizer :=
    {| user_id := 1; email := "organizer@example.org"; profile := None |} in
  calculate_available_slots (zones := utc_only)
    (with_availability_rules empty_db [monday_rule 9 0 11 0])
    organizer meeting (monday + 3) monday "UTC" 1 None
  = Some {| slots := [];
            warnings := ["Calculation error: User has no profile."];
            performance_metrics :=
              {| total_slots_calculated := None; date_range_days := None |} |}.
Proof. vm_compute. reflexivity. Qed.

Lemma reversed_range_returns_empty_witness :
  exists r,
    calculate_available_slots (zones := utc_only)
      (with_availability_rules empty_db [monday_rule 9 0 11 0])
      organizer1 meeting (monday + 3) monday "Mars/Olympus" 1 None = Some r
    /\ slots r = []
    /\ -2 <= 0
    /\ warnings r = ["Invalid invitee timezone: Mars/Olympus"]
    /\ performance_metrics r
       = {| total_slots_calculated := Some 0; date_range_days := Some (-2) |}.
Proof.
  exact (reversed_range_returns_empty (zones := utc_only)
           (with_availability_rules empty_db [monday_rule 9 0 11 0])
           organizer1 meeting (monday + 3) monday "Mars/Olympus" 1 None
           ltac:(unfold monday; lia)).
Defined.

(* ===================================================================== *)
(** * Further properties of the time-of-day primitives *)
(* ===================================================================== *)

Lemma overlap_minutes_sym (adj : bool) (s1 e1 s2 e2 : Z) :
  overlap_minutes adj s1 e1 s2 e2 = overlap_minutes adj s2 e2 s1 e1.
Proof.
  unfold overlap_minutes. destruct adj.
  - destruct (Z.leb_spec s1 e2), (Z.geb_spec e1 s2), (Z.leb_spec s2 e1),
      (Z.geb_spec e2 s1); simpl; try reflexivity; lia.
  - destruct (Z.ltb_spec s1 e2), (Z.gtb_spec e1 s2), (Z.ltb_spec s2 e1),
      (Z.gtb_spec e2 s1); simpl; try reflexivity; lia.
Qed.

(** X1: the overlap check is symmetric in its two intervals, for every
    four strings and both settings of the flag. *)
Theorem overlapping_symmetric (start1 end1 start2 end2 : string) (adj : bool) :
  are_time_intervals_overlapping start1 end1 start2 end2 adj
  = are_time_intervals_overlapping start2 end2 start1 end1 adj.
Proof.
  unfold are_time_intervals_overlapping.
  replace (truthy start2 && truthy end2 && truthy start1 && truthy end1)
    with (truthy start1 && truthy end1 && truthy start2 && truthy end2)
    by (destruct (truthy start1), (truthy end1), (truthy start2),
          (truthy end2); reflexivity).
  destruct (negb _); [reflexivity|]. cbv zeta. apply overlap_minutes_sym.
Qed.

(** X2: two intervals that overlap strictly also overlap when adjacency
    counts. *)
Theorem strict_overlap_is_inclusive (start1 end1 start2 end2 : string) :
  are_time_intervals_overlapping start1 end1 start2 end2 false = true ->
  are_time_intervals_overlapping start1 end1 start2 end2 true = true.
Proof.
  unfold are_time_intervals_overlapping.
  destruct (negb _); [discriminate|]. cbv zeta. unfold overlap_minutes.
  rewrite !andb_true_iff, Z.ltb_lt, Z.gtb_gt, Z.leb_le, Z.geb_ge. lia.
Qed.

Lemma strict_overlap_is_inclusive_witness :
  are_time_intervals_overlapping "22:00:00" "02:00:00" "23:30:00" "00:30:00" true
  = true.
Proof.
  apply (strict_overlap_is_inclusive "22:00:00" "02:00:00" "23:30:00" "00:30:00").
  reflexivity.
Defined.

(** ** Rendering a time and reading it back *)

Lemma is_digit_digit_char (n : Z) : 0 <= n <= 9 -> is_digit (digit_char n) = true.
Proof.
  intros Hn. unfold is_digit, digit_char.
  rewrite nat_ascii_embedding by lia.
  apply andb_true_intro. split; apply Nat.leb_le; lia.
Qed.

Lemma digit_val_digit_char (n : Z) : 0 <= n <= 9 -> digit_val (digit_char n) = n.
Proof.
  intros Hn. unfold digit_val, digit_char.
  rewrite nat_ascii_embedding by lia. lia.
Qed.

Lemma int_of_str_pad2 (n : Z) : 0 <= n <= 99 -> int_of_str (pad2 n) = Some n.
Proof.
  intros Hn. destruct (digits2 n Hn) as (H1 & H0 & Hsum).
  unfold pad2. rewrite int_of_str_two_digits by (apply is_digit_digit_char; lia).
  rewrite !digit_val_digit_char by lia. f_equal. lia.
Qed.

Lemma two_digits_pad2 (n bound : Z) :
  0 <= n <= 99 -> n < bound -> two_digits (pad2 n) bound = true.
Proof.
  intros Hn Hb. destruct (digits2 n Hn) as (H1 & H0 & Hsum).
  unfold pad2, two_digits.
  rewrite !is_digit_digit_char, !digit_val_digit_char by lia. simpl.
  apply Z.ltb_lt. lia.
Qed.

Lemma split_colon_pad2 (n : Z) (rest : string) :
  0 <= n <= 99 ->
  split_colon (pad2 n +:+ ":" +:+ rest) = pad2 n :: split_colon rest.
Proof.
  intros Hn. destruct (digits2 n Hn) as (H1 & H0 & _).
  unfold pad2. rewrite !append_cons, !append_nil.
  cbn [split_colon]. rewrite !digit_char_colon_free by lia.
  change (Ascii.eqb ":" ":") with true. cbv iota.
  destruct (split_colon rest); reflexivity.
Qed.

Lemma split_colon_pad2_last (n : Z) :
  0 <= n <= 99 -> split_colon (pad2 n) = [pad2 n].
Proof.
  intros Hn. destruct (digits2 n Hn) as (H1 & H0 & _).
  unfold pad2. cbn [split_colon]. rewrite !digit_char_colon_free by lia.
  reflexivity.
Qed.

(** The fields of a time. *)
Lemma time_fields (t : Z) :
  valid_time t ->
  0 <= t / HOUR <= 23 /\ 0 <= (t / MINUTE) `mod` 60 <= 59
  /\ 0 <= (t / SECOND) `mod` 60 <= 59
  /\ t / HOUR * 60 + (t / MINUTE) `mod` 60 = t / MINUTE
  /\ 0 <= t / MINUTE < 1440.
Proof.
  unfold valid_time, DAY, HOUR, MINUTE, SECOND. intros Ht.
  assert (E : t / 3600000000 = t / 60000000 / 60)
    by (rewrite Z.div_div by lia; reflexivity).
  rewrite E.
  pose proof (Z.div_mod (t / 60000000) 60 ltac:(lia)).
  pose proof (Z.mod_pos_bound (t / 60000000) 60 ltac:(lia)).
  pose proof (Z.mod_pos_bound (t / 1000000) 60 ltac:(lia)).
  assert (0 <= t / 60000000 < 1440).
  { split; [apply Z.div_pos; lia|apply Z.div_lt_upper_bound; lia]. }
  assert (0 <= t / 60000000 / 60 <= 23).
  { split; [apply Z.div_pos; lia|].
    apply Z.lt_succ_r, Z.div_lt_upper_bound; lia. }
  lia.
Qed.

Lemma strftime_split (t : Z) :
  valid_time t ->
  split_colon (strftime_hms t)
  = [pad2 (t / HOUR); pad2 ((t / MINUTE) `mod` 60);
     pad2 ((t / SECOND) `mod` 60)].
Proof.
  intros Ht. destruct (time_fields t Ht) as (Hh & Hm & Hs & _).
  unfold strftime_hms.
  rewrite !split_colon_pad2, split_colon_pad2_last by lia. reflexivity.
Qed.

Lemma strftime_minutes (t : Z) :
  valid_time t -> _time_to_minutes (strftime_hms t) = t / MINUTE.
Proof.
  intros Ht. destruct (time_fields t Ht) as (Hh & Hm & Hs & Hsum & _).
  unfold _time_to_minutes, hm_fields. rewrite (strftime_split t Ht).
  rewrite !int_of_str_pad2 by lia. exact Hsum.
Qed.

(** X3: a time rendered with [%H:%M:%S] is well formed and is read back
    as its minute of the day, whatever its seconds. *)
Theorem time_to_minutes_strftime (t : Z) :
  valid_time t ->
  well_formed_hms (strftime_hms t) = true
  /\ _time_to_minutes (strftime_hms t) = t / MINUTE
  /\ 0 <= _time_to_minutes (strftime_hms t) < 1440.
Proof.
  intros Ht. destruct (time_fields t Ht) as (Hh & Hm & Hs & _ & Hmin).
  rewrite (strftime_minutes t Ht). split; [|split; [reflexivity|exact Hmin]].
  unfold well_formed_hms. rewrite (strftime_split t Ht).
  rewrite !two_digits_pad2 by lia. reflexivity.
Qed.

Lemma time_to_minutes_strftime_witness :
  well_formed_hms (strftime_hms (time_of 9 30 + 45 * SECOND)) = true
  /\ _time_to_minutes (strftime_hms (time_of 9 30 + 45 * SECOND))
     = (time_of 9 30 + 45 * SECOND) / MINUTE
  /\ 0 <= _time_to_minutes (strftime_hms (time_of 9 30 + 45 * SECOND)) < 1440.
Proof.
  apply (time_to_minutes_strftime (time_of 9 30 + 45 * SECOND)).
  unfold valid_time. vm_compute. split; congruence.
Defined.

Example strftime_example :
  strftime_hms (time_of 9 30 + 45 * SECOND) = "09:30:45"
  /\ strftime_hm (time_of 23 5) = "23:05".
Proof. split; vm_compute; reflexivity. Qed.

(* ===================================================================== *)
(** * Properties of the write-side validation *)
(* ===================================================================== *)

Lemma strftime_hms_truthy (t : Z) : truthy (strftime_hms t) = true.
Proof. unfold strftime_hms, pad2. rewrite !append_cons. reflexivity. Qed.

(** The test of the overlap loops on valid times, in minutes of the day. *)
Lemma windows_touch_minutes (s e s' e' : Z) :
  valid_time s -> valid_time e -> valid_time s' -> valid_time e' ->
  windows_touch s e s' e'
  = overlap_minutes true (s / MINUTE) (normalize_end (s / MINUTE) (e / MINUTE))
      (s' / MINUTE) (normalize_end (s' / MINUTE) (e' / MINUTE)).
Proof.
  intros Hs He Hs' He'. unfold windows_touch.
  rewrite overlapping_unfold by (rewrite !strftime_hms_truthy; reflexivity).
  rewrite !strftime_minutes by assumption. reflexivity.
Qed.

Lemma windows_touch_false (s e s' e' : Z) :
  valid_time s -> valid_time e -> valid_time s' -> valid_time e' ->
  windows_touch s e s' e' = false -> minutes_apart s e s' e'.
Proof.
  intros Hs He Hs' He'. rewrite windows_touch_minutes by assumption.
  unfold overlap_minutes, minutes_apart.
  rewrite andb_false_iff, Z.leb_gt, Z.geb_leb, Z.leb_gt. lia.
Qed.

(** On whole minutes, and with ends that differ from their starts, the
    windows that are apart in minutes of the day are apart as the
    resolver and the block filter compose them on a date. *)
Lemma minutes_apart_windows (s e s' e' d : Z) :
  whole_minute s -> whole_minute e -> whole_minute s' -> whole_minute e' ->
  s <> e -> s' <> e' ->
  minutes_apart s e s' e' ->
  windows_apart (compose_window d s e) (compose_window d s' e').
Proof.
  unfold whole_minute. intros Hs He Hs' He' Hne Hne'.
  pose proof (Z.div_mod s MINUTE ltac:(unfold MINUTE; lia)) as Ds.
  pose proof (Z.div_mod e MINUTE ltac:(unfold MINUTE; lia)) as De.
  pose proof (Z.div_mod s' MINUTE ltac:(unfold MINUTE; lia)) as Ds'.
  pose proof (Z.div_mod e' MINUTE ltac:(unfold MINUTE; lia)) as De'.
  rewrite Hs in Ds. rewrite He in De. rewrite Hs' in Ds'. rewrite He' in De'.
  unfold minutes_apart, normalize_end, windows_apart, compose_window, combine,
    spans_midnight.
  generalize dependent (s / MINUTE). generalize dependent (e / MINUTE).
  generalize dependent (s' / MINUTE). generalize dependent (e' / MINUTE).
  intros b' De' a' Ds' b De a Ds. subst s e s' e'.
  unfold DAY, MINUTE in *.
  destruct (Z.ltb_spec b a), (Z.ltb_spec b' a'),
    (Z.leb_spec (60000000 * b + 0) (60000000 * a + 0)),
    (Z.leb_spec (60000000 * b' + 0) (60000000 * a' + 0));
    cbn [fst snd]; lia.
Qed.

Section SerializerProperties.
Context {zones : ZoneDb}.
Variable day_of_week_display : Z -> string.

Lemma rule_overlap_loop_none (s e : Z) (existing : list (Z * AvailabilityRule)) :
  rule_overlap_loop day_of_week_display s e existing = None ->
  forall r, r ∈ existing ->
    windows_touch s e (ar_start_time r.2) (ar_end_time r.2) = false.
Proof.
  induction existing as [|[id x] rest IH]; intros Hnone r Hr; [inversion Hr|].
  cbn [rule_overlap_loop] in Hnone.
  destruct (windows_touch s e (ar_start_time x) (ar_end_time x)) eqn:Ht;
    [discriminate|].
  apply elem_of_cons in Hr as [->|Hr]; [exact Ht|]. apply IH; assumption.
Qed.

Lemma block_overlap_loop_none (s e : Z)
    (existing : list (Z * string * RecurringBlockedTime)) :
  block_overlap_loop s e existing = None ->
  forall r, r ∈ existing ->
    windows_touch s e (rb_start_time r.2) (rb_end_time r.2) = false.
Proof.
  induction existing as [|[[id name] x] rest IH]; intros Hnone r Hr;
    [inversion Hr|].
  cbn [block_overlap_loop] in Hnone.
  destruct (windows_touch s e (rb_start_time x) (rb_end_time x)) eqn:Ht;
    [discriminate|].
  apply elem_of_cons in Hr as [->|Hr]; [exact Ht|]. apply IH; assumption.
Qed.

(** X4: a rule that [AvailabilityRuleSerializer.validate] accepts with a
    weekday and both times has distinct times. Against every other
    active rule of the organizer on that weekday (the row under update
    excepted) it is apart in the minutes of the day that the check reads,
    the seconds dropped; and when the four times are on whole minutes
    and the times of the other rule differ, the two windows, composed on
    any date as the resolver composes them, have a minute at least
    between them. *)
Theorem accepted_rule_is_apart (rows : list (Z * AvailabilityRule))
    (organizer : User) (instance : option Z) (attrs : WindowAttrs)
    (day_of_week s e : Z) :
  wa_day_of_week attrs = Some day_of_week ->
  wa_start_time attrs = Some s -> wa_end_time attrs = Some e ->
  valid_time s -> valid_time e ->
  (forall r, r ∈ rows ->
     valid_time (ar_start_time r.2) /\ valid_time (ar_end_time r.2)) ->
  AvailabilityRuleSerializer_validate day_of_week_display rows organizer
    instance attrs = Valid attrs ->
  s <> e
  /\ forall id r,
       (id, r) ∈ rows -> instance <> Some id ->
       ar_organizer r = user_id organizer ->
       ar_day_of_week r = day_of_week -> ar_is_active r = true ->
       minutes_apart s e (ar_start_time r) (ar_end_time r)
       /\ (whole_minute s -> whole_minute e ->
           whole_minute (ar_start_time r) -> whole_minute (ar_end_time r) ->
           ar_start_time r <> ar_end_time r ->
           forall d,
             windows_apart (compose_window d s e)
               (compose_window d (ar_start_time r) (ar_end_time r))).
Proof.
  intros Hday Hs He Vs Ve Vrows.
  unfold AvailabilityRuleSerializer_validate. rewrite Hday, Hs, He.
  case_bool_decide as Hse; [discriminate|]. cbv zeta.
  destruct (rule_overlap_loop _ s e _) eqn:Hloop; [discriminate|].
  intros _. split; [exact Hse|]. intros id r Hin Hinst Horg Hd Hact.
  destruct (Vrows (id, r) Hin) as [Vrs Vre]. simpl in Vrs, Vre.
  assert (Hapart : minutes_apart s e (ar_start_time r) (ar_end_time r)).
  { apply windows_touch_false; try assumption.
    apply (rule_overlap_loop_none _ _ _ Hloop (id, r)).
    assert (Hfirst : (id, r) ∈ filter
              (fun r0 : Z * AvailabilityRule =>
                 ar_organizer r0.2 = user_id organizer
                 /\ ar_day_of_week r0.2 = day_of_week
                 /\ ar_is_active r0.2 = true) rows).
    { apply list_elem_of_filter. auto. }
    destruct instance as [i|]; [|exact Hfirst].
    apply list_elem_of_filter. split; [|exact Hfirst].
    simpl. congruence. }
  split; [exact Hapart|].
  intros Ws We Wrs Wre Hrne d. apply minutes_apart_windows; assumption.
Qed.

(** X5: a recurring block that [RecurringBlockedTimeSerializer.validate]
    accepts with a weekday and both times has distinct times, and date
    bounds in order when it has both. Against every other active block
    of the organizer on that weekday it is apart in the minutes of the
    day that the check reads, the seconds dropped; and when the four
    times are on whole minutes and the times of the other block differ,
    the two windows, composed on any date as the block filter composes
    them, have a minute at least between them. *)
Theorem accepted_block_is_apart
    (rows : list (Z * string * RecurringBlockedTime))
    (organizer : User) (instance : option Z) (attrs : WindowAttrs)
    (day_of_week s e : Z) :
  wa_day_of_week attrs = Some day_of_week ->
  wa_start_time attrs = Some s -> wa_end_time attrs = Some e ->
  valid_time s -> valid_time e ->
  (forall r, r ∈ rows ->
     valid_time (rb_start_time r.2) /\ valid_time (rb_end_time r.2)) ->
  RecurringBlockedTimeSerializer_validate rows organizer instance attrs
  = Valid attrs ->
  s <> e
  /\ (forall sd ed,
        wa_start_date attrs = Some sd -> wa_end_date attrs = Some ed -> sd <= ed)
  /\ forall id name r,
       (id, name, r) ∈ rows -> instance <> Some id ->
       rb_organizer r = user_id organizer ->
       rb_day_of_week r = day_of_week -> rb_is_active r = true ->
       minutes_apart s e (rb_start_time r) (rb_end_time r)
       /\ (whole_minute s -> whole_minute e ->
           whole_minute (rb_start_time r) -> whole_minute (rb_end_time r) ->
           rb_start_time r <> rb_end_time r ->
           forall d,
             windows_apart (compose_window d s e)
               (compose_window d (rb_start_time r) (rb_end_time r))).
Proof.
  intros Hday Hs He Vs Ve Vrows.
  unfold RecurringBlockedTimeSerializer_validate. rewrite Hday, Hs, He.
  case_bool_decide as Hse; [discriminate|]. cbv zeta.
  destruct (match wa_start_date attrs with
            | Some sd => match wa_end_date attrs with
                         | Some ed => ed <? sd
                         | None => false
                         end
            | None => false
            end) eqn:Hdates; [discriminate|].
  destruct (block_overlap_loop s e _) eqn:Hloop; [discriminate|].
  intros _. split; [exact Hse|]. split.
  - intros sd ed Hsd Hed. rewrite Hsd, Hed in Hdates.
    apply Z.ltb_ge in Hdates. exact Hdates.
  - intros id name r Hin Hinst Horg Hd Hact.
    destruct (Vrows (id, name, r) Hin) as [Vrs Vre]. simpl in Vrs, Vre.
    assert (Hapart : minutes_apart s e (rb_start_time r) (rb_end_time r)).
    { apply windows_touch_false; try assumption.
      apply (block_overlap_loop_none _ _ _ Hloop (id, name, r)).
      assert (Hfirst : (id, name, r) ∈ filter
                (fun r0 : Z * string * RecurringBlockedTime =>
                   rb_organizer r0.2 = user_id organizer
                   /\ rb_day_of_week r0.2 = day_of_week
                   /\ rb_is_active r0.2 = true) rows).
      { apply list_elem_of_filter. auto. }
      destruct instance as [i|]; [|exact Hfirst].
      apply list_elem_of_filter. split; [|exact Hfirst].
      simpl. congruence. }
    split; [exact Hapart|].
    intros Ws We Wrs Wre Hrne d. apply minutes_apart_windows; assumption.
Qed.

(** X6: an override that [DateOverrideRuleSerializer.validate] accepts as
    available carries both times and they differ; composed on any date,
    its window has a positive length of at most a day. *)
Theorem accepted_override_has_window (attrs : OverrideAttrs) :
  DateOverrideRuleSerializer_validate attrs = Valid attrs ->
  oa_is_available attrs = Some true ->
  exists s e,
    oa_start_time attrs = Some s /\ oa_end_time attrs = Some e /\ s <> e
    /\ (valid_time s -> valid_time e ->
        forall d, (compose_window d s e).1 < (compose_window d s e).2
                  /\ (compose_window d s e).2 <= (compose_window d s e).1 + DAY).
Proof.
  unfold DateOverrideRuleSerializer_validate. intros Hv Hav. rewrite Hav in Hv.
  destruct (oa_start_time attrs) as [s|], (oa_end_time attrs) as [e|];
    try discriminate.
  case_bool_decide as Hse; [discriminate|].
  exists s, e. repeat split; auto;
    unfold compose_window, combine, spans_midnight, valid_time in *;
    destruct (Z.leb_spec e s); simpl; lia.
Qed.

(** X7: what [BlockedTimeSerializer.validate] accepts: the end after the
    start when both are given; on creation no other source than
    [manual]; on the update of a synced block the attributes name the
    source the block has. *)
Theorem accepted_blocked_time (instance : option string) (attrs : BlockedAttrs) :
  BlockedTimeSerializer_validate instance attrs = Valid attrs ->
  (forall s e,
     ba_start_datetime attrs = Some s -> ba_end_datetime attrs = Some e ->
     dt_ltb s e = true)
  /\ (instance = None -> default "manual" (ba_source attrs) = "manual")
  /\ (forall source,
        instance = Some source -> source <> "manual" ->
        ba_source attrs = Some source).
Proof.
  unfold BlockedTimeSerializer_validate. intros Hv.
  destruct (match ba_start_datetime attrs with
            | Some s => match ba_end_datetime attrs with
                        | Some e => dt_leb e s
                        | None => false
                        end
            | None => false
            end) eqn:Horder; [discriminate|].
  split; [|split].
  - intros s e Hs He. rewrite Hs, He in Horder.
    unfold dt_leb in Horder. unfold dt_ltb.
    destruct (decide (tz e = tz s)) as [Heq|Hne].
    + rewrite decide_True by congruence.
      apply Z.leb_gt in Horder. apply Z.ltb_lt. exact Horder.
    + rewrite decide_False by congruence.
      apply Z.leb_gt in Horder. apply Z.ltb_lt. exact Horder.
  - intros ->. case_bool_decide as Hsrc; [discriminate|].
    destruct (decide (default "manual" (ba_source attrs) = "manual")); tauto.
  - intros source -> Hsynced.
    rewrite bool_decide_eq_true_2 in Hv by exact Hsynced. simpl in Hv.
    case_bool_decide as Hsrc; [discriminate|].
    destruct (ba_source attrs) as [src|]; simpl in Hsrc.
    + destruct (decide (src = source)); [congruence|tauto].
    + destruct (decide ("manual" = source)); [congruence|tauto].
Qed.

End SerializerProperties.

(** With seconds the check lets a window through that holds another: a
    rule from 09:00:30 to 09:00:00 is accepted next to the rule from
    10:00 to 11:00, both being read as 09:00 to 09:00 and 10:00 to 11:00;
    composed on a date it runs to 09:00 of the next day and holds the
    other rule. *)
Example rule_with_seconds_accepted :
  let s := time_of 9 0 + 30 * SECOND in
  let e := time_of 9 0 in
  let attrs :=
    {| wa_day_of_week := Some 0; wa_start_time := Some s;
       wa_end_time := Some e; wa_start_date := None; wa_end_date := None |} in
  AvailabilityRuleSerializer_validate (fun _ => "Monday")
    [(1, monday_rule 10 0 11 0)] organizer1 None attrs = Valid attrs
  /\ (compose_window monday s e).1
     < (compose_window monday (time_of 10 0) (time_of 11 0)).1
  /\ (compose_window monday (time_of 10 0) (time_of 11 0)).2
     < (compose_window monday s e).2.
Proof. vm_compute. repeat split. Qed.

(** The same for a recurring block, which then blocks the slot at 10:00
    that the block next to it covers. *)
Example block_with_seconds_accepted :
  let s := time_of 9 0 + 30 * SECOND in
  let e := time_of 9 0 in
  let attrs :=
    {| wa_day_of_week := Some 0; wa_start_time := Some s;
       wa_end_time := Some e; wa_start_date := None; wa_end_date := None |} in
  let meeting_block :=
    {| rb_organizer := 1; rb_day_of_week := 0; rb_start_time := time_of 10 0;
       rb_end_time := time_of 11 0; rb_start_date := None; rb_end_date := None;
       rb_is_active := true |} in
  let accepted :=
    {| rb_organizer := 1; rb_day_of_week := 0; rb_start_time := s;
       rb_end_time := e; rb_start_date := None; rb_end_date := None;
       rb_is_active := true |} in
  let db :=
    {| availability_rules := []; date_overrides := [];
       recurring_blocks := [accepted]; blocked_times := []; bookings := [];
       buffer_times := []; buffer_field_defaults := (0, 0, 0, 30) |} in
  RecurringBlockedTimeSerializer_validate [(1, "Meeting", meeting_block)]
    organizer1 None attrs = Valid attrs
  /\ is_slot_blocked_by_recurring (zones := utc_only) db organizer1
       (monday_slot 10 0 30) monday = true.
Proof. vm_compute. repeat split. Qed.

(* ===================================================================== *)
(** * Further properties of the slot enumerator *)
(* ===================================================================== *)

Section EnumeratorShape.
Context {zones : ZoneDb}.

(** As long as the last of [fuel] rounds still fits, the loop emits one
    slot per round, a stride apart. *)
Lemma slots_loop_arithmetic (fuel : nat) (zone : tzinfo) (cur e dur step : Z) :
  0 < step ->
  (fuel <> O -> cur + (Z.of_nat fuel - 1) * (step * MINUTE) + dur * MINUTE <= e) ->
  slots_loop fuel zone cur e dur step
  = (fun k => make_slot zone (cur + Z.of_nat k * (step * MINUTE)) dur)
    <$> seq 0 fuel.
Proof.
  intros Hstep. revert cur. induction fuel as [|fuel IH]; intros cur Hfit.
  - reflexivity.
  - cbn [slots_loop]. specialize (Hfit ltac:(discriminate)).
    assert (Hk : 0 < step * MINUTE) by (unfold MINUTE; lia).
    destruct (Z.leb_spec (cur + dur * MINUTE) e) as [_|Hno]; [|nia].
    cbn [seq fmap list_fmap]. f_equal.
    + f_equal. lia.
    + rewrite IH by (intros ?; nia).
      rewrite <- fmap_S_seq, <- list_fmap_compose.
      apply list_fmap_ext. intros _ k _. simpl. f_equal. lia.
Qed.

(** X8: the slots of one interval, in closed form. When the first slot
    does not fit the list is empty, whatever the stride; with a positive
    stride the list holds the slots that start at the interval's start
    and every stride after it, as many as fit: one more than the strides
    that fit into what the interval leaves beyond one duration. *)
Theorem generated_slots_closed_form (zone : tzinfo) (s e dur step : Z) :
  (e < s + dur * MINUTE ->
   _generate_slots_from_interval zone s e dur step = Done [])
  /\ (0 < step -> s + dur * MINUTE <= e ->
      let n := (e - s - dur * MINUTE) / (step * MINUTE) + 1 in
      _generate_slots_from_interval zone s e dur step
      = Done ((fun k => make_slot zone (s + Z.of_nat k * (step * MINUTE)) dur)
              <$> seq 0 (Z.to_nat n))
      /\ 1 <= n
      /\ s + (n - 1) * (step * MINUTE) + dur * MINUTE <= e
      /\ e < s + n * (step * MINUTE) + dur * MINUTE).
Proof.
  split.
  - intros Hno. unfold _generate_slots_from_interval. destruct (Z.leb_spec (s + dur * MINUTE) e); [lia|reflexivity].
  - intros Hstep Hfit n. unfold _generate_slots_from_interval.
    assert (Hk : 0 < step * MINUTE) by (unfold MINUTE; lia).
    pose proof (Z.div_pos (e - s - dur * MINUTE) (step * MINUTE) ltac:(lia) Hk).
    pose proof (Z.div_mod (e - s - dur * MINUTE) (step * MINUTE) ltac:(lia)).
    pose proof (Z.mod_pos_bound (e - s - dur * MINUTE) (step * MINUTE) Hk).
    destruct (Z.leb_spec (s + dur * MINUTE) e); [|lia].
    destruct (Z.ltb_spec 0 step); [|lia].
    split; [|subst n; nia].
    f_equal. fold (slot_rounds s e dur step).
    apply slots_loop_arithmetic; [assumption|].
    intros _. subst n. unfold slot_rounds. rewrite Z2Nat.id by lia. nia.
Qed.

End EnumeratorShape.

Example generated_slots_example :
  _generate_slots_from_interval DbUtc 0 (100 * MINUTE) 30 15
  = Done ((fun k => make_slot DbUtc (Z.of_nat k * (15 * MINUTE)) 30) <$> seq 0 5).
Proof. vm_compute. reflexivity. Qed.

(* ===================================================================== *)
(** * Further properties of one day *)
(* ===================================================================== *)

Section DaySoundness.
Context {zones : ZoneDb}.

Lemma slots_loop_duration (fuel : nat) (zone : tzinfo) (cur e dur step : Z) :
  Forall (fun s => duration_minutes s = dur) (slots_loop fuel zone cur e dur step).
Proof.
  revert cur. induction fuel as [|fuel IH]; intros cur; simpl; [constructor|].
  destruct (cur + dur * MINUTE <=? e); constructor; [reflexivity|apply IH].
Qed.

Lemma potential_slots_duration (zone : tzinfo) (dur step : Z)
    (intervals : list (Z * Z)) (l : list slot) :
  potential_slots zone dur step intervals = Done l ->
  Forall (fun s => duration_minutes s = dur) l.
Proof.
  revert l. induction intervals as [|[s e] rest IH]; intros l; simpl.
  - intros [= <-]. constructor.
  - destruct (_generate_slots_from_interval zone s e dur step) as [l1| |] eqn:E1;
      simpl; try discriminate.
    destruct (potential_slots zone dur step rest) as [l2| |]; simpl;
      try discriminate.
    intros [= <-]. apply Forall_app. split; [|apply IH; reflexivity].
    unfold _generate_slots_from_interval in E1.
    destruct (s + dur * MINUTE <=? e);
      [destruct (0 <? step); [|destruct (step <? 0); discriminate]|];
      injection E1 as <-; [apply slots_loop_duration|constructor].
Qed.

Lemma override_intervals_zone (d : Z) (tzname : string)
    (overrides : list DateOverrideRule) (iv : Z * Z) (ivs : list (Z * Z)) :
  override_intervals d tzname overrides = Done (iv :: ivs) ->
  zone_known tzname = true.
Proof.
  induction overrides as [|o rest IH]; simpl; [discriminate|].
  destruct (do_is_available o), (do_start_time o), (do_end_time o);
    simpl; try apply IH.
  unfold ZoneInfo. destruct (zone_known tzname); [reflexivity|discriminate].
Qed.

Lemma rule_intervals_zone (d : Z) (tzname : string)
    (rules : list AvailabilityRule) (iv : Z * Z) (ivs : list (Z * Z)) :
  rule_intervals d tzname rules = Done (iv :: ivs) ->
  zone_known tzname = true.
Proof.
  destruct rules as [|r rest]; simpl; [discriminate|].
  unfold ZoneInfo. destruct (zone_known tzname); [reflexivity|discriminate].
Qed.

(** A day that has intervals has had its zone resolved. *)
Lemma daily_intervals_zone (db : Database) (organizer : User)
    (event_type : EventType) (d : Z) (tzname : string)
    (iv : Z * Z) (ivs : list (Z * Z)) :
  _get_daily_available_intervals db organizer event_type d tzname
  = Done (iv :: ivs) ->
  zone_known tzname = true.
Proof.
  unfold _get_daily_available_intervals.
  destruct (applicable_overrides db organizer event_type d) as [|o ovs].
  - destruct (rule_intervals d tzname _) as [l| |] eqn:E; simpl;
      try discriminate.
    destruct l as [|iv' l]; [discriminate|].
    intros _. eapply rule_intervals_zone, E.
  - apply override_intervals_zone.
Qed.

(** What a slot of the day's answer went through. *)
Lemma daily_slot_provenance (db : Database) (organizer : User)
    (event_type : EventType) (d : Z) (tzname itz : string)
    (count bb ba gap step : Z) (l : list slot) (x : slot) :
  _calculate_daily_slots db organizer event_type d tzname itz count bb ba gap
    step = Done l ->
  x ∈ l ->
  exists ivs iv,
    _get_daily_available_intervals db organizer event_type d tzname = Done ivs
    /\ iv ∈ ivs
    /\ slot_within (Zone tzname) iv.1 iv.2 (duration event_type) x
    /\ duration_minutes x = duration event_type
    /\ is_slot_blocked db organizer x d = false
    /\ is_slot_conflicting_with_bookings db organizer event_type x count bb ba
         gap = false.
Proof.
  unfold _calculate_daily_slots.
  destruct (_get_daily_available_intervals db organizer event_type d tzname)
    as [ivs| |] eqn:Eiv; simpl; try discriminate.
  destruct ivs as [|iv0 ivs]; [intros [= <-] Hx; inversion Hx|].
  destruct (potential_slots _ _ _ _) as [pl| |] eqn:Epl; simpl; try discriminate.
  intros [= <-] Hx. apply list_elem_of_filter in Hx as [[Hb Hc] Hx].
  pose proof (potential_slots_within _ _ _ _ _ Epl) as Hw.
  rewrite Forall_forall in Hw. destruct (Hw x Hx) as (iv & Hin & Hsw).
  pose proof (potential_slots_duration _ _ _ _ _ Epl) as Hd.
  rewrite Forall_forall in Hd.
  exists (iv0 :: ivs), iv. repeat split; auto; apply Hsw.
Qed.

(** X9: every slot of a day's answer lies, with the event's duration and
    in the organizer's zone, which is a known one, inside one of the
    day's intervals; the block filter and the booking filter both let
    it pass. *)
Theorem daily_slot_is_sound (db : Database) (organizer : User)
    (event_type : EventType) (d : Z) (tzname itz : string)
    (count bb ba gap step : Z) (l : list slot) (x : slot) :
  _calculate_daily_slots db organizer event_type d tzname itz count bb ba gap
    step = Done l ->
  x ∈ l ->
  zone_known tzname = true
  /\ (exists ivs iv,
        _get_daily_available_intervals db organizer event_type d tzname
        = Done ivs
        /\ iv ∈ ivs
        /\ slot_within (Zone tzname) iv.1 iv.2 (duration event_type) x)
  /\ duration_minutes x = duration event_type
  /\ is_slot_blocked db organizer x d = false
  /\ is_slot_conflicting_with_bookings db organizer event_type x count bb ba
       gap = false.
Proof.
  intros Hl Hx.
  destruct (daily_slot_provenance _ _ _ _ _ _ _ _ _ _ _ _ _ Hl Hx)
    as (ivs & iv & Eiv & Hin & Hsw & Hd & Hb & Hc).
  split; [|split; [exists ivs, iv|]]; auto.
  destruct ivs as [|iv0 ivs]; [inversion Hin|].
  eapply daily_intervals_zone, Eiv.
Qed.

(** X10: on a date with exactly one applicable override, the check
    [is_slot_blocked_by_override], which the pipeline does not call,
    would reject none of the day's slots. *)
Theorem single_override_filter_agrees (db : Database) (organizer : User)
    (event_type : EventType) (d : Z) (tzname itz : string)
    (count bb ba gap step : Z) (o : DateOverrideRule) (l : list slot)
    (x : slot) :
  applicable_overrides db organizer event_type d = [o] ->
  _calculate_daily_slots db organizer event_type d tzname itz count bb ba gap
    step = Done l ->
  x ∈ l ->
  is_slot_blocked_by_override db organizer event_type x d = false.
Proof.
  intros Ho Hl Hx.
  destruct (daily_slot_provenance _ _ _ _ _ _ _ _ _ _ _ _ _ Hl Hx)
    as (ivs & iv & Eiv & Hin & Hsw & _).
  unfold _get_daily_available_intervals in Eiv. rewrite Ho in Eiv.
  apply override_intervals_done in Eiv. subst ivs.
  apply available_windows_elem_of in Hin
    as (o' & st & en & Ho' & Hav & Hst & Hen & ->).
  apply list_elem_of_singleton in Ho'. subst o'.
  unfold is_slot_blocked_by_override. rewrite Ho. cbn [existsb].
  rewrite Hav, Hst, Hen. cbn [negb].
  destruct (compose_window d st en) as [os oe] eqn:Ew.
  destruct Hsw as (Hts & Hte & Hlo & _ & Hhi). simpl in Hlo, Hhi.
  unfold dt_leb. cbn [tz wall].
  rewrite decide_True by reflexivity.
  rewrite decide_True by congruence.
  rewrite (proj2 (Z.leb_le _ _) Hlo), (proj2 (Z.leb_le _ _) Hhi). reflexivity.
Qed.

End DaySoundness.

(* ===================================================================== *)
(** * Further properties of the orchestrator *)
(* ===================================================================== *)

Section OrchestratorAnswers.
Context {zones : ZoneDb}.

Lemma potential_slots_done (zone : tzinfo) (dur step : Z)
    (intervals : list (Z * Z)) :
  0 < step -> exists l, potential_slots zone dur step intervals = Done l.
Proof.
  intros Hstep. induction intervals as [|[s e] rest [l2 IH]]; simpl.
  - eexists. reflexivity.
  - destruct (generate_slots_done zone s e dur step Hstep) as (l1 & -> & _).
    rewrite IH. simpl. eexists. reflexivity.
Qed.

Lemma daily_slots_not_stuck (db : Database) (organizer : User)
    (event_type : EventType) (d : Z) (tzname itz : string)
    (count bb ba gap step : Z) :
  0 < step ->
  _calculate_daily_slots db organizer event_type d tzname itz count bb ba gap
    step <> Stuck.
Proof.
  intros Hstep. unfold _calculate_daily_slots.
  assert (Hiv : _get_daily_available_intervals db organizer event_type d tzname
                <> Stuck).
  { unfold _get_daily_available_intervals.
    destruct (applicable_overrides db organizer event_type d) as [|o ovs].
    - generalize (applicable_rules db organizer event_type d).
      intros rules. destruct rules as [|r rest]; simpl; [discriminate|].
      unfold ZoneInfo. destruct (zone_known tzname) eqn:Hz; simpl;
        [|discriminate].
      rewrite rule_intervals_known by assumption. discriminate.
    - generalize (o :: ovs). intros overrides.
      induction overrides as [|o' rest IH]; simpl; [discriminate|].
      destruct (do_is_available o'), (do_start_time o'), (do_end_time o');
        simpl; try exact IH.
      unfold ZoneInfo. destruct (zone_known tzname) eqn:Hz; simpl;
        [|discriminate].
      rewrite override_intervals_known by assumption. discriminate. }
  destruct (_get_daily_available_intervals db organizer event_type d tzname)
    as [ivs| |]; simpl; try discriminate; [|congruence].
  destruct ivs as [|iv ivs]; [discriminate|].
  destruct (potential_slots_done (Zone tzname) (duration event_type) step
              (iv :: ivs) Hstep) as [pl ->].
  discriminate.
Qed.

Lemma all_slots_loop_not_stuck (daily : Z -> outcome (list slot))
    (dates : list Z) :
  (forall d, daily d <> Stuck) -> all_slots_loop daily dates <> Stuck.
Proof.
  intros Hd. induction dates as [|d dates IH]; simpl; [discriminate|].
  specialize (Hd d). destruct (daily d); simpl; try congruence.
  destruct (all_slots_loop daily dates); simpl; congruence.
Qed.

(** X11: with a positive stride in force (the event's own, or the
    organizer's when the event has none) the call always returns; the
    answer either counts its slots in [total_slots_calculated], or is
    the handler's: no slots, no metrics, and the error as the last
    warning. *)
Theorem positive_stride_always_answers (db : Database) (organizer : User)
    (event_type : EventType) (start_date end_date : Z)
    (invitee_timezone : string) (attendee_count : Z)
    (invitee_timezones : option (list string)) :
  0 < or_default (slot_interval_minutes event_type)
        (bt_slot_interval_minutes (get_or_create_buffer db organizer)) ->
  exists r,
    calculate_available_slots db organizer event_type start_date end_date
      invitee_timezone attendee_count invitee_timezones = Some r
    /\ (performance_metrics r
        = {| total_slots_calculated := Some (Z.of_nat (length (slots r)));
             date_range_days := Some (end_date - start_date + 1) |}
        \/ (slots r = []
            /\ performance_metrics r
               = {| total_slots_calculated := None; date_range_days := None |}
            /\ exists msg, last (warnings r) = Some ("Calculation error: " +:+ msg))).
Proof.
  intros Hstep. unfold calculate_available_slots, calculate_body.
  destruct (validate_invitee_timezone invitee_timezone) as [w1 itz].
  destruct (validate_invitee_timezones invitee_timezones) as [w2 itzs].
  destruct (profile organizer) as [p|].
  2:{ eexists. split; [reflexivity|]. right. simpl.
      repeat split. eexists. apply last_snoc. }
  destruct (resolve_organizer_timezone p) as [w3 otz].
  assert (Hns : collect_all_slots db organizer event_type start_date end_date
                  otz itz attendee_count <> Stuck).
  { unfold collect_all_slots. apply all_slots_loop_not_stuck.
    intros d. apply daily_slots_not_stuck. exact Hstep. }
  destruct (collect_all_slots db organizer event_type start_date end_date otz
              itz attendee_count) as [all| |]; simpl; [| |congruence].
  - eexists. split; [reflexivity|]. left. reflexivity.
  - eexists. split; [reflexivity|]. right. simpl.
    repeat split. eexists. apply last_snoc.
Qed.

Lemma invalid_zone_loop_none (value : list string) :
  invalid_zone_loop value = None ->
  Forall (fun name => validate_timezone name = true) value.
Proof.
  induction value as [|name rest IH]; simpl; [constructor|].
  destruct (validate_timezone name) eqn:Hv; simpl; [|discriminate].
  intros Hn. constructor; auto.
Qed.

Lemma filter_all {A} (P : A -> Prop) `{!forall x, Decision (P x)} (l : list A) :
  Forall P l -> filter P l = l.
Proof.
  induction 1 as [|x l Hx _ IH]; [reflexivity|].
  rewrite filter_cons_True by exact Hx. f_equal. exact IH.
Qed.

Lemma filter_none {A} (P : A -> Prop) `{!forall x, Decision (P x)} (l : list A) :
  Forall (fun x => ~ P x) l -> filter P l = [].
Proof.
  induction 1 as [|x l Hx _ IH]; [reflexivity|].
  rewrite filter_cons_False by exact Hx. exact IH.
Qed.

Lemma accepted_zones_pass (zs : option (list string)) :
  match zs with
  | Some zs =>
      CalculatedSlotsRequestSerializer_validate_invitee_timezones zs = Valid zs
  | None => True
  end ->
  validate_invitee_timezones zs = ([], zs).
Proof.
  destruct zs as [[|z zs]|]; try reflexivity.
  unfold CalculatedSlotsRequestSerializer_validate_invitee_timezones.
  destruct (invalid_zone_loop (z :: zs)) eqn:Hl; [discriminate|]. intros _.
  apply invalid_zone_loop_none in Hl.
  unfold validate_invitee_timezones.
  rewrite (filter_all (fun name => validate_timezone name = true)) by exact Hl.
  rewrite (filter_none (fun name => validate_timezone name = false));
    [reflexivity|].
  eapply Forall_impl; [exact Hl|]. simpl. intros name ->. discriminate.
Qed.

Lemma accepted_zone_passes (name : string) :
  CalculatedSlotsRequestSerializer_validate_invitee_timezone name = Valid name ->
  validate_invitee_timezone name = ([], name).
Proof.
  unfold CalculatedSlotsRequestSerializer_validate_invitee_timezone,
    validate_invitee_timezone.
  destruct (validate_timezone name); simpl; [reflexivity|discriminate].
Qed.

(** X12: a request that [CalculatedSlotsRequestSerializer] accepts, handed
    to the engine: the engine's own validation of the invitee zones adds
    no warning and changes nothing, so the only warnings of an answer
    are the organizer's zone and the handler's error; and the days
    counted in [date_range_days] are between 1 and 91. *)
Theorem accepted_request_in_engine (db : Database) (organizer : User)
    (event_type : EventType) (attendee_count : Z) (attrs : RequestAttrs)
    (r : Response) :
  request_accepted attrs ->
  calculate_available_slots db organizer event_type (ra_start_date attrs)
    (ra_end_date attrs) (ra_invitee_timezone attrs) attendee_count
    (ra_invitee_timezones attrs) = Some r ->
  (forall w, w ∈ warnings r ->
     w = "Invalid organizer timezone, using UTC"
     \/ exists msg, w = "Calculation error: " +:+ msg)
  /\ (forall n, date_range_days (performance_metrics r) = Some n ->
        1 <= n <= 91).
Proof.
  intros (Hz & Hzs & Hrange).
  unfold calculate_available_slots, calculate_body.
  rewrite (accepted_zone_passes _ Hz), (accepted_zones_pass _ Hzs).
  unfold CalculatedSlotsRequestSerializer_validate in Hrange.
  destruct (Z.ltb_spec (ra_end_date attrs) (ra_start_date attrs));
    [discriminate|].
  destruct (Z.ltb_spec 90 (ra_end_date attrs - ra_start_date attrs));
    [discriminate|].
  clear Hrange. cbn [app].
  destruct (profile organizer) as [p|].
  2:{ intros [= <-]. simpl. split; [|discriminate].
      intros w Hw. apply list_elem_of_singleton in Hw. right. eauto. }
  assert (Hw3 : forall w, w ∈ (resolve_organizer_timezone p).1 ->
                  w = "Invalid organizer timezone, using UTC").
  { unfold resolve_organizer_timezone.
    destruct (validate_timezone (timezone_name p)); simpl; intros w Hw.
    - inversion Hw.
    - apply list_elem_of_singleton in Hw. exact Hw. }
  destruct (resolve_organizer_timezone p) as [w3 otz]. simpl in Hw3.
  destruct (collect_all_slots _ _ _ _ _ _ _ _) as [all| |]; simpl;
    try discriminate; intros [= <-]; simpl.
  - split; [|intros n [= <-]; lia]. intros w Hw. left. auto.
  - split; [|discriminate]. intros w Hw.
    apply elem_of_app in Hw as [Hw|Hw]; [left; auto|].
    apply list_elem_of_singleton in Hw. right. eauto.
Qed.

End OrchestratorAnswers.

(* ===================================================================== *)
(** * Further properties of the booking filter and of the block filter *)
(* ===================================================================== *)

Section BookingFilter.
Context {zones : ZoneDb}.

Lemma instant_utc (dt : datetime) : tz dt = DbUtc -> instant dt = wall dt.
Proof. unfold instant, utcoffset. intros ->. lia. Qed.

(** A booking of the first query, widened by a gap that is not negative,
    still meets the protected zone of the slot. *)
Lemma zones_overlap_of_query (db : Database) (organizer : User)
    (b : Booking) (gap : Z) (protected_start protected_end : datetime) :
  stored_in_utc db -> 0 <= gap ->
  b ∈ existing_bookings db organizer protected_start protected_end ->
  zones_overlap b gap protected_start protected_end = true.
Proof.
  intros Hutc Hgap Hb. unfold existing_bookings in Hb.
  apply list_elem_of_filter in Hb as [(_ & _ & Hlt & Hgt) Hb].
  destruct (Hutc b Hb) as [Hs He].
  rewrite (instant_utc _ Hs) in Hlt. rewrite (instant_utc _ He) in Hgt.
  unfold zones_overlap, dt_ltb, add_minutes. cbn [tz wall].
  apply andb_true_intro. split.
  - destruct (decide (tz (bk_start_time b) = tz protected_end)) as [Heq|Hne];
      apply Z.ltb_lt.
    + rewrite instant_utc in Hlt by congruence. unfold MINUTE. lia.
    + unfold instant at 1, utcoffset. cbn [tz wall]. rewrite Hs.
      unfold MINUTE. lia.
  - destruct (decide (tz protected_start = tz (bk_end_time b))) as [Heq|Hne];
      apply Z.ltb_lt.
    + rewrite instant_utc in Hgt by congruence. unfold MINUTE. lia.
    + unfold instant at 2, utcoffset. cbn [tz wall]. rewrite He.
      unfold MINUTE. lia.
Qed.

Lemma conflict_loop_gap (db : Database) (organizer : User)
    (event_type : EventType) (s : slot) (attendee_count gap gap' : Z)
    (protected_start protected_end : datetime) (existing : list Booking) :
  (forall b, b ∈ existing ->
     zones_overlap b gap protected_start protected_end
     = zones_overlap b gap' protected_start protected_end) ->
  conflict_loop db organizer event_type s attendee_count gap
    protected_start protected_end existing
  = conflict_loop db organizer event_type s attendee_count gap'
      protected_start protected_end existing.
Proof.
  induction existing as [|b rest IH]; intros Hsame; [reflexivity|].
  cbn [conflict_loop]. rewrite (Hsame b) by left.
  rewrite IH by (intros b' Hb'; apply Hsame; right; exact Hb').
  reflexivity.
Qed.

(** X13: with the bookings stored in UTC, the organizer's [minimum_gap]
    has no part in the answer of the booking filter as long as it is not
    negative: the first query has already narrowed the bookings to those
    that meet the protected zone of the slot, and widening these cannot
    make them miss it. *)
Theorem minimum_gap_is_idle (db : Database) (organizer : User)
    (event_type : EventType) (s : slot)
    (attendee_count buffer_before buffer_after gap gap' : Z) :
  stored_in_utc db -> 0 <= gap -> 0 <= gap' ->
  is_slot_conflicting_with_bookings db organizer event_type s attendee_count
    buffer_before buffer_after gap
  = is_slot_conflicting_with_bookings db organizer event_type s attendee_count
      buffer_before buffer_after gap'.
Proof.
  intros Hutc Hgap Hgap'. unfold is_slot_conflicting_with_bookings.
  apply conflict_loop_gap. intros b Hb.
  rewrite !(zones_overlap_of_query db organizer) by assumption. reflexivity.
Qed.

(** X14: for an event that is not a group event, bookings stored in UTC
    and a [minimum_gap] that is not negative, a slot conflicts exactly
    when some confirmed booking of the organizer, of whatever event
    type, intersects the slot widened by the two buffers. *)
Theorem individual_conflict_iff (db : Database) (organizer : User)
    (event_type : EventType) (s : slot)
    (attendee_count buffer_before buffer_after gap : Z) :
  is_group_event event_type = false -> stored_in_utc db -> 0 <= gap ->
  is_slot_conflicting_with_bookings db organizer event_type s attendee_count
    buffer_before buffer_after gap = true
  <-> exists b,
        b ∈ bookings db
        /\ bk_organizer b = user_id organizer
        /\ bk_status b = "confirmed"
        /\ instant (bk_start_time b)
           < instant (add_minutes (end_time s) buffer_after)
        /\ instant (bk_end_time b)
           > instant (add_minutes (start_time s) (- buffer_before)).
Proof.
  intros Hg Hutc Hgap. rewrite is_slot_conflicting_true. cbv zeta. split.
  - intros (b & Hb & _). exists b.
    apply list_elem_of_filter in Hb as [(? & ? & ? & ?) Hb]. auto.
  - intros (b & Hb & Horg & Hst & Hlt & Hgt).
    assert (Hq : b ∈ existing_bookings db organizer
                   (add_minutes (start_time s) (- buffer_before))
                   (add_minutes (end_time s) buffer_after)).
    { apply list_elem_of_filter. auto. }
    exists b. split; [exact Hq|]. split.
    + eapply zones_overlap_of_query; eassumption.
    + right. intros [Hg' _]. congruence.
Qed.

Lemma filter_absorb {A} (P Q : A -> Prop) `{!forall x, Decision (P x)}
    `{!forall x, Decision (Q x)} (l : list A) :
  (forall x, P x -> Q x) -> filter P (filter Q l) = filter P l.
Proof.
  intros HPQ. induction l as [|x l IH]; [reflexivity|].
  destruct (decide (Q x)) as [HQ|HQ].
  - rewrite (filter_cons_True Q) by exact HQ.
    destruct (decide (P x)) as [HP|HP].
    + rewrite !(filter_cons_True P) by exact HP. f_equal. exact IH.
    + rewrite !(filter_cons_False P) by exact HP. exact IH.
  - rewrite (filter_cons_False Q) by exact HQ.
    rewrite (filter_cons_False P) by (intros HP; apply HQ, HPQ, HP). exact IH.
Qed.

(** X15: bookings that are not confirmed, or that are another
    organizer's, have no part in the answer of the booking filter. *)
Theorem only_confirmed_bookings_count (db : Database) (organizer : User)
    (event_type : EventType) (s : slot)
    (attendee_count buffer_before buffer_after gap : Z) :
  is_slot_conflicting_with_bookings
    (with_bookings db
       (filter (fun b => bk_organizer b = user_id organizer
                         /\ bk_status b = "confirmed") (bookings db)))
    organizer event_type s attendee_count buffer_before buffer_after gap
  = is_slot_conflicting_with_bookings db organizer event_type s attendee_count
      buffer_before buffer_after gap.
Proof.
  set (db' := with_bookings db _).
  assert (Hq : forall ps pe,
            existing_bookings db' organizer ps pe
            = existing_bookings db organizer ps pe).
  { intros ps pe. unfold existing_bookings, db'. cbn [bookings with_bookings].
    apply filter_absorb. intros b. tauto. }
  assert (Ht : total_confirmed_attendees db' organizer event_type s
               = total_confirmed_attendees db organizer event_type s).
  { unfold total_confirmed_attendees, overlapping_bookings, db'.
    cbn [bookings with_bookings]. do 2 f_equal.
    apply filter_absorb. intros b. tauto. }
  unfold is_slot_conflicting_with_bookings. rewrite Hq.
  generalize (existing_bookings db organizer
                (add_minutes (start_time s) (- buffer_before))
                (add_minutes (end_time s) buffer_after)).
  intros existing. induction existing as [|b rest IH]; [reflexivity|].
  cbn [conflict_loop]. rewrite IH, Ht. reflexivity.
Qed.

End BookingFilter.

Section BlockFilter.
Context {zones : ZoneDb}.

Lemma filter_nonempty {A} (P : A -> Prop) `{!forall x, Decision (P x)}
    (l : list A) :
  filter P l <> [] <-> exists x, x ∈ l /\ P x.
Proof.
  split.
  - destruct (filter P l) as [|x r] eqn:E; [congruence|]. intros _.
    assert (Hx : x ∈ filter P l) by (rewrite E; left).
    apply list_elem_of_filter in Hx as [? ?]. eauto.
  - intros (x & Hx & HP) E.
    assert (Hin : x ∈ filter P l) by (apply list_elem_of_filter; auto).
    rewrite E in Hin. inversion Hin.
Qed.

(** X16: blocks only ever take slots away: a slot that the block filter
    rejects is still rejected after any one-time and recurring blocks
    have been added to the tables. *)
Theorem more_blocks_block_more (db db' : Database) (organizer : User)
    (s : slot) (d : Z) :
  (forall b, b ∈ blocked_times db -> b ∈ blocked_times db') ->
  (forall b, b ∈ recurring_blocks db -> b ∈ recurring_blocks db') ->
  is_slot_blocked db organizer s d = true ->
  is_slot_blocked db' organizer s d = true.
Proof.
  intros Hone Hrec. unfold is_slot_blocked. rewrite !orb_true_iff.
  intros [H|H]; [left|right].
  - unfold is_slot_blocked_by_one_time in *. cbv zeta in *.
    match type of H with
    | context [filter ?P (blocked_times db)] =>
        assert (Hne : filter P (blocked_times db) <> [])
          by (destruct (filter P (blocked_times db)); [discriminate|congruence]);
        apply filter_nonempty in Hne as (b & Hb & HP);
        assert (Hne' : filter P (blocked_times db') <> [])
          by (apply filter_nonempty; exists b; auto);
        destruct (filter P (blocked_times db')); [congruence|reflexivity]
    end.
  - unfold is_slot_blocked_by_recurring in *.
    apply existsb_exists in H as (b & Hb & Htest).
    apply existsb_exists. exists b. split; [|exact Htest].
    apply list_elem_of_In. apply list_elem_of_In in Hb.
    apply list_elem_of_filter in Hb as [HP Hb].
    apply list_elem_of_filter. auto.
Qed.

End BlockFilter.

(* ===================================================================== *)
(** * Further properties of the merge and of the enrichment *)
(* ===================================================================== *)

Lemma covered_cons (t : Z) (iv : Z * Z) (l : list (Z * Z)) :
  covered t (iv :: l) <-> iv.1 <= t <= iv.2 \/ covered t l.
Proof.
  unfold covered. split.
  - intros (x & Hx & Ht). apply elem_of_cons in Hx as [->|Hx]; eauto.
  - intros [Ht|(x & Hx & Ht)]; [exists iv|exists x]; split; auto;
      [left|right; exact Hx].
Qed.

Lemma merge_loop_covered (t : Z) (rest : list (Z * Z)) (last : Z * Z) :
  Forall (fun x => last.1 <= x.1) rest ->
  StronglySorted (fun a b => a.1 <= b.1) rest ->
  covered t (merge_loop last rest) <-> covered t (last :: rest).
Proof.
  revert last. induction rest as [|[cs ce] rest IH]; intros [ls le] Hge Hs;
    cbn [merge_loop]; [reflexivity|].
  apply Forall_cons in Hge as [Hc Hge]. simpl in Hc.
  apply StronglySorted_cons in Hs as [Hcr Hs].
  destruct (Z.leb_spec cs le) as [Hle|Hgt].
  - rewrite IH; [|eapply Forall_impl; [exact Hge|]; simpl; lia|exact Hs].
    rewrite !covered_cons. simpl.
    assert (ls <= t <= Z.max le ce <-> ls <= t <= le \/ cs <= t <= ce) by lia.
    tauto.
  - rewrite covered_cons, IH by assumption. rewrite !covered_cons. tauto.
Qed.

Lemma sorted_by_start (intervals : list (Z * Z)) :
  StronglySorted (fun a b => a.1 <= b.1)
    (py_sorted (fun y x : Z * Z => y.1 <? x.1) intervals).
Proof.
  pose proof (py_sorted_sorted (fun y x : Z * Z => y.1 <? x.1) (fun _ _ => True)
                ltac:(intros a b; rewrite !Z.ltb_lt, !Z.ltb_ge; lia)
                ltac:(intros a b c; rewrite !Z.ltb_ge; lia)
                intervals (StronglySorted_True _)) as Hs.
  eapply StronglySorted_impl; [|exact Hs].
  intros a b [Hba _]. apply Z.ltb_ge in Hba. exact Hba.
Qed.

(** X17: merging changes nothing in what is covered: an instant lies in
    an interval of the result exactly when it lies in one of the
    intervals given; and the intervals of the result are apart from each
    other, in increasing order. *)
Theorem merge_keeps_coverage (intervals : list (Z * Z)) (t : Z) :
  (covered t (merge_overlapping_intervals intervals) <-> covered t intervals)
  /\ StronglySorted separated (merge_overlapping_intervals intervals).
Proof.
  split; [|apply merge_overlapping_intervals_separated].
  unfold merge_overlapping_intervals.
  pose proof (sorted_by_start intervals) as Hs.
  assert (Hsame : covered t (py_sorted (fun y x : Z * Z => y.1 <? x.1) intervals)
                  <-> covered t intervals).
  { unfold covered. split; intros (iv & Hiv & Ht); exists iv; split; auto;
      apply (py_sorted_elem_of (fun y x : Z * Z => y.1 <? x.1)); exact Hiv. }
  destruct (py_sorted _ intervals) as [|first rest]; [exact Hsame|].
  apply StronglySorted_cons in Hs as [Hf Hs].
  rewrite merge_loop_covered by assumption. exact Hsame.
Qed.

Lemma merge_loop_apart (rest : list (Z * Z)) (last : Z * Z) :
  StronglySorted separated (last :: rest) -> merge_loop last rest = last :: rest.
Proof.
  revert last. induction rest as [|[cs ce] rest IH]; intros [ls le] Hs;
    cbn [merge_loop]; [reflexivity|].
  apply StronglySorted_cons in Hs as [Hl Hs].
  pose proof (Forall_inv Hl) as Hc. unfold separated in Hc. simpl in Hc.
  destruct (Z.leb_spec cs le); [lia|]. f_equal. apply IH, Hs.
Qed.

Lemma merge_loop_starts (rest : list (Z * Z)) (last : Z * Z) :
  Forall (fun x => last.1 <= x.1) rest ->
  StronglySorted (fun a b => a.1 <= b.1) rest ->
  StronglySorted (fun a b => a.1 <= b.1) (merge_loop last rest)
  /\ Forall (fun x => last.1 <= x.1) (merge_loop last rest).
Proof.
  revert last. induction rest as [|[cs ce] rest IH]; intros [ls le] Hge Hs;
    cbn [merge_loop].
  - split; repeat constructor. simpl. lia.
  - apply Forall_cons in Hge as [Hc Hge]. simpl in Hc.
    apply StronglySorted_cons in Hs as [Hcr Hs].
    destruct (Z.leb_spec cs le) as [Hle|Hgt].
    + destruct (IH (ls, Z.max le ce) Hge Hs) as [H1 H2].
      split; [exact H1|exact H2].
    + destruct (IH (cs, ce) Hcr Hs) as [Hinc Hall]. split.
      * constructor; [exact Hinc|].
        eapply Forall_impl; [exact Hall|]. simpl. lia.
      * constructor; [simpl; lia|].
        eapply Forall_impl; [exact Hall|]. simpl. lia.
Qed.

(** A list in which no element has to go before an earlier one is left
    as it is by the sort. *)
Lemma py_sorted_in_order {A} (goes_before : A -> A -> bool) (l : list A) :
  StronglySorted (fun a b => goes_before b a = false) l ->
  py_sorted goes_before l = l.
Proof.
  induction 1 as [|x l Hs IH Hx]; [reflexivity|].
  cbn [py_sorted foldr]. fold (py_sorted goes_before l). rewrite IH.
  destruct l as [|y l]; [reflexivity|]. cbn [insert_stable].
  rewrite (Forall_inv Hx). reflexivity.
Qed.

(** X18: merging is idempotent: what it returns it returns unchanged
    when given it again. *)
Theorem merge_is_idempotent (intervals : list (Z * Z)) :
  merge_overlapping_intervals (merge_overlapping_intervals intervals)
  = merge_overlapping_intervals intervals.
Proof.
  pose proof (merge_overlapping_intervals_separated intervals) as Hsep.
  assert (Hinc : StronglySorted (fun a b => a.1 <= b.1)
                   (merge_overlapping_intervals intervals)).
  { unfold merge_overlapping_intervals.
    pose proof (sorted_by_start intervals) as Hs.
    destruct (py_sorted _ intervals) as [|first rest]; [constructor|].
    apply StronglySorted_cons in Hs as [Hf Hs].
    apply merge_loop_starts; assumption. }
  revert Hsep Hinc. generalize (merge_overlapping_intervals intervals).
  intros l Hsep Hinc. unfold merge_overlapping_intervals.
  rewrite py_sorted_in_order.
  - destruct l as [|first rest]; [reflexivity|].
    apply merge_loop_apart, Hsep.
  - eapply StronglySorted_impl; [|exact Hinc].
    intros a b Hab. apply Z.ltb_ge. exact Hab.
Qed.

Example merge_twice :
  merge_overlapping_intervals [(5, 1); (3, 4); (3, 9); (2, 2)]
  = [(2, 2); (3, 9)].
Proof. reflexivity. Qed.

(* ===================================================================== *)
(** * Further properties of the enrichment *)
(* ===================================================================== *)

Section Enrichment.
Context {zones : ZoneDb}.

Lemma insert_stable_perm {A} (goes_before : A -> A -> bool) (x : A) (l : list A) :
  insert_stable goes_before x l ≡ₚ x :: l.
Proof.
  induction l as [|y l IH]; simpl; [reflexivity|].
  destruct (goes_before y x); [|reflexivity].
  rewrite IH. apply Permutation_swap.
Qed.

Lemma py_sorted_perm {A} (goes_before : A -> A -> bool) (l : list A) :
  py_sorted goes_before l ≡ₚ l.
Proof.
  induction l as [|x l IH]; simpl; [reflexivity|].
  rewrite insert_stable_perm. fold (py_sorted goes_before l). rewrite IH.
  reflexivity.
Qed.

(** The loop over the zones: the keys of the dict and the bounds of the
    count. *)
Lemma invitee_loop_spec (rs re : Z) (s : slot) (zs : list string)
    (times : gmap string invitee_time) (count : Z) :
  let result := invitee_loop rs re s zs (times, count) in
  (forall name, is_Some (result.1 !! name)
                <-> (name ∈ zs /\ zone_known name = true)
                    \/ is_Some (times !! name))
  /\ count <= result.2 <= count + Z.of_nat (length zs).
Proof.
  revert times count. induction zs as [|z zs IH]; intros times count.
  - simpl. split; [|lia]. intros name. rewrite elem_of_nil. tauto.
  - cbn [invitee_loop]. destruct (zone_known z) eqn:Hz.
    + match goal with
      | |- context [invitee_loop rs re s zs (?t, ?c)] =>
          destruct (IH t c) as [Hk Hc]
      end.
      cbv zeta. split.
      * intros name. rewrite Hk, elem_of_cons.
        destruct (decide (name = z)) as [->|Hne].
        -- rewrite lookup_insert_eq. split; [|intros _; right; eauto].
           intros _. left. auto.
        -- rewrite lookup_insert_ne by congruence. tauto.
      * destruct ((rs <=? hour (astimezone (start_time s) z))
                  && (hour (astimezone (start_time s) z) <=? re));
          cbn [length]; lia.
    + destruct (IH times count) as [Hk Hc]. cbv zeta. split.
      * intros name. rewrite Hk, elem_of_cons.
        split; [tauto|]. intros [[[->|Hin] Hkn]|Hs]; [congruence|tauto..].
      * cbn [length]. lia.
Qed.

Lemma quotient_in_unit (a b : Z) :
  0 <= a <= b -> 0 < b ->
  (0 <= Qc_of_Z a / Qc_of_Z b)%Qc /\ (Qc_of_Z a / Qc_of_Z b <= 1)%Qc.
Proof.
  intros Ha Hb.
  pose proof (proj1 (Z2Qc_inj_lt 0 b) Hb) as Hb'.
  pose proof (proj1 (Z2Qc_inj_le 0 a) ltac:(lia)) as Ha'.
  pose proof (proj1 (Z2Qc_inj_le a b) ltac:(lia)) as Hab.
  rewrite Z2Qc_inj_0 in Hb', Ha'.
  assert (Hne : Qc_of_Z b <> 0%Qc).
  { intros E. rewrite E in Hb'. exact (Qclt_not_eq _ _ Hb' eq_refl). }
  split.
  - apply (Qcmult_le_mono_pos_r _ _ (Qc_of_Z b) Hb').
    rewrite Qcmult_0_l. unfold Qcdiv.
    rewrite <- Qcmult_assoc, (Qcmult_comm (/ _)), Qcmult_inv_r, Qcmult_1_r
      by exact Hne.
    exact Ha'.
  - apply (Qcmult_le_mono_pos_r _ _ (Qc_of_Z b) Hb').
    rewrite Qcmult_1_l. unfold Qcdiv.
    rewrite <- Qcmult_assoc, (Qcmult_comm (/ _)), Qcmult_inv_r, Qcmult_1_r
      by exact Hne.
    exact Hab.
Qed.

Lemma multi_invitee_bases (l : list out_slot) (zs : list string) (p : Profile) :
  base <$> calculate_multi_invitee_intersection l zs p ≡ₚ base <$> l.
Proof.
  unfold calculate_multi_invitee_intersection.
  rewrite py_sorted_perm, <- list_fmap_compose.
  erewrite list_fmap_ext; [reflexivity|]. intros _ x _. simpl.
  unfold with_invitee_times. destruct (invitee_loop _ _ _ _ _). reflexivity.
Qed.

(** X19: what [calculate_multi_invitee_intersection] does to the slots:
    it returns the slots it was given, reordered; each carries a
    fairness score between 0 and 1, and an entry in [invitee_times] for
    exactly those of the zones that resolve. *)
Theorem multi_invitee_enrichment (l : list out_slot) (zs : list string)
    (p : Profile) :
  base <$> calculate_multi_invitee_intersection l zs p ≡ₚ base <$> l
  /\ Forall
       (fun x =>
          (exists q, fairness_score x = Some q /\ (0 <= q)%Qc /\ (q <= 1)%Qc)
          /\ exists times,
               invitee_times x = Some times
               /\ forall name, is_Some (times !! name)
                               <-> name ∈ zs /\ zone_known name = true)
       (calculate_multi_invitee_intersection l zs p).
Proof.
  split; [apply multi_invitee_bases|].
  unfold calculate_multi_invitee_intersection.
  set (enhance := with_invitee_times _ _ _).
  apply Forall_forall. intros x Hx.
  apply (proj1 (py_sorted_elem_of _ _ _)) in Hx.
  apply list_elem_of_fmap in Hx as (x0 & -> & _).
  unfold enhance, with_invitee_times.
  pose proof (invitee_loop_spec (reasonable_hours_start p)
                (reasonable_hours_end p) (base x0) zs ∅ 0) as Hspec.
  cbv zeta in Hspec.
  destruct (invitee_loop _ _ _ _ _) as [times count].
  destruct Hspec as [Hk Hc]. cbn [fst snd] in Hk, Hc.
  cbn [fairness_score invitee_times]. split.
  - eexists. split; [reflexivity|].
    destruct zs as [|z zs]; [split; discriminate|].
    apply quotient_in_unit; cbn [length] in *; lia.
  - exists times. split; [reflexivity|].
    intros name. rewrite Hk, lookup_empty.
    split; [intros [H|[? [=]]]; exact H|auto].
Qed.

Lemma enhance_keeps_base (l : list out_slot) (itz : string) :
  base <$> enhance_slots_with_dst_info l itz = base <$> l.
Proof.
  unfold enhance_slots_with_dst_info. rewrite <- list_fmap_compose.
  apply list_fmap_ext. intros _ x _. simpl.
  destruct (zone_known itz); reflexivity.
Qed.

(** X20: the enrichment neither adds nor drops a slot: when the loop
    over the dates has come back with [all_slots], the answer carries
    exactly these slots, in the same order unless more than one invitee
    zone is left, in which case they are reordered; the count in the
    metrics is their number. *)
Theorem answer_carries_collected_slots (db : Database) (organizer : User)
    (p : Profile) (event_type : EventType) (start_date end_date : Z)
    (invitee_timezone : string) (attendee_count : Z)
    (invitee_timezones : option (list string)) (all_slots : list slot) :
  profile organizer = Some p ->
  collect_all_slots db organizer event_type start_date end_date
    (resolve_organizer_timezone p).2
    (validate_invitee_timezone invitee_timezone).2 attendee_count
  = Done all_slots ->
  exists r,
    calculate_available_slots db organizer event_type start_date end_date
      invitee_timezone attendee_count invitee_timezones = Some r
    /\ base <$> slots r ≡ₚ all_slots
    /\ total_slots_calculated (performance_metrics r)
       = Some (Z.of_nat (length all_slots))
    /\ (match (validate_invitee_timezones invitee_timezones).2 with
        | Some zs => (length zs <= 1)%nat
        | None => True
        end -> base <$> slots r = all_slots).
Proof.
  intros Hp Hall. unfold calculate_available_slots, calculate_body.
  destruct (validate_invitee_timezone invitee_timezone) as [w1 itz].
  destruct (validate_invitee_timezones invitee_timezones) as [w2 itzs].
  rewrite Hp.
  destruct (resolve_organizer_timezone p) as [w3 otz].
  cbn [snd] in Hall. rewrite Hall. cbn [mbind outcome_bind].
  assert (Hplain : base <$> (plain <$> all_slots) = all_slots).
  { rewrite <- list_fmap_compose. rewrite <- (list_fmap_id all_slots) at 2.
    apply list_fmap_ext. reflexivity. }
  eexists. split; [reflexivity|]. cbn [slots performance_metrics
    total_slots_calculated snd].
  assert (Hperm : forall l,
            base <$> l ≡ₚ all_slots ->
            base <$> enhance_slots_with_dst_info l itz ≡ₚ all_slots
            /\ Some (Z.of_nat (length (enhance_slots_with_dst_info l itz)))
               = Some (Z.of_nat (length all_slots))).
  { intros l Hl. rewrite enhance_keeps_base. split; [exact Hl|].
    do 2 f_equal. unfold enhance_slots_with_dst_info.
    rewrite length_fmap, <- (length_fmap base), Hl. reflexivity. }
  split; [|split].
  - apply Hperm. destruct itzs as [zs|]; [|rewrite Hplain; reflexivity].
    case_bool_decide; [|rewrite Hplain; reflexivity].
    rewrite multi_invitee_bases, Hplain. reflexivity.
  - apply Hperm. destruct itzs as [zs|]; [|rewrite Hplain; reflexivity].
    case_bool_decide; [|rewrite Hplain; reflexivity].
    rewrite multi_invitee_bases, Hplain. reflexivity.
  - intros Hone. rewrite enhance_keeps_base.
    destruct itzs as [zs|]; [|exact Hplain].
    rewrite bool_decide_eq_false_2 by lia. exact Hplain.
Qed.

End Enrichment.

(* ===================================================================== *)
(** * Properties of the cache key planners *)
(* ===================================================================== *)

Lemma append_assoc (a b c : string) : (a +:+ b) +:+ c = a +:+ (b +:+ c).
Proof.
  induction a as [|x a IH]; [rewrite !append_nil; reflexivity|].
  rewrite !append_cons, IH. reflexivity.
Qed.

Lemma weekday_bounds (d : Z) : 0 <= weekday d <= 6.
Proof. unfold weekday. pose proof (Z.mod_pos_bound (d + 6) 7). lia. Qed.

(** The Monday of the week of a day. *)
Lemma week_start_unique (ws d : Z) :
  weekday ws = 0 -> ws <= d <= ws + 6 -> d - weekday d = ws.
Proof.
  unfold weekday. intros Hws Hd.
  apply Z.mod_divide in Hws; [|lia]. destruct Hws as [q Hq].
  rewrite <- (Z.mod_unique_pos (d + 6) 7 q (d - ws)); lia.
Qed.

Lemma week_start_monday (d : Z) : weekday (d - weekday d) = 0.
Proof.
  unfold weekday.
  pose proof (Z.div_mod (d + 6) 7 ltac:(lia)) as Hdm.
  replace (d - (d + 6) `mod` 7 + 6) with (((d + 6) / 7) * 7) by lia.
  apply Z.mod_mul. lia.
Qed.

Section PlannerProperties.
Variable fromordinal : Z -> pydate.

(** X21: with an event type and a date range given, the patterns are one
    per day of the range, none for a range with its end before its
    start; and the key of every query for that organizer and event type
    that starts on a day of the range begins with one of the patterns,
    the final star left off. *)
Theorem patterns_cover_keys (organizer_id event_type_id : string)
    (start_date end_date : Z) :
  truthy event_type_id = true ->
  let patterns :=
    generate_cache_key_patterns_for_invalidation fromordinal organizer_id
      (Some event_type_id) (Some (start_date, end_date)) in
  length patterns = Z.to_nat (end_date - start_date + 1)
  /\ forall d query_end invitee_timezone attendee_count,
       start_date <= d <= end_date ->
       exists stem rest,
         stem +:+ "*" ∈ patterns
         /\ get_cache_key_for_availability organizer_id event_type_id
              (fromordinal d) query_end invitee_timezone attendee_count
            = stem +:+ rest.
Proof.
  intros He patterns. subst patterns.
  unfold generate_cache_key_patterns_for_invalidation, given. rewrite He.
  split.
  - unfold dates_from. rewrite !length_fmap, length_seq. reflexivity.
  - intros d query_end itz count Hd.
    exists ("availability:" +:+ organizer_id +:+ ":" +:+ event_type_id +:+ ":"
            +:+ date_str fromordinal d).
    eexists. split.
    + apply list_elem_of_fmap. exists d. split.
      * rewrite !append_assoc. reflexivity.
      * unfold dates_from. apply list_elem_of_fmap.
        exists (Z.to_nat (d - start_date)). split; [lia|].
        apply elem_of_seq. lia.
    + unfold get_cache_key_for_availability, join, date_str.
      rewrite !append_assoc. reflexivity.
Qed.

Lemma weekly_loop_weeks (organizer_id : string) (fuel : nat)
    (current_date end_date : Z) (k : string) :
  end_date - current_date + 1 <= Z.of_nat fuel ->
  k ∈ weekly_loop fromordinal fuel organizer_id current_date end_date
  <-> exists d, current_date <= d <= end_date
                /\ k = week_key fromordinal organizer_id (d - weekday d).
Proof.
  revert current_date. induction fuel as [|fuel IH]; intros cur Hfuel.
  - simpl. rewrite elem_of_nil. split; [tauto|]. intros (d & Hd & _). lia.
  - cbn [weekly_loop]. pose proof (weekday_bounds cur) as Hw.
    destruct (Z.leb_spec cur end_date) as [Hle|Hgt].
    + cbv zeta. rewrite elem_of_cons, IH by lia. split.
      * intros [->|(d & Hd & ->)]; [exists cur|exists d]; split; auto; lia.
      * intros (d & Hd & ->).
        destruct (Z_le_gt_dec d (cur - weekday cur + 6)) as [Hin|Hout].
        -- left. f_equal. apply week_start_unique;
             [apply week_start_monday|lia].
        -- right. exists d. split; [lia|reflexivity].
    + rewrite elem_of_nil. split; [tauto|]. intros (d & Hd & _). lia.
Qed.

(** X22: the weekly keys are exactly the keys of the weeks, Monday to
    Sunday, of the days of the range: one key for each week that the
    range meets, and none for a range with its end before its start. *)
Theorem weekly_keys_are_the_weeks_of_the_range (organizer_id : string)
    (start_date end_date : Z) (k : string) :
  (k ∈ get_weekly_cache_keys_for_date_range fromordinal organizer_id
         start_date end_date
   <-> exists d, start_date <= d <= end_date
                 /\ k = week_key fromordinal organizer_id (d - weekday d))
  /\ forall d, weekday (d - weekday d) = 0
               /\ d - weekday d <= d <= d - weekday d + 6.
Proof.
  split.
  - unfold get_weekly_cache_keys_for_date_range.
    rewrite elem_of_list_to_set. apply weekly_loop_weeks. lia.
  - intros d. split; [apply week_start_monday|].
    pose proof (weekday_bounds d). lia.
Qed.

End PlannerProperties.

Lemma length_bind_const {A B} (f : A -> list B) (n : nat) (l : list A) :
  (forall x, length (f x) = n) -> length (l ≫= f) = (length l * n)%nat.
Proof.
  intros Hf. induction l as [|x l IH]; [reflexivity|].
  rewrite bind_cons, length_app, Hf, IH. reflexivity.
Qed.

(** X23: the variations of the five-part stem of a key: the stem itself
    and one key for each pair of a common zone and a common count; the
    key that [get_cache_key_for_availability] builds for a common zone
    and a common count is among them. *)
Theorem variations_hold_the_key (common_timezones : option (list string))
    (common_attendee_counts : option (list Z))
    (organizer_id event_type_id : string) (start_date end_date : pydate)
    (invitee_timezone : string) (attendee_count : Z) :
  invitee_timezone ∈ default ["UTC"] common_timezones ->
  attendee_count ∈ default [1] common_attendee_counts ->
  let base_key :=
    join ":" ["availability"; organizer_id; event_type_id;
              isoformat start_date; isoformat end_date] in
  let variations :=
    generate_cache_key_variations common_timezones common_attendee_counts
      base_key in
  get_cache_key_for_availability organizer_id event_type_id start_date end_date
    invitee_timezone attendee_count ∈ variations
  /\ head variations = Some base_key
  /\ length variations
     = S (length (default ["UTC"] common_timezones)
          * length (default [1] common_attendee_counts)).
Proof.
  intros Htz Hn base_key variations. subst variations.
  unfold generate_cache_key_variations. cbv zeta. split; [|split].
  - right. apply list_elem_of_bind. exists invitee_timezone.
    split; [|exact Htz].
    apply list_elem_of_fmap. exists attendee_count. split; [|exact Hn].
    subst base_key. unfold get_cache_key_for_availability, join.
    rewrite !append_assoc. reflexivity.
  - reflexivity.
  - cbn [length]. f_equal. apply length_bind_const.
    intros tz. apply length_fmap.
Qed.

(* ===================================================================== *)
(** * Further properties of the dirty-set protocol *)
(* ===================================================================== *)

Lemma run_call_pending (cache : gmap string cache_entry) (start clock : Z)
    (o : string) (n : nat) (c : dirty_call) :
  pending_invariant cache start o n ->
  within_timeout start clock ->
  exists cache',
    run_call cache clock c = Some cache'
    /\ pending_invariant cache' start o (pending_marks o n [c]).
Proof.
  intros (Hwt & Hfresh & Hinv) Hclock.
  destruct (Hinv clock Hclock) as (Hlen & Hrec & l & Hl & Hin).
  destruct c as [o' ct full now kw|o']; cbn [run_call pending_marks].
  - destruct (mark_cache_dirty_spec cache clock o' ct full now kw Hwt)
      as (s & Hs & ->).
    eexists. split; [reflexivity|].
    split; [apply well_typed_after_mark, Hwt|]. split.
    { intros k e. rewrite lookup_insert. case_decide; [intros [= <-]|].
      - unfold within_timeout in Hclock. simpl. lia.
      - rewrite lookup_insert. case_decide; [intros [= <-]|apply Hfresh].
        unfold within_timeout in Hclock. simpl. lia. }
    intros t Ht. unfold stored_changes, get_dirty_organizers, cache_get.
    rewrite stored_record_after_mark, lookup_insert_eq. cbn [ce_value ce_expires].
    rewrite (proj2 (Z.ltb_lt t (clock + 3600)))
      by (unfold within_timeout in *; lia).
    unfold get_dirty_organizers in Hl. rewrite Hs in Hl. injection Hl as <-.
    rewrite elem_of_elements in Hin.
    destruct (decide (o = o')) as [<-|Hne].
    + rewrite decide_True by reflexivity. cbn [dd_changes]. split; [|split].
      * unfold stored_changes in Hlen.
        destruct (stored_record cache clock o) as [d|];
          cbn [from_option id dd_changes] in *; rewrite length_app;
          cbn [length] in *; lia.
      * split; [lia|eauto].
      * eexists. split; [reflexivity|]. rewrite elem_of_elements.
        split; [lia|]. intros _.
        apply elem_of_union_r, elem_of_singleton. reflexivity.
    + rewrite decide_False by congruence.
      destruct (Hinv t Ht) as (Hlen' & Hrec' & _).
      unfold stored_changes in Hlen'. split; [exact Hlen'|].
      split; [exact Hrec'|].
      eexists. split; [reflexivity|]. rewrite elem_of_elements, <- Hin.
      rewrite elem_of_union, elem_of_singleton.
      split; [intros [H|H]; [exact H|congruence]|auto].
  - destruct (clear_dirty_flags_spec cache clock o' Hwt) as (s & Hs & ->).
    eexists. split; [reflexivity|].
    split; [apply well_typed_after_clear, Hwt|]. split.
    { intros k e. rewrite lookup_insert. case_decide; [intros [= <-]|].
      - unfold within_timeout in Hclock. simpl. lia.
      - rewrite lookup_delete. case_decide; [discriminate|apply Hfresh]. }
    intros t Ht. unfold stored_changes, get_dirty_organizers, cache_get.
    rewrite stored_record_after_clear, lookup_insert_eq. cbn [ce_value ce_expires].
    rewrite (proj2 (Z.ltb_lt t (clock + 3600)))
      by (unfold within_timeout in *; lia).
    unfold get_dirty_organizers in Hl. rewrite Hs in Hl. injection Hl as <-.
    rewrite elem_of_elements in Hin.
    destruct (decide (o = o')) as [<-|Hne].
    + rewrite decide_True by reflexivity. split; [reflexivity|]. split.
      * split; [intros [? [=]]|lia].
      * eexists. split; [reflexivity|]. rewrite elem_of_elements.
        rewrite elem_of_difference, elem_of_singleton.
        split; [intros [_ H]; congruence|lia].
    + rewrite decide_False by congruence.
      destruct (Hinv t Ht) as (Hlen' & Hrec' & _).
      unfold stored_changes in Hlen'. split; [exact Hlen'|].
      split; [exact Hrec'|].
      eexists. split; [reflexivity|]. rewrite elem_of_elements, <- Hin.
      rewrite elem_of_difference, elem_of_singleton.
      split; [tauto|]. intros H. split; [exact H|congruence].
Qed.

Lemma run_calls_pending (cs : list (Z * dirty_call))
    (cache : gmap string cache_entry) (start : Z) (o : string) (n : nat) :
  pending_invariant cache start o n ->
  Forall (fun tc => within_timeout start tc.1) cs ->
  exists cache',
    run_calls cache cs = Some cache'
    /\ pending_invariant cache' start o (pending_marks o n cs.*2).
Proof.
  revert cache n. induction cs as [|[clock c] cs IH]; intros cache n Hinv Hcs.
  - exists cache. split; [reflexivity|exact Hinv].
  - apply Forall_cons in Hcs as [Hclock Hcs].
    destruct (run_call_pending cache start clock o n c Hinv Hclock)
      as (cache1 & Hrun & Hinv1).
    cbn [run_calls]. rewrite Hrun.
    destruct (IH cache1 _ Hinv1 Hcs) as (cache' & Hrun' & Hinv').
    exists cache'. split; [exact Hrun'|].
    destruct c; exact Hinv'.
Qed.

(** X24: the protocol run from an empty cache, no entry expiring: all
    the calls and the read fall into one span shorter than the timeout
    of an hour. After any such calls, an organizer has as many changes
    stored as calls have marked them since the last call that cleared
    them; and they are in the list of dirty organizers, and have a
    record, exactly when there is such a mark. *)
Theorem pending_marks_are_stored (cs : list (Z * dirty_call))
    (organizer_id : string) (start read_at : Z) :
  Forall (fun tc => within_timeout start tc.1) cs ->
  within_timeout start read_at ->
  exists cache dirty_organizers,
    run_calls ∅ cs = Some cache
    /\ get_dirty_organizers cache read_at = Some dirty_organizers
    /\ length (stored_changes cache read_at organizer_id)
       = pending_marks organizer_id 0 cs.*2
    /\ (organizer_id ∈ dirty_organizers
        <-> (0 < pending_marks organizer_id 0 cs.*2)%nat)
    /\ (is_Some (stored_flag cache read_at organizer_id)
        <-> (0 < pending_marks organizer_id 0 cs.*2)%nat).
Proof.
  intros Hcs Hread.
  destruct (run_calls_pending cs ∅ start organizer_id 0) as
    (cache & Hrun & Hwt & Hfresh & Hinv); [|exact Hcs|].
  { split; [apply empty_cache_well_typed|]. split.
    - intros k e. rewrite lookup_empty. discriminate.
    - intros t Ht.
      unfold stored_changes, stored_record, get_dirty_organizers, cache_get.
      rewrite !lookup_empty. split; [reflexivity|]. split.
      + split; [intros [? [=]]|lia].
      + eexists. split; [reflexivity|].
        rewrite elements_empty, elem_of_nil. lia. }
  destruct (Hinv read_at Hread) as (Hlen & Hrec & l & Hl & Hin).
  exists cache, l. repeat split; auto; try apply Hin.
  - intros Hflag. apply Hrec. unfold stored_flag in Hflag.
    apply fmap_is_Some in Hflag. exact Hflag.
  - intros Hpos. unfold stored_flag. apply fmap_is_Some, Hrec, Hpos.
Qed.

Lemma pending_marks_are_stored_witness :
  exists cache dirty_organizers,
    run_calls ∅
      [(100, MarkDirty "o1" "rule" false "t1" ∅); (160, ClearDirty "o1");
       (200, MarkDirty "o2" "rule" false "t2" ∅);
       (900, MarkDirty "o1" "block" true "t3" ∅);
       (3000, MarkDirty "o1" "rule" false "t4" ∅)] = Some cache
    /\ get_dirty_organizers cache 3500 = Some dirty_organizers
    /\ length (stored_changes cache 3500 "o1") = 2%nat
    /\ ("o1" ∈ dirty_organizers <-> (0 < 2)%nat)
    /\ (is_Some (stored_flag cache 3500 "o1") <-> (0 < 2)%nat).
Proof.
  apply (pending_marks_are_stored
           [(100, MarkDirty "o1" "rule" false "t1" ∅); (160, ClearDirty "o1");
            (200, MarkDirty "o2" "rule" false "t2" ∅);
            (900, MarkDirty "o1" "block" true "t3" ∅);
            (3000, MarkDirty "o1" "rule" false "t4" ∅)] "o1" 100 3500).
  - repeat constructor; unfold within_timeout; simpl; lia.
  - unfold within_timeout. lia.
Defined.

Example pending_marks_example :
  pending_marks "o1" 0
    [MarkDirty "o1" "rule" false "t1" ∅; ClearDirty "o1";
     MarkDirty "o2" "rule" false "t2" ∅; MarkDirty "o1" "block" true "t3" ∅;
     MarkDirty "o1" "rule" false "t4" ∅] = 2%nat.
Proof. reflexivity. Qed.

(** ** The planners on concrete dates *)

Example ord2ymd_examples :
  isoformat (ord2ymd 739257) = "2025-01-06"
  /\ isoformat (ord2ymd 738945) = "2024-02-29"
  /\ isoformat (ord2ymd 739251) = "2024-12-31"
  /\ isoformat (ord2ymd 1) = "0001-01-01"
  /\ isoformat (ord2ymd 730120) = "2000-01-01".
Proof. vm_compute. repeat split. Qed.

Example patterns_example :
  generate_cache_key_patterns_for_invalidation ord2ymd "o1" (Some "e1")
    (Some (739257, 739258))
  = ["availability:o1:e1:2025-01-06*"; "availability:o1:e1:2025-01-07*"]
  /\ generate_cache_key_patterns_for_invalidation ord2ymd "o1" (Some "")
       (Some (739257, 739257))
     = ["availability:o1:*:2025-01-06*"]
  /\ generate_cache_key_patterns_for_invalidation ord2ymd "o1" (Some "e1") None
     = ["availability:o1:e1:*"]
  /\ generate_cache_key_patterns_for_invalidation ord2ymd "o1" None None
     = ["availability:o1:*"]
  /\ generate_cache_key_patterns_for_invalidation ord2ymd "o1" (Some "e1")
       (Some (739258, 739257)) = [].
Proof. vm_compute. repeat split. Qed.

Example weekly_example :
  weekly_loop ord2ymd 10 "o1" 739259 739266
  = ["availability:o1:*:2025-01-06:2025-01-12";
     "availability:o1:*:2025-01-13:2025-01-19"].
Proof. vm_compute. reflexivity. Qed.

Example variations_example :
  generate_cache_key_variations (Some ["UTC"; "Asia/Tokyo"]) (Some [1; 2]) "k"
  = ["k"; "k:UTC:1"; "k:UTC:2"; "k:Asia/Tokyo:1"; "k:Asia/Tokyo:2"]
  /\ generate_cache_key_variations None None "k" = ["k"; "k:UTC:1"].
Proof. vm_compute. repeat split. Qed.

(* ===================================================================== *)
(** * Instances of the further properties *)
(* ===================================================================== *)

Ltac valid_times :=
  cbv [valid_time monday_rule time_of DAY HOUR MINUTE ar_start_time
       ar_end_time rb_start_time rb_end_time snd]; lia.

Lemma accepted_rule_is_apart_witness :
  time_of 12 0 <> time_of 13 0
  /\ minutes_apart (time_of 12 0) (time_of 13 0) (time_of 9 0) (time_of 11 0)
  /\ windows_apart (compose_window monday (time_of 12 0) (time_of 13 0))
       (compose_window monday (time_of 9 0) (time_of 11 0)).
Proof.
  destruct (accepted_rule_is_apart (fun _ => "Monday")
              [(1, monday_rule 9 0 11 0)] organizer1 None
              {| wa_day_of_week := Some 0; wa_start_time := Some (time_of 12 0);
                 wa_end_time := Some (time_of 13 0); wa_start_date := None;
                 wa_end_date := None |}
              0 (time_of 12 0) (time_of 13 0) eq_refl eq_refl eq_refl)
    as [Hne Hapart].
  - valid_times.
  - valid_times.
  - intros r Hr. apply list_elem_of_singleton in Hr. subst r. valid_times.
  - vm_compute. reflexivity.
  - destruct (Hapart 1 (monday_rule 9 0 11 0)) as [Hmin Hwin];
      [left|discriminate|reflexivity..|].
    split; [exact Hne|]. split; [exact Hmin|].
    apply Hwin; try reflexivity. vm_compute. discriminate.
Defined.

Lemma accepted_block_is_apart_witness :
  let lunch :=
    {| rb_organizer := 1; rb_day_of_week := 0; rb_start_time := time_of 12 0;
       rb_end_time := time_of 13 0; rb_start_date := None; rb_end_date := None;
       rb_is_active := true |} in
  time_of 22 0 <> time_of 1 0
  /\ monday <= monday + 7
  /\ minutes_apart (time_of 22 0) (time_of 1 0) (rb_start_time lunch)
       (rb_end_time lunch)
  /\ windows_apart (compose_window monday (time_of 22 0) (time_of 1 0))
       (compose_window monday (rb_start_time lunch) (rb_end_time lunch)).
Proof.
  intros lunch.
  destruct (accepted_block_is_apart [(1, "Lunch", lunch)] organizer1 None
              {| wa_day_of_week := Some 0; wa_start_time := Some (time_of 22 0);
                 wa_end_time := Some (time_of 1 0);
                 wa_start_date := Some monday;
                 wa_end_date := Some (monday + 7) |}
              0 (time_of 22 0) (time_of 1 0) eq_refl eq_refl eq_refl)
    as (Hne & Hdates & Hapart).
  - valid_times.
  - valid_times.
  - intros r Hr. apply list_elem_of_singleton in Hr. subst r lunch.
    valid_times.
  - vm_compute. reflexivity.
  - destruct (Hapart 1 "Lunch" lunch) as [Hmin Hwin];
      [left|discriminate|reflexivity..|].
    split; [exact Hne|]. split; [exact (Hdates _ _ eq_refl eq_refl)|].
    split; [exact Hmin|].
    apply Hwin; try reflexivity. vm_compute. discriminate.
Defined.

Lemma accepted_override_has_window_witness :
  let attrs :=
    {| oa_is_available := Some true; oa_start_time := Some (time_of 22 0);
       oa_end_time := Some (time_of 2 0) |} in
  exists s e,
    oa_start_time attrs = Some s /\ oa_end_time attrs = Some e /\ s <> e
    /\ (valid_time s -> valid_time e ->
        forall d, (compose_window d s e).1 < (compose_window d s e).2
                  /\ (compose_window d s e).2 <= (compose_window d s e).1 + DAY).
Proof.
  intros attrs. apply (accepted_override_has_window attrs); reflexivity.
Defined.

Lemma accepted_blocked_time_witness :
  let attrs :=
    {| ba_start_datetime := Some (utc_time monday 9 0);
       ba_end_datetime := Some (utc_time monday 10 0);
       ba_source := Some "google" |} in
  (forall s e,
     ba_start_datetime attrs = Some s -> ba_end_datetime attrs = Some e ->
     dt_ltb (zones := utc_only) s e = true)
  /\ (Some "google" = None -> default "manual" (ba_source attrs) = "manual")
  /\ (forall source,
        Some "google" = Some source -> source <> "manual" ->
        ba_source attrs = Some source).
Proof.
  intros attrs.
  apply (accepted_blocked_time (zones := utc_only) (Some "google") attrs).
  vm_compute. reflexivity.
Defined.

Lemma generated_slots_closed_form_witness :
  _generate_slots_from_interval DbUtc 0 (100 * MINUTE) 30 15
  = Done ((fun k => make_slot DbUtc (0 + Z.of_nat k * (15 * MINUTE)) 30)
          <$> seq 0 5).
Proof.
  destruct (proj2 (generated_slots_closed_form DbUtc 0 (100 * MINUTE) 30 15))
    as [Hlist _]; [lia|unfold MINUTE; lia|exact Hlist].
Defined.

Lemma daily_slot_is_sound_witness :
  let db := with_availability_rules empty_db [monday_rule 9 0 10 0] in
  zone_known (ZoneDb := utc_only) "UTC" = true
  /\ (exists ivs iv,
        _get_daily_available_intervals (zones := utc_only) db organizer1
          meeting monday "UTC" = Done ivs
        /\ iv ∈ ivs
        /\ slot_within (Zone "UTC") iv.1 iv.2 (duration meeting)
             (monday_slot 9 30 30))
  /\ duration_minutes (monday_slot 9 30 30) = duration meeting
  /\ is_slot_blocked (zones := utc_only) db organizer1 (monday_slot 9 30 30)
       monday = false
  /\ is_slot_conflicting_with_bookings (zones := utc_only) db organizer1
       meeting (monday_slot 9 30 30) 1 0 0 0 = false.
Proof.
  intros db.
  apply (daily_slot_is_sound (zones := utc_only) db organizer1 meeting monday
           "UTC" "UTC" 1 0 0 0 30
           [monday_slot 9 0 30; monday_slot 9 30 30]).
  - vm_compute. reflexivity.
  - right. left.
Defined.

Lemma single_override_filter_agrees_witness :
  is_slot_blocked_by_override (zones := utc_only)
    (with_date_overrides empty_db [monday_override true (Some (13, 0, 14, 0))])
    organizer1 meeting (monday_slot 13 30 30) monday = false.
Proof.
  apply (single_override_filter_agrees (zones := utc_only)
           (with_date_overrides empty_db
              [monday_override true (Some (13, 0, 14, 0))])
           organizer1 meeting monday "UTC" "UTC" 1 0 0 0 30
           (monday_override true (Some (13, 0, 14, 0)))
           [monday_slot 13 0 30; monday_slot 13 30 30]).
  - vm_compute. reflexivity.
  - vm_compute. reflexivity.
  - right. left.
Defined.

Lemma positive_stride_always_answers_witness :
  exists r,
    calculate_available_slots (zones := utc_only)
      (with_availability_rules empty_db [monday_rule 9 0 11 0]) organizer1
      meeting monday (monday + 1) "UTC" 1 None = Some r
    /\ (performance_metrics r
        = {| total_slots_calculated := Some (Z.of_nat (length (slots r)));
             date_range_days := Some (monday + 1 - monday + 1) |}
        \/ (slots r = []
            /\ performance_metrics r
               = {| total_slots_calculated := None; date_range_days := None |}
            /\ exists msg,
                 last (warnings r) = Some ("Calculation error: " +:+ msg))).
Proof.
  apply (positive_stride_always_answers (zones := utc_only)
           (with_availability_rules empty_db [monday_rule 9 0 11 0]) organizer1
           meeting monday (monday + 1) "UTC" 1 None).
  vm_compute. reflexivity.
Defined.

Lemma accepted_request_in_engine_witness :
  exists r,
    calculate_available_slots (zones := utc_only)
      (with_availability_rules empty_db [monday_rule 9 0 11 0]) organizer1
      meeting monday (monday + 90) "UTC" 1 (Some ["UTC"; "UTC"]) = Some r
    /\ (forall w, w ∈ warnings r ->
          w = "Invalid organizer timezone, using UTC"
          \/ exists msg, w = "Calculation error: " +:+ msg)
    /\ (forall n, date_range_days (performance_metrics r) = Some n ->
          1 <= n <= 91).
Proof.
  destruct (calculate_available_slots (zones := utc_only)
              (with_availability_rules empty_db [monday_rule 9 0 11 0])
              organizer1 meeting monday (monday + 90) "UTC" 1
              (Some ["UTC"; "UTC"])) as [r|] eqn:Hr.
  - exists r. split; [reflexivity|].
    apply (accepted_request_in_engine (zones := utc_only)
             (with_availability_rules empty_db [monday_rule 9 0 11 0])
             organizer1 meeting 1
             {| ra_start_date := monday; ra_end_date := monday + 90;
                ra_invitee_timezone := "UTC";
                ra_invitee_timezones := Some ["UTC"; "UTC"] |} r).
    + repeat split; vm_compute; reflexivity.
    + exact Hr.
  - exfalso. vm_compute in Hr. discriminate Hr.
Defined.

Lemma minimum_gap_is_idle_witness :
  let db :=
    with_bookings (with_availability_rules empty_db [monday_rule 9 0 11 0])
      [confirmed_booking 7 10 0 10 30 1] in
  is_slot_conflicting_with_bookings (zones := utc_only) db organizer1 meeting
    (monday_slot 9 0 30) 1 15 15 0
  = is_slot_conflicting_with_bookings (zones := utc_only) db organizer1 meeting
      (monday_slot 9 0 30) 1 15 15 60.
Proof.
  intros db.
  apply (minimum_gap_is_idle (zones := utc_only) db organizer1 meeting
           (monday_slot 9 0 30) 1 15 15 0 60); [|lia..].
  intros b Hb. apply list_elem_of_singleton in Hb. subst b.
  split; reflexivity.
Defined.

Lemma individual_conflict_iff_witness :
  let db :=
    with_bookings (with_availability_rules empty_db [monday_rule 9 0 11 0])
      [confirmed_booking 3 10 0 10 30 1] in
  is_slot_conflicting_with_bookings (zones := utc_only) db organizer1 meeting
    (monday_slot 9 30 30) 1 15 15 0 = true
  <-> exists b,
        b ∈ bookings db
        /\ bk_organizer b = user_id organizer1
        /\ bk_status b = "confirmed"
        /\ instant (zones := utc_only) (bk_start_time b)
           < instant (zones := utc_only)
               (add_minutes (end_time (monday_slot 9 30 30)) 15)
        /\ instant (zones := utc_only) (bk_end_time b)
           > instant (zones := utc_only)
               (add_minutes (start_time (monday_slot 9 30 30)) (- 15)).
Proof.
  intros db.
  apply (individual_conflict_iff (zones := utc_only) db organizer1 meeting
           (monday_slot 9 30 30) 1 15 15 0); [reflexivity| |lia].
  intros b Hb. apply list_elem_of_singleton in Hb. subst b.
  split; reflexivity.
Defined.

Lemma more_blocks_block_more_witness :
  let lunch :=
    {| bl_organizer := 1; bl_start_datetime := utc_time monday 12 0;
       bl_end_datetime := utc_time monday 13 0; bl_is_active := true |} in
  let trip :=
    {| bl_organizer := 1; bl_start_datetime := utc_time monday 15 0;
       bl_end_datetime := utc_time monday 18 0; bl_is_active := true |} in
  let db blocks :=
    {| availability_rules := [monday_rule 9 0 17 0]; date_overrides := [];
       recurring_blocks := []; blocked_times := blocks; bookings := [];
       buffer_times := []; buffer_field_defaults := (0, 0, 0, 30) |} in
  is_slot_blocked (zones := utc_only) (db [trip; lunch]) organizer1
    (monday_slot 12 30 30) monday = true.
Proof.
  intros lunch trip db.
  apply (more_blocks_block_more (zones := utc_only) (db [lunch])
           (db [trip; lunch]) organizer1 (monday_slot 12 30 30) monday).
  - intros b Hb. right. exact Hb.
  - intros b Hb. exact Hb.
  - vm_compute. reflexivity.
Defined.

Lemma answer_carries_collected_slots_witness :
  exists r,
    calculate_available_slots (zones := fixed_zones)
      (with_availability_rules empty_db [monday_rule 8 0 9 30]) organizer_ny
      meeting monday monday "UTC" 1 (Some ["America/New_York"; "Asia/Tokyo"])
    = Some r
    /\ base <$> slots r
       ≡ₚ [make_slot (Zone "America/New_York") (at_time monday 8 0) 30;
           make_slot (Zone "America/New_York") (at_time monday 8 30) 30;
           make_slot (Zone "America/New_York") (at_time monday 9 0) 30]
    /\ total_slots_calculated (performance_metrics r) = Some 3.
Proof.
  destruct (answer_carries_collected_slots (zones := fixed_zones)
              (with_availability_rules empty_db [monday_rule 8 0 9 30])
              organizer_ny
              {| timezone_name := "America/New_York";
                 reasonable_hours_start := 9; reasonable_hours_end := 18 |}
              meeting monday monday "UTC" 1
              (Some ["America/New_York"; "Asia/Tokyo"])
              [make_slot (Zone "America/New_York") (at_time monday 8 0) 30;
               make_slot (Zone "America/New_York") (at_time monday 8 30) 30;
               make_slot (Zone "America/New_York") (at_time monday 9 0) 30]
              eq_refl)
    as (r & Hr & Hperm & Hcount & _).
  - vm_compute. reflexivity.
  - exists r. split; [exact Hr|]. split; [exact Hperm|exact Hcount].
Defined.

Lemma patterns_cover_keys_witness :
  let patterns :=
    generate_cache_key_patterns_for_invalidation ord2ymd "o1" (Some "e1")
      (Some (monday, monday + 1)) in
  length patterns = 2%nat
  /\ exists stem rest,
       stem +:+ "*" ∈ patterns
       /\ get_cache_key_for_availability "o1" "e1" (ord2ymd (monday + 1))
            (ord2ymd (monday + 5)) "UTC" 1 = stem +:+ rest.
Proof.
  intros patterns.
  destruct (patterns_cover_keys ord2ymd "o1" "e1" monday (monday + 1) eq_refl)
    as [Hlen Hcover].
  split; [exact Hlen|].
  apply (Hcover (monday + 1) (ord2ymd (monday + 5)) "UTC" 1). lia.
Defined.

Lemma variations_hold_the_key_witness :
  let start_date := ord2ymd monday in
  let end_date := ord2ymd (monday + 6) in
  let variations :=
    generate_cache_key_variations (Some ["UTC"; "Asia/Tokyo"]) None
      (join ":" ["availability"; "o1"; "e1"; isoformat start_date;
                 isoformat end_date]) in
  get_cache_key_for_availability "o1" "e1" start_date end_date "Asia/Tokyo" 1
    ∈ variations
  /\ head variations
     = Some (join ":" ["availability"; "o1"; "e1"; isoformat start_date;
                       isoformat end_date])
  /\ length variations = 3%nat.
Proof.
  intros start_date end_date variations.
  apply (variations_hold_the_key (Some ["UTC"; "Asia/Tokyo"]) None "o1" "e1"
           start_date end_date "Asia/Tokyo" 1).
  - right. left.
  - left.
Defined.
